(** * Match statistics of the Lorcana match tracker

    A shallow embedding of the statistics code of the tracker:
    the per-round outcome derivation and the statistics fold of
    [EventDetail.tsx] / [EventList.tsx], the deck-level aggregation of
    [DeckList.tsx], and the three write paths that keep an event's stored
    [wins]/[losses]/[draws] counters ([RoundForm.handleSubmit] for adding
    and editing a round, [EventList.handleDeleteRound] for deleting one).

    Conventions of the embedding.
    - The counters the code keeps in JavaScript numbers only ever hold
      integers far below 2^53, so they are integers [Z] here.
    - The Firestore subtree [users/<uid>/...] of the signed-in user is a
      record of finite maps keyed by document path.
    - The four percentages are the only non-integer numbers.  They are
      IEEE 754 double-precision numbers, as in JavaScript, computed with
      the correctly rounded division and multiplication of doubles; an
      integer counter enters a division as the double of its value. *)

From Stdlib Require Import ZArith Permutation Sorted Lia.
From Stdlib Require PrimFloat SpecFloat FloatOps.
From stdpp Require Import gmap strings list fin_maps.

Local Open Scope Z_scope.

(** ** Data model *)

(** [interface Game { result: string; onThePlay: boolean }] *)
Record Game : Type := mkGame {
  result : string;
  onThePlay : bool
}.

(** The literal type ['win' | 'loss' | 'draw'] of a round's outcome. *)
Inductive Outcome : Type := Win | Loss | Draw.

(** A document of the collection [events/<eventId>/rounds], as
    [RoundForm] writes it. *)
Record RoundDoc : Type := mkRoundDoc {
  doc_opponentInkColors : list string;
  doc_games : list Game;
  doc_createdAt : Z
}.

(** A document of the collection [events].  [userDeckId] is absent on
    legacy events. *)
Record EventDoc : Type := mkEventDoc {
  name : string;
  type : string;
  userDeckId : option string;
  format : string;
  wins : Z;
  losses : Z;
  draws : Z
}.

(** The subtree [users/<uid>] of the database: the collection [events]
    keyed by event id, and the documents [events/<eventId>/rounds/<roundId>]
    keyed by the two ids of their path.  A round may exist although the
    event document of its path does not. *)
Record Firestore : Type := mkFirestore {
  events : gmap string EventDoc;
  rounds : gmap (string * string) RoundDoc
}.

(** The documents of the collection [events/<eventId>/rounds]. *)
Definition roundsOf (db : Firestore) (eventId : string) : gmap (string * string) RoundDoc :=
  filter (fun kv => fst (fst kv) = eventId) (rounds db).

(** [getDocs] on that collection: the documents with their ids.  The
    queries of the views order them by [createdAt] for display; no
    statistic depends on the order. *)
Definition getRoundDocs (db : Firestore) (eventId : string) : list (string * RoundDoc) :=
  (fun kv => (snd (fst kv), snd kv)) <$> map_to_list (roundsOf db eventId).

(** The test [game.result === r]. *)
Definition resultIs (r : string) (game : Game) : bool := String.eqb (result game) r.

(** Number of games of a sequence that pass a test. *)
Definition countGames (p : Game -> bool) (gs : list Game) : Z :=
  Z.of_nat (length (List.filter p gs)).

(** Sum of a list of integers. *)
Definition sumZ (l : list Z) : Z := fold_right Z.add 0 l.

(** ** JavaScript numbers of the percentages *)

(** A JavaScript number: a double. *)
Definition number : Type := PrimFloat.float.

(** The number that holds the integer [n] (the nearest double; [n] itself
    below 2^53). *)
Definition fromInteger (n : Z) : number :=
  FloatOps.SF2Prim (SpecFloat.binary_normalize FloatOps.prec FloatOps.emax n 0 false).

(** [a / b] on two integer-valued numbers. *)
Definition divide (a b : Z) : number :=
  PrimFloat.div (fromInteger a) (fromInteger b).

(** [x * 100] *)
Definition times100 (x : number) : number :=
  PrimFloat.mul x (fromInteger 100).

(** [parseFloat] of the decimal numeral of [n / 100]: the double nearest
    to [n / 100], for [n >= 0]. *)
Definition hundredths (n : Z) : number :=
  match n with
  | Z.pos p =>
      FloatOps.SF2Prim
        (SpecFloat.SFdiv FloatOps.prec FloatOps.emax
           (SpecFloat.S754_finite false p 0) (SpecFloat.S754_finite false 100 0))
  | _ => fromInteger 0
  end.

(** [parseFloat(x.toFixed(2))].  For a finite [x] of mantissa [m] and
    exponent [e], [toFixed] takes the integer [n] for which [n / 100 - |x|]
    is closest to zero on the exact value [m * 2^e] of [|x|], the larger
    one on a tie, and prints [n / 100] with the sign of [x]; from 10^21 on
    it prints [x] itself, as it does for infinities and [NaN], and a zero
    is printed without sign.  [scaled / unit] is [|x| * 100]. *)
Definition toFixed2 (x : number) : number :=
  match FloatOps.Prim2SF x with
  | SpecFloat.S754_finite s m e =>
      let scaled := if 0 <=? e then Z.pos m * 2 ^ e * 100 * 2 else Z.pos m * 100 * 2 in
      let unit := if 0 <=? e then 2 else 2 ^ (- e) * 2 in
      if 10 ^ 21 * 100 * unit <=? scaled then x
      else
        let n := (scaled + unit / 2) / unit in
        if s then PrimFloat.opp (hundredths n) else hundredths n
  | SpecFloat.S754_zero _ => fromInteger 0
  | _ => x
  end.

(** [d > 0 ? (n / d) * 100 : 0], the shape of all four percentage
    constants. *)
Definition rate (n d : Z) : number :=
  if d >? 0 then times100 (divide n d) else fromInteger 0.

(** ** EventDetail.tsx (EventList.tsx repeats the same two loops) *)

Module Tally.

(** The nine local counters of the callback that derives a round. *)
Record t : Type := mk {
  playerWins : Z;
  playerLosses : Z;
  playerDraws : Z;
  onPlayWins : Z;
  onPlayLosses : Z;
  onPlayDraws : Z;
  onDrawWins : Z;
  onDrawLosses : Z;
  onDrawDraws : Z
}.

Definition zero : t := mk 0 0 0 0 0 0 0 0 0.

(** [x++] for each counter. *)
Definition incr_playerWins (c : t) : t :=
  mk (playerWins c + 1) (playerLosses c) (playerDraws c) (onPlayWins c)
     (onPlayLosses c) (onPlayDraws c) (onDrawWins c) (onDrawLosses c) (onDrawDraws c).
Definition incr_playerLosses (c : t) : t :=
  mk (playerWins c) (playerLosses c + 1) (playerDraws c) (onPlayWins c)
     (onPlayLosses c) (onPlayDraws c) (onDrawWins c) (onDrawLosses c) (onDrawDraws c).
Definition incr_playerDraws (c : t) : t :=
  mk (playerWins c) (playerLosses c) (playerDraws c + 1) (onPlayWins c)
     (onPlayLosses c) (onPlayDraws c) (onDrawWins c) (onDrawLosses c) (onDrawDraws c).
Definition incr_onPlayWins (c : t) : t :=
  mk (playerWins c) (playerLosses c) (playerDraws c) (onPlayWins c + 1)
     (onPlayLosses c) (onPlayDraws c) (onDrawWins c) (onDrawLosses c) (onDrawDraws c).
Definition incr_onPlayLosses (c : t) : t :=
  mk (playerWins c) (playerLosses c) (playerDraws c) (onPlayWins c)
     (onPlayLosses c + 1) (onPlayDraws c) (onDrawWins c) (onDrawLosses c) (onDrawDraws c).
Definition incr_onPlayDraws (c : t) : t :=
  mk (playerWins c) (playerLosses c) (playerDraws c) (onPlayWins c)
     (onPlayLosses c) (onPlayDraws c + 1) (onDrawWins c) (onDrawLosses c) (onDrawDraws c).
Definition incr_onDrawWins (c : t) : t :=
  mk (playerWins c) (playerLosses c) (playerDraws c) (onPlayWins c)
     (onPlayLosses c) (onPlayDraws c) (onDrawWins c + 1) (onDrawLosses c) (onDrawDraws c).
Definition incr_onDrawLosses (c : t) : t :=
  mk (playerWins c) (playerLosses c) (playerDraws c) (onPlayWins c)
     (onPlayLosses c) (onPlayDraws c) (onDrawWins c) (onDrawLosses c + 1) (onDrawDraws c).
Definition incr_onDrawDraws (c : t) : t :=
  mk (playerWins c) (playerLosses c) (playerDraws c) (onPlayWins c)
     (onPlayLosses c) (onPlayDraws c) (onDrawWins c) (onDrawLosses c) (onDrawDraws c + 1).

End Tally.

(** The element type of [fetchedEvent.rounds]. *)
Record Round : Type := mkRound {
  id : string;
  opponentInkColors : list string;
  games : list Game;
  createdAt : Z;
  outcome : Outcome;
  roundWins : Z;
  roundLosses : Z;
  roundDraws : Z;
  onPlayWins : Z;
  onPlayLosses : Z;
  onPlayDraws : Z;
  onDrawWins : Z;
  onDrawLosses : Z;
  onDrawDraws : Z
}.

Module Acc.

(** The accumulators of the statistics loop.  [DeckList] declares the same
    ones except [gamesLost] and [gamesDrawn]. *)
Record t : Type := mk {
  totalMatches : Z;
  matchesWon : Z;
  matchesLost : Z;
  matchesDrawn : Z;
  totalGames : Z;
  gamesWon : Z;
  gamesLost : Z;
  gamesDrawn : Z;
  gamesPlayedOnPlay : Z;
  gamesWonOnPlay : Z;
  gamesPlayedOnDraw : Z;
  gamesWonOnDraw : Z
}.

Definition zero : t := mk 0 0 0 0 0 0 0 0 0 0 0 0.

(** Field-wise sum. *)
Definition plus (a b : t) : t :=
  mk (totalMatches a + totalMatches b) (matchesWon a + matchesWon b)
     (matchesLost a + matchesLost b) (matchesDrawn a + matchesDrawn b)
     (totalGames a + totalGames b) (gamesWon a + gamesWon b)
     (gamesLost a + gamesLost b) (gamesDrawn a + gamesDrawn b)
     (gamesPlayedOnPlay a + gamesPlayedOnPlay b) (gamesWonOnPlay a + gamesWonOnPlay b)
     (gamesPlayedOnDraw a + gamesPlayedOnDraw b) (gamesWonOnDraw a + gamesWonOnDraw b).

(** [x++] for each accumulator. *)
Definition incr_totalMatches (a : t) : t := plus a (mk 1 0 0 0 0 0 0 0 0 0 0 0).
Definition incr_matchesWon (a : t) : t := plus a (mk 0 1 0 0 0 0 0 0 0 0 0 0).
Definition incr_matchesLost (a : t) : t := plus a (mk 0 0 1 0 0 0 0 0 0 0 0 0).
Definition incr_matchesDrawn (a : t) : t := plus a (mk 0 0 0 1 0 0 0 0 0 0 0 0).
Definition incr_totalGames (a : t) : t := plus a (mk 0 0 0 0 1 0 0 0 0 0 0 0).
Definition incr_gamesWon (a : t) : t := plus a (mk 0 0 0 0 0 1 0 0 0 0 0 0).
Definition incr_gamesLost (a : t) : t := plus a (mk 0 0 0 0 0 0 1 0 0 0 0 0).
Definition incr_gamesDrawn (a : t) : t := plus a (mk 0 0 0 0 0 0 0 1 0 0 0 0).
Definition incr_gamesPlayedOnPlay (a : t) : t := plus a (mk 0 0 0 0 0 0 0 0 1 0 0 0).
Definition incr_gamesWonOnPlay (a : t) : t := plus a (mk 0 0 0 0 0 0 0 0 0 1 0 0).
Definition incr_gamesPlayedOnDraw (a : t) : t := plus a (mk 0 0 0 0 0 0 0 0 0 0 1 0).
Definition incr_gamesWonOnDraw (a : t) : t := plus a (mk 0 0 0 0 0 0 0 0 0 0 0 1).

End Acc.

Module Stats.

(** The statistics fields the event view stores on [fetchedEvent]. *)
Record t : Type := mk {
  matchWinRate : number;
  gameWinRate : number;
  onPlayGameWinRate : number;
  onDrawGameWinRate : number;
  gamesWon : Z;
  gamesLost : Z;
  gamesDrawn : Z;
  matchesWon : Z;
  matchesLost : Z;
  matchesDrawn : Z
}.

End Stats.

Module EventDetail.

(** Body of [roundGames.forEach(game => ...)], lines 147-160. *)
Definition tallyGame (c : Tally.t) (game : Game) : Tally.t :=
  let c :=
    if onThePlay game then
      if resultIs "win" game then Tally.incr_onPlayWins c
      else if resultIs "loss" game then Tally.incr_onPlayLosses c
      else if resultIs "draw" game then Tally.incr_onPlayDraws c
      else c
    else
      if resultIs "win" game then Tally.incr_onDrawWins c
      else if resultIs "loss" game then Tally.incr_onDrawLosses c
      else if resultIs "draw" game then Tally.incr_onDrawDraws c
      else c in
  if resultIs "win" game then Tally.incr_playerWins c
  else if resultIs "loss" game then Tally.incr_playerLosses c
  else if resultIs "draw" game then Tally.incr_playerDraws c
  else c.

(** The whole [forEach] over the games of a round. *)
Definition tallyGames (roundGames : list Game) : Tally.t :=
  fold_left tallyGame roundGames Tally.zero.

(** Lines 162-169: the outcome from the two totals. *)
Definition outcomeOf (playerWins playerLosses : Z) : Outcome :=
  if playerWins >? playerLosses then Win
  else if playerLosses >? playerWins then Loss
  else Draw.

(** The callback of [roundsSnapshot.docs.map], lines 134-187. *)
Definition deriveRound (roundDoc : string * RoundDoc) : Round :=
  let roundGames := doc_games (snd roundDoc) in
  let c := tallyGames roundGames in
  {| id := fst roundDoc;
     opponentInkColors := doc_opponentInkColors (snd roundDoc);
     games := roundGames;
     createdAt := doc_createdAt (snd roundDoc);
     outcome := outcomeOf (Tally.playerWins c) (Tally.playerLosses c);
     roundWins := Tally.playerWins c;
     roundLosses := Tally.playerLosses c;
     roundDraws := Tally.playerDraws c;
     onPlayWins := Tally.onPlayWins c;
     onPlayLosses := Tally.onPlayLosses c;
     onPlayDraws := Tally.onPlayDraws c;
     onDrawWins := Tally.onDrawWins c;
     onDrawLosses := Tally.onDrawLosses c;
     onDrawDraws := Tally.onDrawDraws c |}.

(** Body of [round.games.forEach(game => ...)], lines 209-232.  The state
    is the accumulators and the two locals [playerWins], [playerLosses] of
    the enclosing round. *)
Definition statsGame (s : Acc.t * Z * Z) (game : Game) : Acc.t * Z * Z :=
  let '(a, playerWins, playerLosses) := s in
  let a := Acc.incr_totalGames a in
  let '(a, playerWins, playerLosses) :=
    if resultIs "win" game then (Acc.incr_gamesWon a, playerWins + 1, playerLosses)
    else if resultIs "loss" game then (Acc.incr_gamesLost a, playerWins, playerLosses + 1)
    else if resultIs "draw" game then (Acc.incr_gamesDrawn a, playerWins, playerLosses)
    else (a, playerWins, playerLosses) in
  let a :=
    if onThePlay game then
      let a := Acc.incr_gamesPlayedOnPlay a in
      if resultIs "win" game then Acc.incr_gamesWonOnPlay a else a
    else
      let a := Acc.incr_gamesPlayedOnDraw a in
      if resultIs "win" game then Acc.incr_gamesWonOnDraw a else a in
  (a, playerWins, playerLosses).

(** Body of [fetchedEvent.rounds?.forEach(round => ...)], lines 204-241. *)
Definition statsRound (a : Acc.t) (round : Round) : Acc.t :=
  let a := Acc.incr_totalMatches a in
  let '(a, playerWins, playerLosses) := fold_left statsGame (games round) (a, 0, 0) in
  if playerWins >? playerLosses then Acc.incr_matchesWon a
  else if playerLosses >? playerWins then Acc.incr_matchesLost a
  else Acc.incr_matchesDrawn a.

(** The accumulators after the loop over all rounds. *)
Definition totals (rounds : list Round) : Acc.t :=
  fold_left statsRound rounds Acc.zero.

(** The four constants of lines 243-246. *)
Definition matchWinRate (a : Acc.t) : number :=
  rate (Acc.matchesWon a) (Acc.totalMatches a).
Definition gameWinRate (a : Acc.t) : number :=
  rate (Acc.gamesWon a) (Acc.totalGames a).
Definition onPlayGameWinRate (a : Acc.t) : number :=
  rate (Acc.gamesWonOnPlay a) (Acc.gamesPlayedOnPlay a).
Definition onDrawGameWinRate (a : Acc.t) : number :=
  rate (Acc.gamesWonOnDraw a) (Acc.gamesPlayedOnDraw a).

(** Lines 189-257: the statistics fold of the event view. *)
Definition computeStats (rounds : list Round) : Stats.t :=
  let a := totals rounds in
  {| Stats.matchWinRate := toFixed2 (matchWinRate a);
     Stats.gameWinRate := toFixed2 (gameWinRate a);
     Stats.onPlayGameWinRate := toFixed2 (onPlayGameWinRate a);
     Stats.onDrawGameWinRate := toFixed2 (onDrawGameWinRate a);
     Stats.gamesWon := Acc.gamesWon a;
     Stats.gamesLost := Acc.gamesLost a;
     Stats.gamesDrawn := Acc.gamesDrawn a;
     Stats.matchesWon := Acc.matchesWon a;
     Stats.matchesLost := Acc.matchesLost a;
     Stats.matchesDrawn := Acc.matchesDrawn a |}.

End EventDetail.

(** ** DeckList.tsx *)

Module DeckStats.

(** The statistics fields of a [Deck] pushed to [fetchedDecks]. *)
Record t : Type := mk {
  matchWinRate : number;
  gameWinRate : number;
  onPlayGameWinRate : number;
  onDrawGameWinRate : number;
  matchesLost : Z;
  matchesDrawn : Z
}.

End DeckStats.

Module DeckList.

(** [eventDoc.data().userDeckId === deckId], false when the field is
    absent. *)
Definition isRelevant (deckId : string) (eventDoc : string * EventDoc) : bool :=
  match userDeckId (snd eventDoc) with
  | Some d => String.eqb d deckId
  | None => false
  end.

(** Line 84. *)
Definition relevantEvents (deckId : string) (eventsSnapshot : list (string * EventDoc))
  : list (string * EventDoc) :=
  List.filter (isRelevant deckId) eventsSnapshot.

(** Body of [roundGames.forEach], lines 98-101, on the two locals. *)
Definition countGame (s : Z * Z) (game : Game) : Z * Z :=
  let '(playerWins, playerLosses) := s in
  if resultIs "win" game then (playerWins + 1, playerLosses)
  else if resultIs "loss" game then (playerWins, playerLosses + 1)
  else (playerWins, playerLosses).

(** Body of [for (const game of roundGames)], lines 111-128. *)
Definition statsGame (a : Acc.t) (game : Game) : Acc.t :=
  let a := Acc.incr_totalGames a in
  let a := if resultIs "win" game then Acc.incr_gamesWon a else a in
  if onThePlay game then
    let a := Acc.incr_gamesPlayedOnPlay a in
    if resultIs "win" game then Acc.incr_gamesWonOnPlay a else a
  else
    let a := Acc.incr_gamesPlayedOnDraw a in
    if resultIs "win" game then Acc.incr_gamesWonOnDraw a else a.

(** Body of [for (const roundDoc of roundsSnapshot.docs)], lines 92-129. *)
Definition statsRound (a : Acc.t) (roundDoc : string * RoundDoc) : Acc.t :=
  let a := Acc.incr_totalMatches a in
  let roundGames := doc_games (snd roundDoc) in
  let '(playerWins, playerLosses) := fold_left countGame roundGames (0, 0) in
  let a :=
    if playerWins >? playerLosses then Acc.incr_matchesWon a
    else if playerLosses >? playerWins then Acc.incr_matchesLost a
    else Acc.incr_matchesDrawn a in
  fold_left statsGame roundGames a.

(** Body of [for (const eventDoc of relevantEvents)], lines 87-130;
    [roundsSnapshot] gives the documents fetched for an event id. *)
Definition statsEvent (roundsSnapshot : string -> list (string * RoundDoc))
  (a : Acc.t) (eventDoc : string * EventDoc) : Acc.t :=
  fold_left statsRound (roundsSnapshot (fst eventDoc)) a.

(** The accumulators after the loop over the relevant events. *)
Definition totals (deckId : string) (eventsSnapshot : list (string * EventDoc))
  (roundsSnapshot : string -> list (string * RoundDoc)) : Acc.t :=
  fold_left (statsEvent roundsSnapshot) (relevantEvents deckId eventsSnapshot) Acc.zero.

(** The four constants of lines 132-135. *)
Definition matchWinRate (a : Acc.t) : number :=
  rate (Acc.matchesWon a) (Acc.totalMatches a).
Definition gameWinRate (a : Acc.t) : number :=
  rate (Acc.gamesWon a) (Acc.totalGames a).
Definition onPlayGameWinRate (a : Acc.t) : number :=
  rate (Acc.gamesWonOnPlay a) (Acc.gamesPlayedOnPlay a).
Definition onDrawGameWinRate (a : Acc.t) : number :=
  rate (Acc.gamesWonOnDraw a) (Acc.gamesPlayedOnDraw a).

(** Lines 59-151: the statistics of one deck from the fetched snapshots. *)
Definition deckStats (deckId : string) (eventsSnapshot : list (string * EventDoc))
  (roundsSnapshot : string -> list (string * RoundDoc)) : DeckStats.t :=
  let a := totals deckId eventsSnapshot roundsSnapshot in
  {| DeckStats.matchWinRate := toFixed2 (matchWinRate a);
     DeckStats.gameWinRate := toFixed2 (gameWinRate a);
     DeckStats.onPlayGameWinRate := toFixed2 (onPlayGameWinRate a);
     DeckStats.onDrawGameWinRate := toFixed2 (onDrawGameWinRate a);
     DeckStats.matchesLost := Acc.matchesLost a;
     DeckStats.matchesDrawn := Acc.matchesDrawn a |}.

(** The same on the database: both snapshots come from [getDocs]. *)
Definition fetchDeckStats (db : Firestore) (deckId : string) : DeckStats.t :=
  deckStats deckId (map_to_list (events db)) (getRoundDocs db).

End DeckList.

(** ** Writes to the database *)

(** How an awaited call ends. *)
Inductive completion (A : Type) : Type :=
| Return (a : A)
| Throw (message : string).
Arguments Return {A} a.
Arguments Throw {A} message.

(** A call that may write to the database and may throw.  What was written
    before a throw stays written. *)
Definition Fs (A : Type) : Type := Firestore -> Firestore * completion A.

Definition ret {A : Type} (a : A) : Fs A := fun db => (db, Return a).

Definition bind {A B : Type} (m : Fs A) (k : A -> Fs B) : Fs B :=
  fun db =>
    match m db with
    | (db', Return a) => k a db'
    | (db', Throw msg) => (db', Throw msg)
    end.

Notation "'await' m ;; k" := (bind m (fun _ => k))
  (at level 100, m at next level, right associativity).

(** The message of the error [updateDoc] throws on a missing document. *)
Definition notFound : string := "No document to update".

(** [updateDoc(roundDocRef, { opponentInkColors, games })]: sets the two
    fields of an existing document. *)
Definition updateRound (eventId roundId : string) (inks : list string) (gs : list Game)
  : Fs unit :=
  fun db =>
    match rounds db !! (eventId, roundId) with
    | Some d =>
        (mkFirestore (events db)
           (<[(eventId, roundId) := mkRoundDoc inks gs (doc_createdAt d)]> (rounds db)),
         Return tt)
    | None => (db, Throw notFound)
    end.

(** The field values [{ wins: increment(w), losses: increment(l),
    draws: increment(d) }] applied to an event document. *)
Definition increment (e : EventDoc) (w l d : Z) : EventDoc :=
  mkEventDoc (name e) (type e) (userDeckId e) (format e)
             (wins e + w) (losses e + l) (draws e + d).

(** [updateDoc(eventRef, { wins: increment(w), losses: increment(l),
    draws: increment(d) })] *)
Definition incrementCounters (eventId : string) (w l d : Z) : Fs unit :=
  fun db =>
    match events db !! eventId with
    | Some e =>
        (mkFirestore (<[eventId := increment e w l d]> (events db)) (rounds db), Return tt)
    | None => (db, Throw notFound)
    end.

(** [addDoc(collection(.../rounds), roundData)] with the id [autoId] the
    client generates for the new document. *)
Definition addRound (eventId autoId : string) (d : RoundDoc) : Fs unit :=
  fun db => (mkFirestore (events db) (<[(eventId, autoId) := d]> (rounds db)), Return tt).

(** [deleteDoc(doc(.../rounds, roundId))]: succeeds also when the document
    does not exist. *)
Definition deleteRound (eventId roundId : string) : Fs unit :=
  fun db => (mkFirestore (events db) (delete (eventId, roundId) (rounds db)), Return tt).

(** What a handler tells the user: a [window.alert], the form's error
    line, or nothing. *)
Inductive Feedback : Type :=
| Alert (message : string)
| SetError (message : string)
| Silent.

(** A JavaScript string used as a condition. *)
Definition truthy (s : option string) : bool :=
  match s with
  | Some s => negb (String.eqb s "")
  | None => false
  end.

(** The three-way count of the write paths: the body of their
    [games.forEach] on the triple of locals. *)
Definition countResult (s : Z * Z * Z) (game : Game) : Z * Z * Z :=
  let '(w, l, d) := s in
  if resultIs "win" game then (w + 1, l, d)
  else if resultIs "loss" game then (w, l + 1, d)
  else if resultIs "draw" game then (w, l, d + 1)
  else (w, l, d).

Definition countResults (gs : list Game) : Z * Z * Z :=
  fold_left countResult gs (0, 0, 0).

Module RoundForm.

(** The props of the form that [handleSubmit] reads. *)
Record Props : Type := mkProps {
  eventId : string;
  roundId : option string;
  roundData : option Round
}.

(** Lines 126-135: the counts of the round as it was loaded into the
    form; zero when no round data was passed. *)
Definition previousCounts (roundData : option Round) : Z * Z * Z :=
  match roundData with
  | Some rd => countResults (games rd)
  | None => (0, 0, 0)
  end.

(** Lines 121-150, the branch of an edit. *)
Definition submitEdit (p : Props) (roundId : string) (opponentInkColors : list string)
  (games : list Game) (current : Z * Z * Z) : Fs string :=
  let '(currentRoundWins, currentRoundLosses, currentRoundDraws) := current in
  let '(previousRoundWins, previousRoundLosses, previousRoundDraws) :=
    previousCounts (roundData p) in
  await updateRound (eventId p) roundId opponentInkColors games ;;
  await incrementCounters (eventId p)
          (currentRoundWins - previousRoundWins)
          (currentRoundLosses - previousRoundLosses)
          (currentRoundDraws - previousRoundDraws) ;;
  ret "Round updated successfully!"%string.

(** Lines 151-168, the branch of a new round. *)
Definition submitNew (p : Props) (now : Z) (autoId : string)
  (opponentInkColors : list string) (games : list Game) (current : Z * Z * Z) : Fs string :=
  let '(currentRoundWins, currentRoundLosses, currentRoundDraws) := current in
  await addRound (eventId p) autoId (mkRoundDoc opponentInkColors games now) ;;
  await incrementCounters (eventId p)
          currentRoundWins currentRoundLosses currentRoundDraws ;;
  ret "Round added successfully!"%string.

(** [handleSubmit], lines 84-179.  [currentUser] is [auth.currentUser],
    [now] is [Timestamp.now()]. *)
Definition handleSubmit (currentUser : option string) (now : Z) (autoId : string)
  (p : Props) (opponentInkColors : list string) (games : list Game)
  (db : Firestore) : Firestore * Feedback :=
  match currentUser with
  | None => (db, SetError "No user logged in.")
  | Some _ =>
      if (length opponentInkColors =? 0)%nat then
        (db, SetError "Please select at least one opponent ink color.")
      else if (length games =? 0)%nat then
        (db, SetError "Please add at least one game result.")
      else
        let current := countResults games in
        let body :=
          if truthy (roundId p) then
            submitEdit p (default ""%string (roundId p)) opponentInkColors games current
          else
            submitNew p now autoId opponentInkColors games current in
        match body db with
        | (db', Return message) => (db', Alert message)
        | (db', Throw message) => (db', SetError message)
        end
  end.

End RoundForm.

Module EventList.

(** [handleDeleteRound], lines 291-329.  [confirmed] is the answer to
    [window.confirm]. *)
Definition handleDeleteRound (currentUser : option string) (confirmed : bool)
  (eventId roundId : string) (games : list Game) (db : Firestore) : Firestore * Feedback :=
  match currentUser with
  | None => (db, Alert "No user logged in.")
  | Some _ =>
      if negb confirmed then (db, Silent)
      else
        let body : Fs string :=
          await deleteRound eventId roundId ;;
          (fun db1 =>
             let '(eventWins, eventLosses, eventDraws) := countResults games in
             (await incrementCounters eventId (- eventWins) (- eventLosses) (- eventDraws) ;;
              ret "Round deleted successfully!"%string) db1) in
        match body db with
        | (db', Return message) => (db', Alert message)
        | (db', Throw message) => (db', Alert ("Error deleting round: " ++ message))
        end
  end.

End EventList.

(** ** Specification vocabulary *)

Definition isWin : Game -> bool := resultIs "win".
Definition isLoss : Game -> bool := resultIs "loss".
Definition isDraw : Game -> bool := resultIs "draw".

(** A result that is one of the three values of the enumeration. *)
Definition validResult (g : Game) : bool := isWin g || isLoss g || isDraw g.

(** A game played first / second that also passes [p]. *)
Definition onPlay (p : Game -> bool) (g : Game) : bool := onThePlay g && p g.
Definition onDraw (p : Game -> bool) (g : Game) : bool := negb (onThePlay g) && p g.

(** The majority rule on a game sequence. *)
Definition majority (gs : list Game) : Outcome :=
  if countGames isWin gs >? countGames isLoss gs then Win
  else if countGames isLoss gs >? countGames isWin gs then Loss
  else Draw.

Definition Outcome_eqb (a b : Outcome) : bool :=
  match a, b with
  | Win, Win | Loss, Loss | Draw, Draw => true
  | _, _ => false
  end.

(** Number of rounds, given by their games, whose majority outcome is [o]. *)
Definition countOutcome (o : Outcome) (gss : list (list Game)) : Z :=
  Z.of_nat (length (List.filter (fun gs => Outcome_eqb (majority gs) o) gss)).

(** The derivation seen as a computation that could throw.  The callback
    contains no [throw] and calls nothing that throws, so it returns on
    every document. *)
Definition deriveRoundCompletion (roundDoc : string * RoundDoc) : completion Round :=
  Return (EventDetail.deriveRound roundDoc).

(** What one game contributes to the accumulators of the event view. *)
Definition gameTotals (g : Game) : Acc.t :=
  Acc.mk 0 0 0 0 1 (Z.b2z (isWin g)) (Z.b2z (isLoss g)) (Z.b2z (isDraw g))
         (Z.b2z (onThePlay g)) (Z.b2z (onPlay isWin g))
         (Z.b2z (negb (onThePlay g))) (Z.b2z (onDraw isWin g)).

(** What the games of one round contribute. *)
Definition gamesTotals (gs : list Game) : Acc.t :=
  Acc.mk 0 0 0 0 (Z.of_nat (length gs))
         (countGames isWin gs) (countGames isLoss gs) (countGames isDraw gs)
         (countGames onThePlay gs) (countGames (onPlay isWin) gs)
         (countGames (fun g => negb (onThePlay g)) gs) (countGames (onDraw isWin) gs).

(** What one round contributes: one match, decided by the majority rule,
    and its games. *)
Definition roundTotals (gs : list Game) : Acc.t :=
  Acc.plus
    (Acc.mk 1 (Z.b2z (Outcome_eqb (majority gs) Win))
              (Z.b2z (Outcome_eqb (majority gs) Loss))
              (Z.b2z (Outcome_eqb (majority gs) Draw)) 0 0 0 0 0 0 0 0)
    (gamesTotals gs).

Definition sumAcc (l : list Acc.t) : Acc.t := fold_right Acc.plus Acc.zero l.

(** The accumulators without the two that [DeckList] does not keep. *)
Definition dropLostDrawn (a : Acc.t) : Acc.t :=
  Acc.mk (Acc.totalMatches a) (Acc.matchesWon a) (Acc.matchesLost a) (Acc.matchesDrawn a)
         (Acc.totalGames a) (Acc.gamesWon a) 0 0
         (Acc.gamesPlayedOnPlay a) (Acc.gamesWonOnPlay a)
         (Acc.gamesPlayedOnDraw a) (Acc.gamesWonOnDraw a).

(** The guarded ratio [n / d * 100] in the arithmetic of doubles, zero
    when the denominator is zero. *)
Definition ratio (n d : Z) : number :=
  if d =? 0 then fromInteger 0
  else PrimFloat.mul (PrimFloat.div (fromInteger n) (fromInteger d)) (fromInteger 100).

(** The games of all rounds of a collection, one after the other. *)
Definition allGames (rounds : list Round) : list Game := concat (map games rounds).

(** The rounds of all events of a deck: the union, over the events whose
    [userDeckId] is the deck's id, of the rounds fetched for the event. *)
Definition deckRounds (deckId : string) (eventsSnapshot : list (string * EventDoc))
  (roundsSnapshot : string -> list (string * RoundDoc)) : list (string * RoundDoc) :=
  concat (map (fun e => roundsSnapshot (fst e))
              (filter (fun e => userDeckId (snd e) = Some deckId) eventsSnapshot)).

(** The accumulators stated on the collection as a whole: the rounds
    counted by majority outcome, and the games of all rounds together. *)
Definition expectedTotals (gss : list (list Game)) : Acc.t :=
  let all := concat gss in
  Acc.mk (Z.of_nat (length gss))
         (countOutcome Win gss) (countOutcome Loss gss) (countOutcome Draw gss)
         (Z.of_nat (length all))
         (countGames isWin all) (countGames isLoss all) (countGames isDraw all)
         (countGames onThePlay all) (countGames (onPlay isWin) all)
         (countGames (fun g => negb (onThePlay g)) all) (countGames (onDraw isWin) all).

(** The four percentages of the event view on a list of fetched rounds. *)
Definition percentages (docs : list (string * RoundDoc)) : number * number * number * number :=
  let s := EventDetail.computeStats (map EventDetail.deriveRound docs) in
  (Stats.matchWinRate s, Stats.gameWinRate s,
   Stats.onPlayGameWinRate s, Stats.onDrawGameWinRate s).

(** Rounds of one game each, for the examples: won, lost. *)
Definition wonRound (i : string) : string * RoundDoc :=
  (i, mkRoundDoc ["Amber"%string] [mkGame "win" true] 0).
Definition lostRound (i : string) : string * RoundDoc :=
  (i, mkRoundDoc ["Amber"%string] [mkGame "loss" false] 0).

(** Two events of the deck ["d1"] and one event of another deck. *)
Definition exampleEvents : list (string * EventDoc) :=
  [ ("e1"%string, mkEventDoc "Store championship" "Tournament" (Some "d1"%string) "Core" 0 0 0);
    ("e2"%string, mkEventDoc "Casual night" "Playtest" (Some "d1"%string) "Core" 0 0 0);
    ("e3"%string, mkEventDoc "League" "Tournament" (Some "d2"%string) "Core" 0 0 0) ].

(** Three rounds in the first event (two won), two in the second (one
    won), one in the event of the other deck. *)
Definition exampleRounds (eventId : string) : list (string * RoundDoc) :=
  if String.eqb eventId "e1" then [wonRound "r1"; wonRound "r2"; lostRound "r3"]
  else if String.eqb eventId "e2" then [wonRound "r4"; lostRound "r5"]
  else [lostRound "r6"].

(** Two ways to fill the same two events that give each event the same
    percentages. *)
Definition oneWinEach (eventId : string) : list (string * RoundDoc) :=
  if String.eqb eventId "e1" then [wonRound "r1"]
  else if String.eqb eventId "e2" then [lostRound "r2"]
  else [].
Definition twoWinsFirst (eventId : string) : list (string * RoundDoc) :=
  if String.eqb eventId "e1" then [wonRound "r1"; wonRound "r3"]
  else if String.eqb eventId "e2" then [lostRound "r2"]
  else [].

(** *** The stored counters *)

(** A change of the rounds of an event, as the user interface offers it:
    a new round, an edit of a round from the round data loaded into the
    form, the deletion of a round given its games. *)
Inductive Mutation : Type :=
| AddRound (opponentInkColors : list string) (games : list Game)
| EditRound (roundId : string) (roundData : option Round)
            (opponentInkColors : list string) (games : list Game)
| DeleteRound (roundId : string) (games : list Game).

(** The handler call behind each mutation; the deletion is confirmed. *)
Definition perform (currentUser : option string) (now : Z) (autoId eventId : string)
  (m : Mutation) (db : Firestore) : Firestore * Feedback :=
  match m with
  | AddRound inks gs =>
      RoundForm.handleSubmit currentUser now autoId
        (RoundForm.mkProps eventId None None) inks gs db
  | EditRound roundId roundData inks gs =>
      RoundForm.handleSubmit currentUser now autoId
        (RoundForm.mkProps eventId (Some roundId) roundData) inks gs db
  | DeleteRound roundId gs =>
      EventList.handleDeleteRound currentUser true eventId roundId gs db
  end.

(** The feedback of a mutation that went through. *)
Definition completed (m : Mutation) : Feedback :=
  match m with
  | AddRound _ _ => Alert "Round added successfully!"
  | EditRound _ _ _ _ => Alert "Round updated successfully!"
  | DeleteRound _ _ => Alert "Round deleted successfully!"
  end.

(** The user interface is up to date with the database: the id of a new
    round is unused, the round data of an edit and the games of a deletion
    are those of the stored round. *)
Definition upToDate (autoId eventId : string) (m : Mutation) (db : Firestore) : Prop :=
  match m with
  | AddRound _ _ => rounds db !! (eventId, autoId) = None
  | EditRound roundId roundData _ _ =>
      exists d r, rounds db !! (eventId, roundId) = Some d /\
                  roundData = Some r /\ games r = doc_games d
  | DeleteRound roundId gs =>
      exists d, rounds db !! (eventId, roundId) = Some d /\ gs = doc_games d
  end.

(** Sum of a measure of the documents of a map of rounds. *)
Definition weigh (f : RoundDoc -> Z) (m : gmap (string * string) RoundDoc) : Z :=
  sumZ (map (fun kv => f (snd kv)) (map_to_list m)).

(** Number of games passing [p] in the rounds stored under an event. *)
Definition gameTotal (p : Game -> bool) (db : Firestore) (eventId : string) : Z :=
  sumZ (map (fun rd => countGames p (doc_games (snd rd))) (getRoundDocs db eventId)).

(** Number of rounds stored under an event whose derived outcome is [o]. *)
Definition outcomeTotal (o : Outcome) (db : Firestore) (eventId : string) : Z :=
  Z.of_nat (length (List.filter (fun r => Outcome_eqb (outcome r) o)
                                (map EventDetail.deriveRound (getRoundDocs db eventId)))).

(** The stored counters of an event count its rounds by outcome. *)
Definition countersCountRounds (db : Firestore) (eventId : string) : Prop :=
  exists e, events db !! eventId = Some e /\
            wins e = outcomeTotal Win db eventId /\
            losses e = outcomeTotal Loss db eventId /\
            draws e = outcomeTotal Draw db eventId.

(** The stored counters of an event count the games of its rounds by
    result. *)
Definition countersCountGames (db : Firestore) (eventId : string) : Prop :=
  exists e, events db !! eventId = Some e /\
            wins e = gameTotal isWin db eventId /\
            losses e = gameTotal isLoss db eventId /\
            draws e = gameTotal isDraw db eventId.

(** The games of the round data loaded into the form, none when no round
    data was passed. *)
Definition loadedGames (roundData : option Round) : list Game :=
  match roundData with
  | Some r => games r
  | None => []
  end.

(** An event with the given counters and no other data of interest. *)
Definition eventWith (w l d : Z) : EventDoc :=
  mkEventDoc "Store championship" "Tournament" (Some "d1"%string) "Core" w l d.

(** A database with one event ["e1"], its counters at zero, and no round. *)
Definition freshEvent : Firestore :=
  mkFirestore {[ "e1"%string := eventWith 0 0 0 ]} ∅.

(** A database with one event ["e1"] with the given counters and one round
    ["r1"] of two won games. *)
Definition oneWonRound (w l d : Z) : Firestore :=
  mkFirestore {[ "e1"%string := eventWith w l d ]}
              {[ ("e1"%string, "r1"%string) :=
                   mkRoundDoc ["Amber"%string] [mkGame "win" true; mkGame "win" false] 7 ]}.

(** That round as the event list shows it and passes it to the form. *)
Definition shownRound : Round :=
  EventDetail.deriveRound
    ("r1"%string, mkRoundDoc ["Amber"%string] [mkGame "win" true; mkGame "win" false] 7).

(** ** The state of the round form (RoundForm.tsx, lines 27-82) *)

(** Insertion of [x] before the first element it does not exceed. *)
Fixpoint insertBy {A : Type} (leb : A -> A -> bool) (x : A) (l : list A) : list A :=
  match l with
  | [] => [x]
  | y :: l' => if leb x y then x :: l else y :: insertBy leb x l'
  end.

(** The list in ascending order of [leb]. *)
Definition sortBy {A : Type} (leb : A -> A -> bool) (l : list A) : list A :=
  fold_right (insertBy leb) [] l.

(** [array.sort()] on strings: ascending by code unit.  On a total order
    whose equivalent elements are equal the sorted array does not depend
    on the sorting algorithm. *)
Definition jsSort (l : list string) : list string := sortBy String.leb l.

(** [array.includes(x)] *)
Definition includes (x : string) (l : list string) : bool :=
  existsb (String.eqb x) l.

(** [array.filter((x, i) => keep x i)], the index counted from [i]. *)
Fixpoint filterWithIndex {A : Type} (keep : A -> nat -> bool) (i : nat) (l : list A)
  : list A :=
  match l with
  | [] => []
  | x :: l' =>
      if keep x i then x :: filterWithIndex keep (S i) l'
      else filterWithIndex keep (S i) l'
  end.

(** The field and the value of a call [handleGameChange(index, field,
    value)]. *)
Inductive GameField : Type :=
| FieldResult (value : string)
| FieldOnThePlay (value : bool).

(** [{ ...game, [field]: value }] *)
Definition setField (game : Game) (f : GameField) : Game :=
  match f with
  | FieldResult value => mkGame value (onThePlay game)
  | FieldOnThePlay value => mkGame (result game) value
  end.

Module Form.

(** The three state variables of the form that the handlers write. *)
Record t : Type := mk {
  st_opponentInkColors : list string;
  st_games : list Game;
  st_error : option string
}.

(** The state of a freshly mounted form. *)
Definition empty : t := mk [] [] None.

(** The effect on [roundData], lines 33-43. *)
Definition loadRoundData (roundData : option Round) (st : t) : t :=
  match roundData with
  | Some rd => mk (opponentInkColors rd) (games rd) (st_error st)
  | None => mk [] [] (st_error st)
  end.

(** [handleAddGame], lines 45-53.  The message is only built for a
    tournament, whose maximum is 3. *)
Definition handleAddGame (eventType : string) (st : t) : t :=
  let underMax :=
    if String.eqb eventType "Tournament" then (length (st_games st) <? 3)%nat else true in
  if underMax then
    mk (st_opponentInkColors st) (st_games st ++ [mkGame "win" true]) None
  else
    mk (st_opponentInkColors st) (st_games st)
       (Some ("Maximum of 3 games per round for " ++ eventType ++ " events.")%string).

(** [handleGameChange], lines 55-59, for the index of a rendered row.  An
    index past the end, which no row has, would leave a hole in the array
    and is not a state of this model. *)
Definition handleGameChange (index : nat) (f : GameField) (st : t) : option t :=
  match st_games st !! index with
  | Some game =>
      Some (mk (st_opponentInkColors st) (<[index := setField game f]> (st_games st))
               (st_error st))
  | None => None
  end.

(** [handleRemoveGame], lines 61-64. *)
Definition handleRemoveGame (index : nat) (st : t) : t :=
  mk (st_opponentInkColors st)
     (filterWithIndex (fun _ i => negb (Nat.eqb i index)) 0 (st_games st))
     None.

(** [handleInkColorToggle], lines 66-82. *)
Definition handleInkColorToggle (inkName : string) (st : t) : t :=
  let prevColors := st_opponentInkColors st in
  if includes inkName prevColors then
    mk (jsSort (List.filter (fun color => negb (String.eqb color inkName)) prevColors))
       (st_games st) None
  else if (length prevColors <? 2)%nat then
    mk (jsSort (prevColors ++ [inkName])) (st_games st) None
  else
    mk prevColors (st_games st) (Some "You can select a maximum of two ink colors.").

(** What the user can do on the form before submitting. *)
Inductive Action : Type :=
| AddGame
| ChangeGame (index : nat) (f : GameField)
| RemoveGame (index : nat)
| ToggleInk (inkName : string).

Definition act (eventType : string) (a : Action) (st : t) : option t :=
  match a with
  | AddGame => Some (handleAddGame eventType st)
  | ChangeGame index f => handleGameChange index f st
  | RemoveGame index => Some (handleRemoveGame index st)
  | ToggleInk inkName => Some (handleInkColorToggle inkName st)
  end.

(** A sequence of actions, each on the state the previous one left. *)
Fixpoint run (eventType : string) (actions : list Action) (st : t) : option t :=
  match actions with
  | [] => Some st
  | a :: rest =>
      match act eventType a st with
      | Some st' => run eventType rest st'
      | None => None
      end
  end.

End Form.

(** The limits the form keeps: at most three games in a tournament, at
    most two ink colours, none of them twice. *)
Definition withinLimits (eventType : string) (st : Form.t) : Prop :=
  (eventType = "Tournament"%string -> (length (Form.st_games st) <= 3)%nat) /\
  (length (Form.st_opponentInkColors st) <= 2)%nat /\
  NoDup (Form.st_opponentInkColors st).

(** Ascending in the order of [jsSort]. *)
Definition ascending (l : list string) : Prop :=
  StronglySorted (fun a b => String.leb a b = true) l.

(** ** DeckForm.tsx *)

Module DeckForm.

(** [handleInkColorToggle], lines 33-49, on the selected colours and the
    error line. *)
Definition handleInkColorToggle (inkName : string) (st : list string * option string)
  : list string * option string :=
  let prevColors := fst st in
  if includes inkName prevColors then
    (jsSort (List.filter (fun color => negb (String.eqb color inkName)) prevColors), None)
  else if (length prevColors <? 2)%nat then
    (prevColors, Some "You can select a maximum of two ink colors."%string)
  else
    (jsSort (prevColors ++ [inkName]), None).

(** The selection after a sequence of toggles. *)
Definition toggleAll (inkNames : list string) (st : list string * option string)
  : list string * option string :=
  fold_left (fun st inkName => handleInkColorToggle inkName st) inkNames st.

(** The document the form adds to the collection [decks]. *)
Record DeckData : Type := mkDeckData {
  deck_name : string;
  deck_inkColors : list string;
  deck_archetypes : list string;
  deck_format : string;
  deck_ownerId : string;
  deck_createdAt : Z
}.

(** [handleSubmit], lines 51-102, on the collection [decks].  [blank] is
    the test [name.trim() === ''], [autoId] the id of the new document. *)
Definition handleSubmit (blank : string -> bool) (currentUser : option string) (now : Z)
  (autoId : string) (deckName : string) (selectedInkColors archetypes : list string)
  (deckFormat : string) (decks : gmap string DeckData) : gmap string DeckData * Feedback :=
  match currentUser with
  | None => (decks, SetError "No user logged in.")
  | Some userUid =>
      if blank deckName then (decks, SetError "Deck name cannot be empty.")
      else if (length selectedInkColors =? 0)%nat then
        (decks, SetError "Please select at least one ink color.")
      else
        (<[autoId := mkDeckData deckName selectedInkColors archetypes deckFormat userUid now]>
           decks,
         Alert "Deck created successfully!")
  end.

End DeckForm.

(** ** firebase.ts *)

Module Firebase.

(** The fields [updateEvent] receives. *)
Record EventData : Type := mkEventData {
  ed_name : string;
  ed_type : string;
  ed_userDeckId : string;
  ed_userDeckName : option string;
  ed_startDate : Z;
  ed_format : string
}.

(** [updateEvent], lines 86-98: sets the fields of [eventData] on an
    existing event document.  Of these the event documents of this model
    hold [name], [type], [userDeckId] and [format]. *)
Definition updateEvent (currentUser : option string) (eventId : string)
  (eventData : EventData) : Fs unit :=
  fun db =>
    match currentUser with
    | None => (db, Throw "No user logged in.")
    | Some _ =>
        match events db !! eventId with
        | Some e =>
            (mkFirestore
               (<[eventId := mkEventDoc (ed_name eventData) (ed_type eventData)
                               (Some (ed_userDeckId eventData)) (ed_format eventData)
                               (wins e) (losses e) (draws e)]> (events db))
               (rounds db),
             Return tt)
        | None => (db, Throw notFound)
        end
    end.

(** [deleteEvent], lines 100-122: a batch deletes every round fetched
    from the event's subcollection, then the event document is deleted. *)
Definition deleteEvent (currentUser : option string) (eventId : string) : Fs unit :=
  fun db =>
    match currentUser with
    | None => (db, Throw "No user logged in.")
    | Some _ =>
        let roundsSnapshot := getRoundDocs db eventId in
        let afterBatch :=
          fold_left (fun R roundDoc => delete (eventId, fst roundDoc) R)
                    roundsSnapshot (rounds db) in
        (mkFirestore (delete eventId (events db)) afterBatch, Return tt)
    end.

End Firebase.

(** ** EventDetail.tsx, the whole of [fetchEventDetails] *)

Module EventView.

(** The [Event] the view stores with [setEvent]. *)
Record FetchedEvent : Type := mkFetchedEvent {
  fe_id : string;
  fe_name : string;
  fe_type : string;
  fe_userDeckId : option string;
  fe_userDeckName : string;
  fe_userDeckInkColors : list string;
  fe_format : string;
  fe_wins : Z;
  fe_losses : Z;
  fe_draws : Z;
  fe_rounds : list Round;
  fe_stats : Stats.t
}.

(** The two state variables [fetchEventDetails] writes. *)
Record t : Type := mk {
  v_event : option FetchedEvent;
  v_error : option string
}.

(** The order of [orderBy('createdAt', 'asc')]: by [createdAt], documents
    with the same [createdAt] by id. *)
Definition createdBefore (a b : string * RoundDoc) : bool :=
  (doc_createdAt (snd a) <? doc_createdAt (snd b))
  || ((doc_createdAt (snd a) =? doc_createdAt (snd b)) && String.leb (fst a) (fst b)).

(** [getDocs(query(roundsCollectionRef, orderBy('createdAt', 'asc')))] *)
Definition queryRounds (db : Firestore) (eventId : string) : list (string * RoundDoc) :=
  sortBy createdBefore (getRoundDocs db eventId).

(** A value thrown inside the [try] block of lines 77-259: an [Error]
    with its message, or any other value. *)
Inductive Exception : Type :=
| Error (message : string)
| NotAnError.

(** The message the [catch] of lines 260-266 sets. *)
Definition caught (err : Exception) : string :=
  match err with
  | Error message => message
  | NotAnError => "An unknown error occurred while fetching event details."%string
  end.

(** What the reads of the [try] block throw, if anything: [eventRead] by
    reading the event document (line 80), [laterRead] by a step after it
    (a conversion of a stored date, the rounds query of line 133). *)
Record Thrown : Type := mkThrown {
  eventRead : option Exception;
  laterRead : option Exception
}.

(** [fetchEventDetails], lines 68-270.  [deckDetails] stands for lines
    102-128, which read the deck of the event: it gives the deck's name
    and ink colours to show and the error message set when reading the
    deck fails.  [setEvent] is the last statement of the [try] block, so
    a value thrown anywhere before it leaves the event unset, and the
    message of the [catch] replaces the one set for the deck.  The
    component starts with no event and no error (lines 57-59). *)
Definition fetchEventDetails (currentUser : option string) (eventId : option string)
  (deckDetails : EventDoc -> string * list string * option string)
  (thrown : Thrown) (db : Firestore) : t :=
  match currentUser with
  | None => mk None (Some "No user logged in or event ID provided."%string)
  | Some _ =>
      if negb (truthy eventId) then
        mk None (Some "No user logged in or event ID provided."%string)
      else
        let eid := default ""%string eventId in
        match eventRead thrown with
        | Some err => mk None (Some (caught err))
        | None =>
            match events db !! eid with
            | None => mk None (Some "Event not found."%string)
            | Some eventData =>
                let '(deckName, deckInks, deckError) := deckDetails eventData in
                let fetchedRounds := map EventDetail.deriveRound (queryRounds db eid) in
                match laterRead thrown with
                | Some err => mk None (Some (caught err))
                | None =>
                    mk (Some (mkFetchedEvent eid (name eventData) (type eventData)
                                (userDeckId eventData) deckName deckInks (format eventData)
                                (wins eventData) (losses eventData) (draws eventData)
                                fetchedRounds (EventDetail.computeStats fetchedRounds)))
                       deckError
                end
            end
        end
  end.



End EventView.

(** ** Vocabulary of the further properties *)

(** Every stored round has at least one game and one opponent ink
    colour. *)
Definition roundsComplete (db : Firestore) : Prop :=
  forall path d, rounds db !! path = Some d ->
                 doc_games d <> [] /\ doc_opponentInkColors d <> [].

(** Number of rounds of a list with the given derived outcome. *)
Definition countRounds (o : Outcome) (rs : list Round) : Z :=
  Z.of_nat (length (List.filter (fun r => Outcome_eqb (outcome r) o) rs)).

(** Ascending in the order of the rounds query. *)
Definition byCreation (l : list (string * RoundDoc)) : Prop :=
  StronglySorted (fun a b => EventView.createdBefore a b = true) l.

(** ** The outcome derivation *)

Lemma countGames_nil p : countGames p [] = 0.
Proof. reflexivity. Qed.

Lemma countGames_cons p g gs :
  countGames p (g :: gs) = (if p g then 1 else 0) + countGames p gs.
Proof.
  unfold countGames. simpl. destruct (p g); simpl length; lia.
Qed.

Lemma countGames_nonneg p gs : 0 <= countGames p gs.
Proof. unfold countGames. lia. Qed.

Lemma countGames_app p gs1 gs2 :
  countGames p (gs1 ++ gs2) = countGames p gs1 + countGames p gs2.
Proof.
  induction gs1 as [|g gs1 IH]; [reflexivity|].
  simpl app. rewrite !countGames_cons, IH. lia.
Qed.

Lemma win_not_loss g : isWin g = true -> isLoss g = false.
Proof.
  unfold isWin, isLoss, resultIs. intros H. apply String.eqb_eq in H.
  rewrite H. reflexivity.
Qed.

Lemma win_not_draw g : isWin g = true -> isDraw g = false.
Proof.
  unfold isWin, isDraw, resultIs. intros H. apply String.eqb_eq in H.
  rewrite H. reflexivity.
Qed.

Lemma loss_not_draw g : isLoss g = true -> isDraw g = false.
Proof.
  unfold isLoss, isDraw, resultIs. intros H. apply String.eqb_eq in H.
  rewrite H. reflexivity.
Qed.

(** Case analysis on the result of a game: a win, a loss, a draw, or none
    of the three. *)
Ltac case_result g :=
  let Hw := fresh "Hw" in
  let Hl := fresh "Hl" in
  let Hd := fresh "Hd" in
  destruct (isWin g) eqn:Hw;
  [ rewrite ?(win_not_loss g Hw), ?(win_not_draw g Hw)
  | destruct (isLoss g) eqn:Hl;
    [ rewrite ?(loss_not_draw g Hl)
    | destruct (isDraw g) eqn:Hd ] ].

(** What one step of the tally adds to each of the nine counters. *)
Lemma tallyGame_fields c g :
  let c' := EventDetail.tallyGame c g in
  Tally.playerWins c' = Tally.playerWins c + (if isWin g then 1 else 0) /\
  Tally.playerLosses c' = Tally.playerLosses c + (if isLoss g then 1 else 0) /\
  Tally.playerDraws c' = Tally.playerDraws c + (if isDraw g then 1 else 0) /\
  Tally.onPlayWins c' = Tally.onPlayWins c + (if onPlay isWin g then 1 else 0) /\
  Tally.onPlayLosses c' = Tally.onPlayLosses c + (if onPlay isLoss g then 1 else 0) /\
  Tally.onPlayDraws c' = Tally.onPlayDraws c + (if onPlay isDraw g then 1 else 0) /\
  Tally.onDrawWins c' = Tally.onDrawWins c + (if onDraw isWin g then 1 else 0) /\
  Tally.onDrawLosses c' = Tally.onDrawLosses c + (if onDraw isLoss g then 1 else 0) /\
  Tally.onDrawDraws c' = Tally.onDrawDraws c + (if onDraw isDraw g then 1 else 0).
Proof.
  unfold EventDetail.tallyGame, onPlay, onDraw.
  fold isWin isLoss isDraw.
  case_result g; destruct (onThePlay g); cbn; repeat split; lia.
Qed.

(** The nine counters after the loop, from any starting values. *)
Lemma fold_tallyGame gs : forall c,
  let c' := fold_left EventDetail.tallyGame gs c in
  Tally.playerWins c' = Tally.playerWins c + countGames isWin gs /\
  Tally.playerLosses c' = Tally.playerLosses c + countGames isLoss gs /\
  Tally.playerDraws c' = Tally.playerDraws c + countGames isDraw gs /\
  Tally.onPlayWins c' = Tally.onPlayWins c + countGames (onPlay isWin) gs /\
  Tally.onPlayLosses c' = Tally.onPlayLosses c + countGames (onPlay isLoss) gs /\
  Tally.onPlayDraws c' = Tally.onPlayDraws c + countGames (onPlay isDraw) gs /\
  Tally.onDrawWins c' = Tally.onDrawWins c + countGames (onDraw isWin) gs /\
  Tally.onDrawLosses c' = Tally.onDrawLosses c + countGames (onDraw isLoss) gs /\
  Tally.onDrawDraws c' = Tally.onDrawDraws c + countGames (onDraw isDraw) gs.
Proof.
  induction gs as [|g gs IH]; intros c.
  - cbn. rewrite !countGames_nil. lia.
  - cbn [fold_left]. cbv zeta.
    specialize (IH (EventDetail.tallyGame c g)). cbv zeta in IH.
    pose proof (tallyGame_fields c g) as Hg. cbv zeta in Hg.
    rewrite !countGames_cons. lia.
Qed.

Lemma tallyGames_fields gs :
  let c := EventDetail.tallyGames gs in
  Tally.playerWins c = countGames isWin gs /\
  Tally.playerLosses c = countGames isLoss gs /\
  Tally.playerDraws c = countGames isDraw gs /\
  Tally.onPlayWins c = countGames (onPlay isWin) gs /\
  Tally.onPlayLosses c = countGames (onPlay isLoss) gs /\
  Tally.onPlayDraws c = countGames (onPlay isDraw) gs /\
  Tally.onDrawWins c = countGames (onDraw isWin) gs /\
  Tally.onDrawLosses c = countGames (onDraw isLoss) gs /\
  Tally.onDrawDraws c = countGames (onDraw isDraw) gs.
Proof.
  pose proof (fold_tallyGame gs Tally.zero) as H. cbv zeta in H.
  unfold EventDetail.tallyGames. cbn [Tally.zero Tally.playerWins Tally.playerLosses
    Tally.playerDraws Tally.onPlayWins Tally.onPlayLosses Tally.onPlayDraws
    Tally.onDrawWins Tally.onDrawLosses Tally.onDrawDraws] in H.
  cbv zeta. lia.
Qed.

Lemma outcomeOf_spec w l :
  (EventDetail.outcomeOf w l = Win <-> w > l) /\
  (EventDetail.outcomeOf w l = Loss <-> l > w) /\
  (EventDetail.outcomeOf w l = Draw <-> ~ w > l /\ ~ l > w).
Proof.
  unfold EventDetail.outcomeOf.
  destruct (Z.gtb_spec w l); [|destruct (Z.gtb_spec l w)];
    repeat split; intros; try discriminate; try lia.
Qed.

Lemma deriveRound_outcome roundDoc :
  outcome (EventDetail.deriveRound roundDoc) = majority (doc_games (snd roundDoc)).
Proof.
  unfold EventDetail.deriveRound, majority. cbn [outcome].
  pose proof (tallyGames_fields (doc_games (snd roundDoc))) as H. cbv zeta in H.
  destruct H as (-> & -> & _). reflexivity.
Qed.

(** C4.  The derivation tallies the games by result, and again by result
    within the games played first and the games played second; the outcome
    is a win exactly when the wins exceed the losses, a loss exactly when
    the losses exceed the wins, and a draw otherwise.  A round without
    games is a draw with every count zero, and the round
    [win (on play), win (on draw), loss (on play)] is a win with 2 wins,
    1 loss, 1 win and 1 loss on the play and 1 win on the draw. *)
Theorem deriveRound_majority_rule :
  (forall roundDoc : string * RoundDoc,
     let r := EventDetail.deriveRound roundDoc in
     let gs := doc_games (snd roundDoc) in
     (roundWins r = countGames isWin gs /\
      roundLosses r = countGames isLoss gs /\
      roundDraws r = countGames isDraw gs) /\
     (onPlayWins r = countGames (onPlay isWin) gs /\
      onPlayLosses r = countGames (onPlay isLoss) gs /\
      onPlayDraws r = countGames (onPlay isDraw) gs) /\
     (onDrawWins r = countGames (onDraw isWin) gs /\
      onDrawLosses r = countGames (onDraw isLoss) gs /\
      onDrawDraws r = countGames (onDraw isDraw) gs) /\
     (outcome r = Win <-> roundWins r > roundLosses r) /\
     (outcome r = Loss <-> roundLosses r > roundWins r) /\
     (outcome r = Draw <-> ~ roundWins r > roundLosses r /\ ~ roundLosses r > roundWins r)) /\
  (forall (i : string) (inks : list string) (created : Z),
     let r := EventDetail.deriveRound (i, mkRoundDoc inks [] created) in
     outcome r = Draw /\
     roundWins r = 0 /\ roundLosses r = 0 /\ roundDraws r = 0 /\
     onPlayWins r = 0 /\ onPlayLosses r = 0 /\ onPlayDraws r = 0 /\
     onDrawWins r = 0 /\ onDrawLosses r = 0 /\ onDrawDraws r = 0) /\
  (forall (i : string) (inks : list string) (created : Z),
     let r := EventDetail.deriveRound
                (i, mkRoundDoc inks
                      [mkGame "win" true; mkGame "win" false; mkGame "loss" true] created) in
     outcome r = Win /\ roundWins r = 2 /\ roundLosses r = 1 /\
     onPlayWins r = 1 /\ onPlayLosses r = 1 /\ onDrawWins r = 1).
Proof.
  split; [|split].
  - intros roundDoc r gs.
    pose proof (tallyGames_fields gs) as H. cbv zeta in H.
    destruct H as (H1 & H2 & H3 & H4 & H5 & H6 & H7 & H8 & H9).
    subst r. unfold EventDetail.deriveRound.
    cbn [outcome roundWins roundLosses roundDraws onPlayWins onPlayLosses onPlayDraws
         onDrawWins onDrawLosses onDrawDraws].
    fold gs.
    split; [auto|]. split; [auto|]. split; [auto|].
    apply outcomeOf_spec.
  - intros i inks created. cbn. repeat split.
  - intros i inks created. cbn. repeat split.
Qed.

(** ** Games with a result outside the enumeration *)

Lemma countGames_filter_valid p gs :
  (forall g, p g = true -> validResult g = true) ->
  countGames p (List.filter validResult gs) = countGames p gs.
Proof.
  intros Hp. induction gs as [|g gs IH]; [reflexivity|].
  cbn [List.filter]. destruct (validResult g) eqn:Hv.
  - rewrite !countGames_cons, IH. reflexivity.
  - rewrite countGames_cons, IH.
    destruct (p g) eqn:Hpg; [|lia].
    apply Hp in Hpg. congruence.
Qed.

Lemma tally_eq (c c' : Tally.t) :
  Tally.playerWins c = Tally.playerWins c' ->
  Tally.playerLosses c = Tally.playerLosses c' ->
  Tally.playerDraws c = Tally.playerDraws c' ->
  Tally.onPlayWins c = Tally.onPlayWins c' ->
  Tally.onPlayLosses c = Tally.onPlayLosses c' ->
  Tally.onPlayDraws c = Tally.onPlayDraws c' ->
  Tally.onDrawWins c = Tally.onDrawWins c' ->
  Tally.onDrawLosses c = Tally.onDrawLosses c' ->
  Tally.onDrawDraws c = Tally.onDrawDraws c' ->
  c = c'.
Proof. destruct c, c'; cbn; intros; congruence. Qed.

(** The tallies skip every game whose result is not one of the three
    values. *)
Lemma tallyGames_filter_valid gs :
  EventDetail.tallyGames (List.filter validResult gs) = EventDetail.tallyGames gs.
Proof.
  pose proof (tallyGames_fields gs) as H. cbv zeta in H.
  pose proof (tallyGames_fields (List.filter validResult gs)) as H'. cbv zeta in H'.
  destruct H as (H1 & H2 & H3 & H4 & H5 & H6 & H7 & H8 & H9).
  destruct H' as (H1' & H2' & H3' & H4' & H5' & H6' & H7' & H8' & H9').
  apply tally_eq;
    match goal with
    | |- ?f _ = ?f _ =>
        first [ rewrite H1, H1' | rewrite H2, H2' | rewrite H3, H3'
              | rewrite H4, H4' | rewrite H5, H5' | rewrite H6, H6'
              | rewrite H7, H7' | rewrite H8, H8' | rewrite H9, H9' ]
    end;
    apply countGames_filter_valid; intros g;
    unfold validResult, onPlay, onDraw; intros Hg;
    repeat match goal with
           | H : (_ && _)%bool = true |- _ => apply andb_prop in H; destruct H
           end;
    repeat match goal with
           | H : _ = true |- _ => rewrite H
           end;
    rewrite ?orb_true_r; reflexivity.
Qed.

(** C9 as amended.  The derivation has no error path: on every document it
    returns a round.  A game whose result is not one of [win], [loss],
    [draw] is passed over by all nine tallies, so the outcome and the
    counts are those of the game sequence without such games. *)
Theorem deriveRound_skips_invalid_results :
  forall (roundDoc : string * RoundDoc),
    let gs := doc_games (snd roundDoc) in
    let valid :=
      (fst roundDoc,
       mkRoundDoc (doc_opponentInkColors (snd roundDoc))
                  (List.filter validResult gs) (doc_createdAt (snd roundDoc))) in
    let r := EventDetail.deriveRound roundDoc in
    let r' := EventDetail.deriveRound valid in
    deriveRoundCompletion roundDoc = Return r /\
    outcome r = outcome r' /\
    roundWins r = roundWins r' /\ roundLosses r = roundLosses r' /\
    roundDraws r = roundDraws r' /\
    onPlayWins r = onPlayWins r' /\ onPlayLosses r = onPlayLosses r' /\
    onPlayDraws r = onPlayDraws r' /\
    onDrawWins r = onDrawWins r' /\ onDrawLosses r = onDrawLosses r' /\
    onDrawDraws r = onDrawDraws r'.
Proof.
  intros roundDoc gs valid r r'. subst r r' valid.
  unfold deriveRoundCompletion, EventDetail.deriveRound.
  cbn [fst snd doc_games outcome roundWins roundLosses roundDraws onPlayWins onPlayLosses
       onPlayDraws onDrawWins onDrawLosses onDrawDraws].
  fold gs. rewrite tallyGames_filter_valid. repeat split.
Qed.

(** C9, counterexample.  A round whose only game has the result
    ["forfeit"] is derived without error, as a draw with no game counted. *)
Lemma deriveRound_invalid_result_returns :
  let g := mkGame "forfeit" true in
  let roundDoc := ("r1"%string, mkRoundDoc ["Amber"%string] [g] 0) in
  validResult g = false /\
  (exists r, deriveRoundCompletion roundDoc = Return r /\
             outcome r = Draw /\ roundWins r = 0 /\ roundLosses r = 0 /\ roundDraws r = 0) /\
  ~ (exists message, deriveRoundCompletion roundDoc = Throw message).
Proof.
  cbv zeta. split; [reflexivity|]. split.
  - eexists. split; [reflexivity|]. cbn. repeat split.
  - intros [message H]. discriminate H.
Qed.

(** ** The statistics fold *)

Lemma acc_eq (a b : Acc.t) :
  Acc.totalMatches a = Acc.totalMatches b ->
  Acc.matchesWon a = Acc.matchesWon b ->
  Acc.matchesLost a = Acc.matchesLost b ->
  Acc.matchesDrawn a = Acc.matchesDrawn b ->
  Acc.totalGames a = Acc.totalGames b ->
  Acc.gamesWon a = Acc.gamesWon b ->
  Acc.gamesLost a = Acc.gamesLost b ->
  Acc.gamesDrawn a = Acc.gamesDrawn b ->
  Acc.gamesPlayedOnPlay a = Acc.gamesPlayedOnPlay b ->
  Acc.gamesWonOnPlay a = Acc.gamesWonOnPlay b ->
  Acc.gamesPlayedOnDraw a = Acc.gamesPlayedOnDraw b ->
  Acc.gamesWonOnDraw a = Acc.gamesWonOnDraw b ->
  a = b.
Proof. destruct a, b; cbn; intros; congruence. Qed.

(** Closes an equation between accumulators built from [Acc.plus]. *)
Ltac acc_solve := apply acc_eq; cbn; lia.

Lemma plus_assoc a b c : Acc.plus (Acc.plus a b) c = Acc.plus a (Acc.plus b c).
Proof. acc_solve. Qed.

Lemma plus_comm a b : Acc.plus a b = Acc.plus b a.
Proof. acc_solve. Qed.

Lemma plus_zero_r a : Acc.plus a Acc.zero = a.
Proof. acc_solve. Qed.

Lemma plus_zero_l a : Acc.plus Acc.zero a = a.
Proof. acc_solve. Qed.

Lemma sumAcc_app l1 l2 : sumAcc (l1 ++ l2) = Acc.plus (sumAcc l1) (sumAcc l2).
Proof.
  induction l1 as [|a l1 IH]; cbn.
  - symmetry. apply plus_zero_l.
  - fold (sumAcc (l1 ++ l2)). fold (sumAcc l1). rewrite IH. symmetry. apply plus_assoc.
Qed.

Lemma sumAcc_permutation l1 l2 : Permutation l1 l2 -> sumAcc l1 = sumAcc l2.
Proof.
  induction 1 as [|a l1 l2 _ IH|a b l|l1 l2 l3 _ IH1 _ IH2]; cbn.
  - reflexivity.
  - fold (sumAcc l1). fold (sumAcc l2). rewrite IH. reflexivity.
  - fold (sumAcc l). rewrite <- !plus_assoc. f_equal. apply plus_comm.
  - congruence.
Qed.

Lemma gamesTotals_nil : gamesTotals [] = Acc.zero.
Proof. reflexivity. Qed.

Lemma gamesTotals_cons g gs :
  gamesTotals (g :: gs) = Acc.plus (gameTotals g) (gamesTotals gs).
Proof.
  unfold gamesTotals, gameTotals. apply acc_eq; cbn -[Z.of_nat countGames];
    rewrite ?countGames_cons;
    try match goal with |- context [if ?b then _ else _] => destruct b end;
    cbn; lia.
Qed.

Lemma triple_eq {A B C : Type} (a a' : A) (b b' : B) (c c' : C) :
  a = a' -> b = b' -> c = c' -> (a, b, c) = (a', b', c').
Proof. congruence. Qed.

(** One step of the inner loop adds the game's contribution. *)
Lemma statsGame_spec a pw pl g :
  EventDetail.statsGame (a, pw, pl) g =
  (Acc.plus a (gameTotals g), pw + Z.b2z (isWin g), pl + Z.b2z (isLoss g)).
Proof.
  unfold EventDetail.statsGame, gameTotals, onPlay, onDraw.
  fold isWin isLoss isDraw.
  case_result g; destruct (onThePlay g); cbn -[Acc.plus];
    (apply triple_eq; [acc_solve | lia | lia]).
Qed.

Lemma fold_statsGame gs : forall a pw pl,
  fold_left EventDetail.statsGame gs (a, pw, pl) =
  (Acc.plus a (gamesTotals gs), pw + countGames isWin gs, pl + countGames isLoss gs).
Proof.
  induction gs as [|g gs IH]; intros a pw pl.
  - cbn [fold_left]. rewrite gamesTotals_nil, plus_zero_r, !countGames_nil.
    apply triple_eq; [reflexivity | lia | lia].
  - cbn [fold_left]. rewrite statsGame_spec, IH, gamesTotals_cons, !countGames_cons.
    rewrite plus_assoc. unfold Z.b2z. apply triple_eq; [reflexivity | lia | lia].
Qed.

Lemma majority_cases gs :
  (countGames isWin gs > countGames isLoss gs /\ majority gs = Win) \/
  (countGames isLoss gs > countGames isWin gs /\ majority gs = Loss) \/
  (countGames isWin gs = countGames isLoss gs /\ majority gs = Draw).
Proof.
  unfold majority.
  destruct (Z.gtb_spec (countGames isWin gs) (countGames isLoss gs));
    [|destruct (Z.gtb_spec (countGames isLoss gs) (countGames isWin gs))];
    [left | right; left | right; right]; split; auto; lia.
Qed.

(** One step of the outer loop adds the round's contribution. *)
Lemma statsRound_spec a r :
  EventDetail.statsRound a r = Acc.plus a (roundTotals (games r)).
Proof.
  unfold EventDetail.statsRound. rewrite fold_statsGame.
  unfold roundTotals.
  destruct (majority_cases (games r)) as [[H ->]|[[H ->]|[H ->]]]; cbn [Outcome_eqb Z.b2z].
  - replace (0 + countGames isWin (games r) >? 0 + countGames isLoss (games r)) with true
      by (symmetry; rewrite Z.gtb_ltb; apply Z.ltb_lt; lia).
    acc_solve.
  - replace (0 + countGames isWin (games r) >? 0 + countGames isLoss (games r)) with false
      by (symmetry; rewrite Z.gtb_ltb; apply Z.ltb_ge; lia).
    replace (0 + countGames isLoss (games r) >? 0 + countGames isWin (games r)) with true
      by (symmetry; rewrite Z.gtb_ltb; apply Z.ltb_lt; lia).
    acc_solve.
  - replace (0 + countGames isWin (games r) >? 0 + countGames isLoss (games r)) with false
      by (symmetry; rewrite Z.gtb_ltb; apply Z.ltb_ge; lia).
    replace (0 + countGames isLoss (games r) >? 0 + countGames isWin (games r)) with false
      by (symmetry; rewrite Z.gtb_ltb; apply Z.ltb_ge; lia).
    acc_solve.
Qed.

Lemma fold_statsRound rounds : forall a,
  fold_left EventDetail.statsRound rounds a =
  Acc.plus a (sumAcc (map (fun r => roundTotals (games r)) rounds)).
Proof.
  induction rounds as [|r rounds IH]; intros a; cbn [fold_left map sumAcc fold_right].
  - symmetry. apply plus_zero_r.
  - rewrite IH, statsRound_spec, plus_assoc. reflexivity.
Qed.

(** The accumulators of the event view are the sum of the contributions
    of the rounds. *)
Lemma totals_spec rounds :
  EventDetail.totals rounds = sumAcc (map (fun r => roundTotals (games r)) rounds).
Proof.
  unfold EventDetail.totals. rewrite fold_statsRound. apply plus_zero_l.
Qed.

Lemma totals_permutation l1 l2 :
  Permutation l1 l2 -> EventDetail.totals l1 = EventDetail.totals l2.
Proof.
  intros H. rewrite !totals_spec. apply sumAcc_permutation.
  apply Permutation_map. exact H.
Qed.

(** C7.  The statistics fold gives the same record, in every field, on a
    sequence of rounds and on any permutation of it. *)
Theorem computeStats_permutation (rounds rounds' : list Round) :
  Permutation rounds rounds' ->
  EventDetail.computeStats rounds = EventDetail.computeStats rounds'.
Proof.
  intros H. unfold EventDetail.computeStats.
  rewrite (totals_permutation rounds rounds' H). reflexivity.
Qed.

(** Two rounds of the example, in both orders. *)
Lemma computeStats_permutation_witness :
  let won := EventDetail.deriveRound (wonRound "r1") in
  let lost := EventDetail.deriveRound (lostRound "r2") in
  Permutation [won; lost] [lost; won] /\
  EventDetail.computeStats [won; lost] = EventDetail.computeStats [lost; won].
Proof.
  cbv zeta. split.
  - apply perm_swap.
  - apply computeStats_permutation. apply perm_swap.
Defined.

Lemma countOutcome_cons o gs gss :
  countOutcome o (gs :: gss) = Z.b2z (Outcome_eqb (majority gs) o) + countOutcome o gss.
Proof.
  unfold countOutcome. cbn [List.filter].
  destruct (Outcome_eqb (majority gs) o); cbn [Z.b2z length]; lia.
Qed.

Lemma sum_roundTotals gss : sumAcc (map roundTotals gss) = expectedTotals gss.
Proof.
  induction gss as [|gs gss IH]; [reflexivity|].
  cbn [map sumAcc fold_right]. fold (sumAcc (map roundTotals gss)). rewrite IH.
  unfold expectedTotals, roundTotals, gamesTotals. cbv zeta.
  cbn [concat]. rewrite !countOutcome_cons.
  apply acc_eq; cbn -[Z.of_nat countGames countOutcome Z.b2z majority];
    rewrite ?countGames_app, ?length_app; cbn [length]; lia.
Qed.

(** The accumulators of the event view, stated on the collection. *)
Lemma totals_expected rounds :
  EventDetail.totals rounds = expectedTotals (map games rounds).
Proof.
  rewrite totals_spec, <- sum_roundTotals, map_map. reflexivity.
Qed.

Lemma rate_ratio n d : 0 <= d -> rate n d = ratio n d.
Proof.
  intros Hd. unfold rate, ratio, divide, times100.
  rewrite Z.gtb_ltb.
  destruct (Z.ltb_spec 0 d) as [H|H]; destruct (Z.eqb_spec d 0) as [E|E];
    try reflexivity; lia.
Qed.

(** ** The deck view *)

Lemma dropLostDrawn_plus a b :
  dropLostDrawn (Acc.plus a b) = Acc.plus (dropLostDrawn a) (dropLostDrawn b).
Proof. acc_solve. Qed.

Lemma dropLostDrawn_sumAcc l :
  dropLostDrawn (sumAcc l) = sumAcc (map dropLostDrawn l).
Proof.
  induction l as [|a l IH]; [reflexivity|].
  cbn [sumAcc fold_right map]. fold (sumAcc l). fold (sumAcc (map dropLostDrawn l)).
  rewrite dropLostDrawn_plus, IH. reflexivity.
Qed.

Lemma fold_countGame gs : forall pw pl,
  fold_left DeckList.countGame gs (pw, pl) =
  (pw + countGames isWin gs, pl + countGames isLoss gs).
Proof.
  induction gs as [|g gs IH]; intros pw pl; cbn [fold_left].
  - rewrite !countGames_nil. f_equal; lia.
  - unfold DeckList.countGame at 2. fold isWin isLoss.
    rewrite !countGames_cons.
    case_result g; rewrite IH; f_equal; lia.
Qed.

Lemma deck_statsGame_spec a g :
  DeckList.statsGame a g = Acc.plus a (dropLostDrawn (gameTotals g)).
Proof.
  unfold DeckList.statsGame, gameTotals, onPlay, onDraw. fold isWin.
  destruct (isWin g); destruct (onThePlay g); cbn -[Acc.plus]; acc_solve.
Qed.

Lemma fold_deck_statsGame gs : forall a,
  fold_left DeckList.statsGame gs a = Acc.plus a (dropLostDrawn (gamesTotals gs)).
Proof.
  induction gs as [|g gs IH]; intros a; cbn [fold_left].
  - rewrite gamesTotals_nil. acc_solve.
  - rewrite IH, deck_statsGame_spec, gamesTotals_cons, dropLostDrawn_plus, plus_assoc.
    reflexivity.
Qed.

Lemma deck_statsRound_spec a roundDoc :
  DeckList.statsRound a roundDoc =
  Acc.plus a (dropLostDrawn (roundTotals (doc_games (snd roundDoc)))).
Proof.
  unfold DeckList.statsRound. cbv zeta. rewrite fold_countGame.
  rewrite fold_deck_statsGame. unfold roundTotals.
  set (gs := doc_games (snd roundDoc)).
  destruct (majority_cases gs) as [[H ->]|[[H ->]|[H ->]]]; cbn [Outcome_eqb Z.b2z].
  - replace (0 + countGames isWin gs >? 0 + countGames isLoss gs) with true
      by (symmetry; rewrite Z.gtb_ltb; apply Z.ltb_lt; lia).
    acc_solve.
  - replace (0 + countGames isWin gs >? 0 + countGames isLoss gs) with false
      by (symmetry; rewrite Z.gtb_ltb; apply Z.ltb_ge; lia).
    replace (0 + countGames isLoss gs >? 0 + countGames isWin gs) with true
      by (symmetry; rewrite Z.gtb_ltb; apply Z.ltb_lt; lia).
    acc_solve.
  - replace (0 + countGames isWin gs >? 0 + countGames isLoss gs) with false
      by (symmetry; rewrite Z.gtb_ltb; apply Z.ltb_ge; lia).
    replace (0 + countGames isLoss gs >? 0 + countGames isWin gs) with false
      by (symmetry; rewrite Z.gtb_ltb; apply Z.ltb_ge; lia).
    acc_solve.
Qed.

Lemma fold_deck_statsRound docs : forall a,
  fold_left DeckList.statsRound docs a =
  Acc.plus a (dropLostDrawn (sumAcc (map (fun d => roundTotals (doc_games (snd d))) docs))).
Proof.
  induction docs as [|d docs IH]; intros a; cbn [fold_left map sumAcc fold_right].
  - acc_solve.
  - rewrite IH, deck_statsRound_spec, dropLostDrawn_plus, plus_assoc. reflexivity.
Qed.

Lemma fold_deck_statsEvent roundsSnapshot evs : forall a,
  fold_left (DeckList.statsEvent roundsSnapshot) evs a =
  Acc.plus a (dropLostDrawn
                (sumAcc (map (fun d => roundTotals (doc_games (snd d)))
                             (concat (map (fun e => roundsSnapshot (fst e)) evs))))).
Proof.
  induction evs as [|e evs IH]; intros a; cbn [fold_left map concat].
  - acc_solve.
  - rewrite IH. unfold DeckList.statsEvent. rewrite fold_deck_statsRound.
    rewrite map_app, sumAcc_app, dropLostDrawn_plus, plus_assoc. reflexivity.
Qed.

Lemma relevantEvents_filter deckId evs :
  DeckList.relevantEvents deckId evs =
  filter (fun e => userDeckId (snd e) = Some deckId) evs.
Proof.
  unfold DeckList.relevantEvents.
  induction evs as [|e evs IH]; [reflexivity|].
  cbn [List.filter]. rewrite filter_cons, IH.
  unfold DeckList.isRelevant.
  destruct (userDeckId (snd e)) as [d|] eqn:Hd.
  - destruct (String.eqb_spec d deckId) as [->|Hne].
    + rewrite decide_True by reflexivity. reflexivity.
    + rewrite decide_False by congruence. reflexivity.
  - rewrite decide_False by congruence. reflexivity.
Qed.

(** The accumulators of the deck view are those of the event view on the
    union of the deck's rounds, without the two the deck view does not
    keep. *)
Lemma deck_totals_spec deckId evs roundsSnapshot :
  DeckList.totals deckId evs roundsSnapshot =
  dropLostDrawn (EventDetail.totals
                   (map EventDetail.deriveRound (deckRounds deckId evs roundsSnapshot))).
Proof.
  unfold DeckList.totals. rewrite fold_deck_statsEvent, relevantEvents_filter.
  rewrite totals_spec, map_map. fold (deckRounds deckId evs roundsSnapshot).
  cbn [EventDetail.deriveRound games]. apply plus_zero_l.
Qed.

Lemma event_rates_spec (rounds : list Round) :
  let a := EventDetail.totals rounds in
  let all := allGames rounds in
  EventDetail.matchWinRate a
    = ratio (countOutcome Win (map games rounds)) (Z.of_nat (length rounds)) /\
  EventDetail.gameWinRate a
    = ratio (countGames isWin all) (Z.of_nat (length all)) /\
  EventDetail.onPlayGameWinRate a
    = ratio (countGames (onPlay isWin) all) (countGames onThePlay all) /\
  EventDetail.onDrawGameWinRate a
    = ratio (countGames (onDraw isWin) all) (countGames (fun g => negb (onThePlay g)) all).
Proof.
  cbv zeta. rewrite totals_expected.
  unfold EventDetail.matchWinRate, EventDetail.gameWinRate,
    EventDetail.onPlayGameWinRate, EventDetail.onDrawGameWinRate, expectedTotals, allGames.
  cbn [Acc.matchesWon Acc.totalMatches Acc.gamesWon Acc.totalGames Acc.gamesWonOnPlay
       Acc.gamesPlayedOnPlay Acc.gamesWonOnDraw Acc.gamesPlayedOnDraw].
  rewrite length_map.
  repeat split; apply rate_ratio; try apply countGames_nonneg; lia.
Qed.

Lemma deck_rates_event deckId evs roundsSnapshot :
  let a := DeckList.totals deckId evs roundsSnapshot in
  let b := EventDetail.totals
             (map EventDetail.deriveRound (deckRounds deckId evs roundsSnapshot)) in
  DeckList.matchWinRate a = EventDetail.matchWinRate b /\
  DeckList.gameWinRate a = EventDetail.gameWinRate b /\
  DeckList.onPlayGameWinRate a = EventDetail.onPlayGameWinRate b /\
  DeckList.onDrawGameWinRate a = EventDetail.onDrawGameWinRate b /\
  Acc.matchesLost a = Acc.matchesLost b /\
  Acc.matchesDrawn a = Acc.matchesDrawn b.
Proof.
  cbv zeta. rewrite deck_totals_spec. repeat split.
Qed.

(** C8.  In the event view and in the deck view, each of the four
    percentage constants is the guarded ratio of its two totals, in the
    double arithmetic of the code: the match win rate is taken from the
    rounds won by majority and the number of rounds, the game win rate
    from the games won and the number of games, the on-play and on-draw
    rates from the games won and played first and second.  Each is 0 when
    its denominator is 0 and [(n / d) * 100] otherwise, so no division is
    applied to a zero denominator: the rates of an empty collection are 0,
    where the division 0 / 0 itself gives [NaN]. *)
Theorem win_rates_guarded :
  (forall rounds : list Round,
     let a := EventDetail.totals rounds in
     let all := allGames rounds in
     EventDetail.matchWinRate a
       = ratio (countOutcome Win (map games rounds)) (Z.of_nat (length rounds)) /\
     EventDetail.gameWinRate a
       = ratio (countGames isWin all) (Z.of_nat (length all)) /\
     EventDetail.onPlayGameWinRate a
       = ratio (countGames (onPlay isWin) all) (countGames onThePlay all) /\
     EventDetail.onDrawGameWinRate a
       = ratio (countGames (onDraw isWin) all)
               (countGames (fun g => negb (onThePlay g)) all)) /\
  (forall (deckId : string) (eventsSnapshot : list (string * EventDoc))
          (roundsSnapshot : string -> list (string * RoundDoc)),
     let a := DeckList.totals deckId eventsSnapshot roundsSnapshot in
     let gss := map (fun d => doc_games (snd d))
                    (deckRounds deckId eventsSnapshot roundsSnapshot) in
     let all := concat gss in
     DeckList.matchWinRate a = ratio (countOutcome Win gss) (Z.of_nat (length gss)) /\
     DeckList.gameWinRate a = ratio (countGames isWin all) (Z.of_nat (length all)) /\
     DeckList.onPlayGameWinRate a
       = ratio (countGames (onPlay isWin) all) (countGames onThePlay all) /\
     DeckList.onDrawGameWinRate a
       = ratio (countGames (onDraw isWin) all)
               (countGames (fun g => negb (onThePlay g)) all)) /\
  (forall n : Z, ratio n 0 = fromInteger 0) /\
  (forall (n : Z) (d : positive),
     ratio n (Z.pos d)
     = PrimFloat.mul (PrimFloat.div (fromInteger n) (fromInteger (Z.pos d)))
                     (fromInteger 100)) /\
  (PrimFloat.is_nan (divide 0 0) = true /\
   PrimFloat.is_nan (EventDetail.matchWinRate (EventDetail.totals [])) = false /\
   PrimFloat.is_nan (EventDetail.gameWinRate (EventDetail.totals [])) = false /\
   PrimFloat.is_nan (EventDetail.onPlayGameWinRate (EventDetail.totals [])) = false /\
   PrimFloat.is_nan (EventDetail.onDrawGameWinRate (EventDetail.totals [])) = false).
Proof.
  split; [|split; [|split; [|split]]].
  - intros rounds a all. exact (event_rates_spec rounds).
  - intros deckId evs rs a gss all.
    pose proof (deck_rates_event deckId evs rs) as H. cbv zeta in H. fold a in H.
    destruct H as (H1 & H2 & H3 & H4 & _).
    pose proof (event_rates_spec
                  (map EventDetail.deriveRound (deckRounds deckId evs rs))) as E.
    cbv zeta in E. unfold allGames in E.
    rewrite map_map, length_map in E. cbn [EventDetail.deriveRound games] in E.
    fold gss in E. fold all in E.
    replace (length (deckRounds deckId evs rs)) with (length gss) in E
      by (subst gss; apply length_map).
    destruct E as (E1 & E2 & E3 & E4).
    rewrite H1, H2, H3, H4, E1, E2, E3, E4. repeat split.
  - reflexivity.
  - reflexivity.
  - repeat split; vm_compute; reflexivity.
Qed.

(** C6.  The statistics of a deck are those of the statistics fold applied
    once to the union of the rounds of all events whose [userDeckId] is the
    deck's id, each percentage being one division over the totals of the
    union.  For two events of 3 and 2 rounds the deck's match win rate is
    60, neither the sum nor the mean of the events' rates 66.67 and 50; and
    two decks whose events have the same percentages event by event can
    have different deck percentages, so no combination of the per-event
    percentages gives the deck's. *)
Theorem deckStats_union :
  (forall (deckId : string) (eventsSnapshot : list (string * EventDoc))
          (roundsSnapshot : string -> list (string * RoundDoc)),
     let d := DeckList.deckStats deckId eventsSnapshot roundsSnapshot in
     let s := EventDetail.computeStats
                (map EventDetail.deriveRound
                     (deckRounds deckId eventsSnapshot roundsSnapshot)) in
     DeckStats.matchWinRate d = Stats.matchWinRate s /\
     DeckStats.gameWinRate d = Stats.gameWinRate s /\
     DeckStats.onPlayGameWinRate d = Stats.onPlayGameWinRate s /\
     DeckStats.onDrawGameWinRate d = Stats.onDrawGameWinRate s /\
     DeckStats.matchesLost d = Stats.matchesLost s /\
     DeckStats.matchesDrawn d = Stats.matchesDrawn s) /\
  (let d := DeckList.deckStats "d1" exampleEvents exampleRounds in
   let s1 := EventDetail.computeStats (map EventDetail.deriveRound (exampleRounds "e1")) in
   let s2 := EventDetail.computeStats (map EventDetail.deriveRound (exampleRounds "e2")) in
   length (exampleRounds "e1") = 3%nat /\ length (exampleRounds "e2") = 2%nat /\
   length (deckRounds "d1" exampleEvents exampleRounds) = 5%nat /\
   DeckStats.matchWinRate d = hundredths 6000 /\
   Stats.matchWinRate s1 = hundredths 6667 /\
   Stats.matchWinRate s2 = hundredths 5000 /\
   hundredths 6000 <> PrimFloat.add (hundredths 6667) (hundredths 5000) /\
   hundredths 6000
   <> PrimFloat.div (PrimFloat.add (hundredths 6667) (hundredths 5000)) (fromInteger 2)) /\
  ((forall eventId, percentages (oneWinEach eventId) = percentages (twoWinsFirst eventId)) /\
   DeckStats.matchWinRate (DeckList.deckStats "d1" exampleEvents oneWinEach)
     = hundredths 5000 /\
   DeckStats.matchWinRate (DeckList.deckStats "d1" exampleEvents twoWinsFirst)
     = hundredths 6667).
Proof.
  split; [|split].
  - intros deckId evs rs d s. subst d s.
    pose proof (deck_rates_event deckId evs rs) as H. cbv zeta in H.
    destruct H as (H1 & H2 & H3 & H4 & H5 & H6).
    unfold DeckList.deckStats, EventDetail.computeStats.
    cbn [DeckStats.matchWinRate DeckStats.gameWinRate DeckStats.onPlayGameWinRate
         DeckStats.onDrawGameWinRate DeckStats.matchesLost DeckStats.matchesDrawn
         Stats.matchWinRate Stats.gameWinRate Stats.onPlayGameWinRate
         Stats.onDrawGameWinRate Stats.matchesLost Stats.matchesDrawn].
    rewrite H1, H2, H3, H4, H5, H6. repeat split.
  - cbv zeta. split; [reflexivity|]. split; [reflexivity|]. split; [reflexivity|].
    split; [vm_compute; reflexivity|]. split; [vm_compute; reflexivity|].
    split; [vm_compute; reflexivity|]. split.
    + intros H.
      pose proof (f_equal (fun x => PrimFloat.eqb x (hundredths 6000)) H) as E.
      vm_compute in E. discriminate E.
    + intros H.
      pose proof (f_equal (fun x => PrimFloat.eqb x (hundredths 6000)) H) as E.
      vm_compute in E. discriminate E.
  - split; [|split; vm_compute; reflexivity].
    intros eventId. unfold oneWinEach, twoWinsFirst.
    destruct (String.eqb eventId "e1"); [vm_compute; reflexivity|].
    destruct (String.eqb eventId "e2"); vm_compute; reflexivity.
Qed.

(** ** The write paths *)

Lemma fold_countResult gs : forall w l d,
  fold_left countResult gs (w, l, d) =
  (w + countGames isWin gs, l + countGames isLoss gs, d + countGames isDraw gs).
Proof.
  induction gs as [|g gs IH]; intros w l d; cbn [fold_left].
  - rewrite !countGames_nil. apply triple_eq; lia.
  - unfold countResult at 2. fold isWin isLoss isDraw.
    rewrite !countGames_cons.
    case_result g; rewrite IH; apply triple_eq; lia.
Qed.

(** The three-way count of the write paths counts the games by result. *)
Lemma countResults_spec gs :
  countResults gs = (countGames isWin gs, countGames isLoss gs, countGames isDraw gs).
Proof. unfold countResults. rewrite fold_countResult. reflexivity. Qed.

Lemma previousCounts_spec roundData :
  RoundForm.previousCounts roundData =
  (countGames isWin (loadedGames roundData), countGames isLoss (loadedGames roundData),
   countGames isDraw (loadedGames roundData)).
Proof.
  destruct roundData as [r|]; cbn [RoundForm.previousCounts loadedGames].
  - apply countResults_spec.
  - reflexivity.
Qed.

Lemma length_eqb_nil {A : Type} (l : list A) : l <> [] -> (length l =? 0)%nat = false.
Proof. destruct l; [congruence | reflexivity]. Qed.

(** What a submission that reaches the database does when no round id is
    set: it stores the round and adds the three game counts. *)
Lemma handleSubmit_add user now autoId p inks gs db e :
  truthy (RoundForm.roundId p) = false ->
  inks <> [] -> gs <> [] ->
  events db !! RoundForm.eventId p = Some e ->
  RoundForm.handleSubmit (Some user) now autoId p inks gs db =
  (mkFirestore
     (<[RoundForm.eventId p :=
          increment e (countGames isWin gs) (countGames isLoss gs) (countGames isDraw gs)]>
        (events db))
     (<[(RoundForm.eventId p, autoId) := mkRoundDoc inks gs now]> (rounds db)),
   Alert "Round added successfully!").
Proof.
  intros Hid Hinks Hgs He. unfold RoundForm.handleSubmit.
  rewrite (length_eqb_nil inks Hinks), (length_eqb_nil gs Hgs), Hid.
  rewrite countResults_spec. unfold RoundForm.submitNew, bind, addRound, incrementCounters, ret.
  cbn [events rounds]. rewrite He. reflexivity.
Qed.

(** What a submission that reaches the database does when a round id is
    set and both documents exist: it replaces the two fields of the round
    and adds the differences of the game counts. *)
Lemma handleSubmit_edit user now autoId p rid inks gs db e d :
  RoundForm.roundId p = Some rid -> rid <> ""%string ->
  inks <> [] -> gs <> [] ->
  events db !! RoundForm.eventId p = Some e ->
  rounds db !! (RoundForm.eventId p, rid) = Some d ->
  RoundForm.handleSubmit (Some user) now autoId p inks gs db =
  (mkFirestore
     (<[RoundForm.eventId p :=
          increment e
            (countGames isWin gs - countGames isWin (loadedGames (RoundForm.roundData p)))
            (countGames isLoss gs - countGames isLoss (loadedGames (RoundForm.roundData p)))
            (countGames isDraw gs - countGames isDraw (loadedGames (RoundForm.roundData p)))]>
        (events db))
     (<[(RoundForm.eventId p, rid) := mkRoundDoc inks gs (doc_createdAt d)]> (rounds db)),
   Alert "Round updated successfully!").
Proof.
  intros Hid Hne Hinks Hgs He Hd. unfold RoundForm.handleSubmit.
  rewrite (length_eqb_nil inks Hinks), (length_eqb_nil gs Hgs), Hid.
  assert (truthy (Some rid) = true) as ->.
  { cbn. destruct (String.eqb_spec rid ""); [contradiction | reflexivity]. }
  rewrite countResults_spec. unfold RoundForm.submitEdit.
  rewrite previousCounts_spec.
  unfold bind, updateRound, incrementCounters, ret.
  change (default ""%string (Some rid)) with rid.
  rewrite Hd. cbn [events rounds]. rewrite He. reflexivity.
Qed.

(** What a confirmed deletion does when the event exists: it removes the
    round and subtracts the three game counts. *)
Lemma handleDeleteRound_confirmed user eventId roundId gs db e :
  events db !! eventId = Some e ->
  EventList.handleDeleteRound (Some user) true eventId roundId gs db =
  (mkFirestore
     (<[eventId :=
          increment e (- countGames isWin gs) (- countGames isLoss gs)
                      (- countGames isDraw gs)]> (events db))
     (delete (eventId, roundId) (rounds db)),
   Alert "Round deleted successfully!").
Proof.
  intros He. unfold EventList.handleDeleteRound. cbn [negb].
  unfold bind, deleteRound. rewrite countResults_spec.
  unfold incrementCounters, ret. cbn [events rounds]. rewrite He. reflexivity.
Qed.

(** A submission reports an added round only after storing it and adding
    the game counts. *)
Lemma handleSubmit_added currentUser now autoId p inks gs db db' :
  RoundForm.handleSubmit currentUser now autoId p inks gs db
    = (db', Alert "Round added successfully!") ->
  exists e,
    events db !! RoundForm.eventId p = Some e /\
    db' = mkFirestore
            (<[RoundForm.eventId p :=
                 increment e (countGames isWin gs) (countGames isLoss gs)
                             (countGames isDraw gs)]> (events db))
            (<[(RoundForm.eventId p, autoId) := mkRoundDoc inks gs now]> (rounds db)).
Proof.
  unfold RoundForm.handleSubmit. intros H.
  destruct currentUser as [user|]; [|discriminate].
  destruct inks as [|ink inks]; [discriminate|].
  destruct gs as [|g gs]; [discriminate|].
  cbn [length Nat.eqb] in H. rewrite countResults_spec in H.
  destruct (truthy (RoundForm.roundId p)).
  - unfold RoundForm.submitEdit in H. rewrite previousCounts_spec in H.
    unfold bind, updateRound, incrementCounters, ret in H.
    destruct (rounds db !! _); [|discriminate].
    cbn [events rounds] in H. destruct (events db !! _); discriminate.
  - unfold RoundForm.submitNew, bind, addRound, incrementCounters, ret in H.
    cbn [events rounds] in H.
    destruct (events db !! RoundForm.eventId p) as [e|]; [|discriminate].
    exists e. split; [reflexivity|]. congruence.
Qed.

(** A submission reports an updated round only after replacing the two
    fields of the stored round and adding the differences of the counts. *)
Lemma handleSubmit_updated currentUser now autoId p inks gs db db' :
  RoundForm.handleSubmit currentUser now autoId p inks gs db
    = (db', Alert "Round updated successfully!") ->
  exists rid e d,
    RoundForm.roundId p = Some rid /\
    events db !! RoundForm.eventId p = Some e /\
    rounds db !! (RoundForm.eventId p, rid) = Some d /\
    db' = mkFirestore
            (<[RoundForm.eventId p :=
                 increment e
                   (countGames isWin gs
                    - countGames isWin (loadedGames (RoundForm.roundData p)))
                   (countGames isLoss gs
                    - countGames isLoss (loadedGames (RoundForm.roundData p)))
                   (countGames isDraw gs
                    - countGames isDraw (loadedGames (RoundForm.roundData p)))]>
               (events db))
            (<[(RoundForm.eventId p, rid) := mkRoundDoc inks gs (doc_createdAt d)]>
               (rounds db)).
Proof.
  unfold RoundForm.handleSubmit. intros H.
  destruct currentUser as [user|]; [|discriminate].
  destruct inks as [|ink inks]; [discriminate|].
  destruct gs as [|g gs]; [discriminate|].
  cbn [length Nat.eqb] in H. rewrite countResults_spec in H.
  destruct (RoundForm.roundId p) as [rid|] eqn:Hid.
  - destruct (truthy (Some rid)).
    + change (default ""%string (Some rid)) with rid in H.
      unfold RoundForm.submitEdit in H. rewrite previousCounts_spec in H.
      unfold bind, updateRound, incrementCounters, ret in H.
      destruct (rounds db !! (RoundForm.eventId p, rid)) as [d|] eqn:Hd; [|discriminate].
      cbn [events rounds] in H.
      destruct (events db !! RoundForm.eventId p) as [e|] eqn:He; [|discriminate].
      exists rid, e, d. repeat split; congruence.
    + unfold RoundForm.submitNew, bind, addRound, incrementCounters, ret in H.
      cbn [events rounds] in H. destruct (events db !! _); discriminate.
  - cbn [truthy] in H.
    unfold RoundForm.submitNew, bind, addRound, incrementCounters, ret in H.
    cbn [events rounds] in H. destruct (events db !! _); discriminate.
Qed.

(** A deletion reports success only after removing the round and
    subtracting the game counts. *)
Lemma handleDeleteRound_deleted currentUser eventId roundId gs db db' :
  EventList.handleDeleteRound currentUser true eventId roundId gs db
    = (db', Alert "Round deleted successfully!") ->
  exists e,
    events db !! eventId = Some e /\
    db' = mkFirestore
            (<[eventId :=
                 increment e (- countGames isWin gs) (- countGames isLoss gs)
                             (- countGames isDraw gs)]> (events db))
            (delete (eventId, roundId) (rounds db)).
Proof.
  unfold EventList.handleDeleteRound. intros H.
  destruct currentUser as [user|]; [|discriminate].
  cbn [negb] in H. unfold bind, deleteRound in H. rewrite countResults_spec in H.
  unfold incrementCounters, ret in H. cbn [events rounds] in H.
  destruct (events db !! eventId) as [e|]; [|discriminate].
  exists e. split; [reflexivity|]. congruence.
Qed.

(** ** Sums over the stored rounds *)

Lemma sumZ_permutation l1 l2 : Permutation l1 l2 -> sumZ l1 = sumZ l2.
Proof.
  induction 1 as [|x l1 l2 _ IH|x y l|l1 l2 l3 _ IH1 _ IH2]; cbn.
  - reflexivity.
  - fold (sumZ l1). fold (sumZ l2). lia.
  - fold (sumZ l). lia.
  - congruence.
Qed.

Lemma weigh_insert_fresh (f : RoundDoc -> Z) (m : gmap (string * string) RoundDoc)
  (k : string * string) (d : RoundDoc) :
  m !! k = None -> weigh f (<[k := d]> m) = f d + weigh f m.
Proof.
  intros H. unfold weigh.
  rewrite (sumZ_permutation _ _
             (Permutation_map _ (map_to_list_insert m k d H))).
  reflexivity.
Qed.

Lemma weigh_delete (f : RoundDoc -> Z) (m : gmap (string * string) RoundDoc)
  (k : string * string) (d : RoundDoc) :
  m !! k = Some d -> weigh f m = f d + weigh f (delete k m).
Proof.
  intros H. unfold weigh.
  rewrite <- (sumZ_permutation _ _
                (Permutation_map _ (map_to_list_delete m k d H))).
  reflexivity.
Qed.

Lemma weigh_insert_stored (f : RoundDoc -> Z) (m : gmap (string * string) RoundDoc)
  (k : string * string) (d0 d : RoundDoc) :
  m !! k = Some d0 -> weigh f (<[k := d]> m) = weigh f m - f d0 + f d.
Proof.
  intros H. rewrite <- (insert_delete_eq m k d).
  rewrite weigh_insert_fresh by apply lookup_delete_eq.
  rewrite (weigh_delete f m k d0 H). lia.
Qed.

Lemma gameTotal_weigh (p : Game -> bool) (db : Firestore) (eventId : string) :
  gameTotal p db eventId = weigh (fun d => countGames p (doc_games d)) (roundsOf db eventId).
Proof.
  unfold gameTotal, getRoundDocs, weigh. rewrite map_map. reflexivity.
Qed.

Lemma roundsOf_other_event (R : gmap (string * string) RoundDoc) (eid ev k : string) :
  eid <> ev -> filter (fun kv => fst (fst kv) = ev) R !! (eid, k) = None.
Proof.
  intros Hne. apply map_lookup_filter_None. right. intros d _. cbn. exact Hne.
Qed.

(** Storing a round under an unused id adds its games to the totals of its
    event only. *)
Lemma gameTotal_add (p : Game -> bool) (E : gmap string EventDoc)
  (R : gmap (string * string) RoundDoc) (eid k ev : string) (d : RoundDoc) :
  R !! (eid, k) = None ->
  gameTotal p (mkFirestore E (<[(eid, k) := d]> R)) ev =
  gameTotal p (mkFirestore E R) ev
  + (if decide (eid = ev) then countGames p (doc_games d) else 0).
Proof.
  intros Hk. rewrite !gameTotal_weigh. unfold roundsOf. cbn [rounds].
  destruct (decide (eid = ev)) as [->|Hne].
  - rewrite map_filter_insert_True by reflexivity.
    rewrite weigh_insert_fresh; [lia|].
    apply map_lookup_filter_None. left. exact Hk.
  - rewrite map_filter_insert_not by (intros y; cbn; exact Hne). lia.
Qed.

(** Replacing a stored round exchanges its games in the totals of its
    event only. *)
Lemma gameTotal_replace (p : Game -> bool) (E : gmap string EventDoc)
  (R : gmap (string * string) RoundDoc) (eid k ev : string) (d0 d : RoundDoc) :
  R !! (eid, k) = Some d0 ->
  gameTotal p (mkFirestore E (<[(eid, k) := d]> R)) ev =
  gameTotal p (mkFirestore E R) ev
  + (if decide (eid = ev)
     then countGames p (doc_games d) - countGames p (doc_games d0) else 0).
Proof.
  intros Hk. rewrite !gameTotal_weigh. unfold roundsOf. cbn [rounds].
  destruct (decide (eid = ev)) as [->|Hne].
  - rewrite map_filter_insert_True by reflexivity.
    rewrite (weigh_insert_stored _ _ _ d0); [lia|].
    apply map_lookup_filter_Some. split; [exact Hk | reflexivity].
  - rewrite map_filter_insert_not by (intros y; cbn; exact Hne). lia.
Qed.

(** Removing a stored round takes its games out of the totals of its event
    only. *)
Lemma gameTotal_remove (p : Game -> bool) (E : gmap string EventDoc)
  (R : gmap (string * string) RoundDoc) (eid k ev : string) (d0 : RoundDoc) :
  R !! (eid, k) = Some d0 ->
  gameTotal p (mkFirestore E (delete (eid, k) R)) ev =
  gameTotal p (mkFirestore E R) ev
  + (if decide (eid = ev) then - countGames p (doc_games d0) else 0).
Proof.
  intros Hk. rewrite !gameTotal_weigh. unfold roundsOf. cbn [rounds].
  rewrite map_filter_delete.
  destruct (decide (eid = ev)) as [->|Hne].
  - rewrite (weigh_delete _ (filter _ R) (ev, k) d0); [lia|].
    apply map_lookup_filter_Some. split; [exact Hk | reflexivity].
  - rewrite delete_id by (apply roundsOf_other_event; exact Hne). lia.
Qed.

(** The counters stay the game totals when the counters of one event
    change by what the totals of that event change by. *)
Lemma countersCountGames_step (delta : (Game -> bool) -> Z) (db : Firestore)
  (R' : gmap (string * string) RoundDoc) (eid ev : string) (e : EventDoc) :
  events db !! eid = Some e ->
  (forall p, gameTotal p (mkFirestore (events db) R') ev =
             gameTotal p db ev + (if decide (eid = ev) then delta p else 0)) ->
  countersCountGames db ev ->
  countersCountGames
    (mkFirestore
       (<[eid := increment e (delta isWin) (delta isLoss) (delta isDraw)]> (events db)) R')
    ev.
Proof.
  intros He Hstep (e0 & He0 & Hw & Hl & Hd).
  pose proof (Hstep isWin) as Sw. pose proof (Hstep isLoss) as Sl.
  pose proof (Hstep isDraw) as Sd.
  unfold countersCountGames.
  destruct (decide (eid = ev)) as [->|Hne].
  - assert (e0 = e) as -> by congruence.
    exists (increment e (delta isWin) (delta isLoss) (delta isDraw)).
    cbn [events]. rewrite lookup_insert_eq. split; [reflexivity|].
    cbn [increment wins losses draws].
    change (gameTotal ?p (mkFirestore _ R') ev)
      with (gameTotal p (mkFirestore (events db) R') ev).
    rewrite Sw, Sl, Sd. lia.
  - exists e0. cbn [events]. rewrite lookup_insert_ne by exact Hne.
    split; [exact He0|].
    change (gameTotal ?p (mkFirestore _ R') ev)
      with (gameTotal p (mkFirestore (events db) R') ev).
    rewrite Sw, Sl, Sd. lia.
Qed.

(** C1 as amended.  The stored counters of an event count games, not
    rounds: whenever they equal the numbers of won, lost and drawn games
    over the rounds stored under the event, they still do after a round
    was added, edited or deleted in any event, provided the mutation went
    through and the user interface was up to date with the database. *)
Theorem counters_count_games_preserved
  (currentUser : option string) (now : Z) (autoId eventId : string) (m : Mutation)
  (db db' : Firestore) (ev : string) :
  upToDate autoId eventId m db ->
  perform currentUser now autoId eventId m db = (db', completed m) ->
  countersCountGames db ev ->
  countersCountGames db' ev.
Proof.
  intros Hup Hrun Hinv. destruct db as [E R].
  destruct m as [inks gs | rid rd inks gs | rid gs];
    cbn [perform completed upToDate rounds] in *.
  - apply handleSubmit_added in Hrun as (e & He & ->).
    cbn [RoundForm.eventId events rounds] in *.
    apply (countersCountGames_step (fun p => countGames p gs) (mkFirestore E R));
      [exact He | | exact Hinv].
    intros p. cbn [events].
    rewrite (gameTotal_add p E R eventId autoId ev _ Hup). reflexivity.
  - destruct Hup as (d0 & r & Hd0 & -> & Hgames).
    apply handleSubmit_updated in Hrun as (rid' & e & d & Hid & He & Hd & ->).
    cbn [RoundForm.eventId RoundForm.roundId RoundForm.roundData events rounds
         loadedGames] in *.
    assert (rid' = rid) as -> by congruence.
    assert (d = d0) as -> by congruence.
    apply (countersCountGames_step
             (fun p => countGames p gs - countGames p (games r)) (mkFirestore E R));
      [exact He | | exact Hinv].
    intros p. cbn [events].
    rewrite (gameTotal_replace p E R eventId rid ev d0 _ Hd0).
    cbn [doc_games]. rewrite Hgames. reflexivity.
  - destruct Hup as (d0 & Hd0 & ->).
    apply handleDeleteRound_deleted in Hrun as (e & He & ->).
    cbn [events rounds] in *.
    apply (countersCountGames_step
             (fun p => - countGames p (doc_games d0)) (mkFirestore E R));
      [exact He | | exact Hinv].
    intros p. cbn [events].
    rewrite (gameTotal_remove p E R eventId rid ev d0 Hd0). reflexivity.
Qed.

(** Adding the first round, of one game won, to an event whose counters are
    zero keeps the counters equal to the game totals. *)
Lemma counters_count_games_preserved_witness :
  let m := AddRound ["Amber"%string] [mkGame "win" true] in
  let after := perform (Some "u"%string) 7 "r1" "e1" m freshEvent in
  upToDate "r1" "e1" m freshEvent /\
  after = (fst after, completed m) /\
  countersCountGames freshEvent "e1" /\
  countersCountGames (fst after) "e1".
Proof.
  cbv zeta.
  assert (countersCountGames freshEvent "e1") as Hinv
    by (exists (eventWith 0 0 0); repeat split).
  split; [reflexivity|]. split; [reflexivity|]. split; [exact Hinv|].
  apply (counters_count_games_preserved (Some "u"%string) 7 "r1" "e1"
           (AddRound ["Amber"%string] [mkGame "win" true]) freshEvent _ "e1").
  - reflexivity.
  - reflexivity.
  - exact Hinv.
Defined.

(** C1, counterexample.  On an event without rounds whose counters are
    zero, adding a round of two won games goes through and leaves
    [wins = 2] although only one stored round has the outcome win. *)
Lemma counters_do_not_count_rounds :
  let m := AddRound ["Amber"%string] [mkGame "win" true; mkGame "win" false] in
  let after := perform (Some "u"%string) 7 "r1" "e1" m freshEvent in
  upToDate "r1" "e1" m freshEvent /\
  countersCountRounds freshEvent "e1" /\
  snd after = completed m /\
  events (fst after) !! "e1"%string = Some (eventWith 2 0 0) /\
  outcomeTotal Win (fst after) "e1" = 1 /\
  ~ countersCountRounds (fst after) "e1".
Proof.
  cbv zeta. split; [reflexivity|]. split.
  { exists (eventWith 0 0 0). repeat split. }
  split; [reflexivity|]. split; [reflexivity|]. split; [reflexivity|].
  intros (e & He & Hw & _).
  vm_compute in He. injection He as <-.
  vm_compute in Hw. discriminate Hw.
Qed.

(** C2 as amended.  A submission of a new round with at least one ink
    colour and one game, by a signed-in user, on an existing event, goes
    through: it stores the round and adds to [wins], [losses] and [draws]
    the numbers of won, lost and drawn games of the round.  No outcome is
    derived, and nothing else of the event changes. *)
Theorem add_round_adds_game_counts
  (user : string) (now : Z) (autoId : string) (p : RoundForm.Props)
  (opponentInkColors : list string) (games : list Game) (db : Firestore) (e : EventDoc) :
  truthy (RoundForm.roundId p) = false ->
  opponentInkColors <> [] ->
  games <> [] ->
  events db !! RoundForm.eventId p = Some e ->
  let after := RoundForm.handleSubmit (Some user) now autoId p opponentInkColors games db in
  snd after = Alert "Round added successfully!" /\
  rounds (fst after) !! (RoundForm.eventId p, autoId)
    = Some (mkRoundDoc opponentInkColors games now) /\
  exists e',
    events (fst after) !! RoundForm.eventId p = Some e' /\
    wins e' = wins e + countGames isWin games /\
    losses e' = losses e + countGames isLoss games /\
    draws e' = draws e + countGames isDraw games /\
    name e' = name e /\ type e' = type e /\
    userDeckId e' = userDeckId e /\ format e' = format e.
Proof.
  intros Hid Hinks Hgs He after. subst after.
  rewrite (handleSubmit_add user now autoId p opponentInkColors games db e Hid Hinks Hgs He).
  cbn [fst snd events rounds]. split; [reflexivity|]. split.
  - apply lookup_insert_eq.
  - eexists. split; [apply lookup_insert_eq|]. cbn. repeat split.
Qed.

(** A round of two wins and a loss added to a fresh event. *)
Lemma add_round_adds_game_counts_witness :
  let p := RoundForm.mkProps "e1" None None in
  let gs := [mkGame "win" true; mkGame "win" false; mkGame "loss" true] in
  let after := RoundForm.handleSubmit (Some "u"%string) 7 "r1" p ["Amber"%string] gs
                 freshEvent in
  snd after = Alert "Round added successfully!" /\
  rounds (fst after) !! (RoundForm.eventId p, "r1"%string)
    = Some (mkRoundDoc ["Amber"%string] gs 7) /\
  exists e',
    events (fst after) !! RoundForm.eventId p = Some e' /\
    wins e' = wins (eventWith 0 0 0) + countGames isWin gs /\
    losses e' = losses (eventWith 0 0 0) + countGames isLoss gs /\
    draws e' = draws (eventWith 0 0 0) + countGames isDraw gs /\
    name e' = name (eventWith 0 0 0) /\ type e' = type (eventWith 0 0 0) /\
    userDeckId e' = userDeckId (eventWith 0 0 0) /\ format e' = format (eventWith 0 0 0).
Proof.
  cbv zeta.
  apply (add_round_adds_game_counts "u" 7 "r1" (RoundForm.mkProps "e1" None None)
           ["Amber"%string] [mkGame "win" true; mkGame "win" false; mkGame "loss" true]
           freshEvent (eventWith 0 0 0)).
  - reflexivity.
  - discriminate.
  - discriminate.
  - reflexivity.
Defined.

(** C2, counterexample.  A new round of two wins and a loss has the
    outcome win by majority, yet adding it to an event with counters
    [0, 0, 0] leaves [wins = 2] and [losses = 1] instead of [wins = 1] and
    [losses = 0]. *)
Lemma add_round_not_one_per_outcome :
  let gs := [mkGame "win" true; mkGame "win" false; mkGame "loss" true] in
  let after := RoundForm.handleSubmit (Some "u"%string) 7 "r1"
                 (RoundForm.mkProps "e1" None None) ["Amber"%string] gs freshEvent in
  majority gs = Win /\
  outcome (EventDetail.deriveRound ("r1"%string, mkRoundDoc ["Amber"%string] gs 7)) = Win /\
  events freshEvent !! "e1"%string = Some (eventWith 0 0 0) /\
  snd after = Alert "Round added successfully!" /\
  events (fst after) !! "e1"%string = Some (eventWith 2 1 0) /\
  eventWith 2 1 0 <> eventWith (0 + 1) 0 0.
Proof.
  cbv zeta. repeat split; try reflexivity. discriminate.
Qed.

(** C3 as amended.  An edit that goes through adds to each counter the
    number of games with that result in the new game sequence minus their
    number in the round data loaded into the form (zero when none was
    passed).  The differences are not bounded by one: editing a round from
    [win, win] to [loss, loss, draw] on counters [2, 0, 0] gives
    [0, 2, 1]. *)
Theorem edit_round_adds_count_differences
  (user : string) (now : Z) (autoId : string) (p : RoundForm.Props) (roundId : string)
  (opponentInkColors : list string) (games : list Game) (db : Firestore)
  (e : EventDoc) (d : RoundDoc) :
  RoundForm.roundId p = Some roundId -> roundId <> ""%string ->
  opponentInkColors <> [] ->
  games <> [] ->
  events db !! RoundForm.eventId p = Some e ->
  rounds db !! (RoundForm.eventId p, roundId) = Some d ->
  let after := RoundForm.handleSubmit (Some user) now autoId p opponentInkColors games db in
  let oldGames := loadedGames (RoundForm.roundData p) in
  snd after = Alert "Round updated successfully!" /\
  (exists e',
     events (fst after) !! RoundForm.eventId p = Some e' /\
     wins e' - wins e = countGames isWin games - countGames isWin oldGames /\
     losses e' - losses e = countGames isLoss games - countGames isLoss oldGames /\
     draws e' - draws e = countGames isDraw games - countGames isDraw oldGames) /\
  (let before := oneWonRound 2 0 0 in
   let edited :=
     RoundForm.handleSubmit (Some user) now autoId
       (RoundForm.mkProps "e1" (Some "r1"%string) (Some shownRound)) ["Amber"%string]
       [mkGame "loss" true; mkGame "loss" false; mkGame "draw" true] before in
   events (fst edited) !! "e1"%string = Some (eventWith 0 2 1)).
Proof.
  intros Hid Hne Hinks Hgs He Hd after oldGames. subst after oldGames.
  rewrite (handleSubmit_edit user now autoId p roundId opponentInkColors games db e d
             Hid Hne Hinks Hgs He Hd).
  cbn [fst snd events rounds]. split; [reflexivity|]. split.
  - eexists. split; [apply lookup_insert_eq|]. cbn [increment wins losses draws].
    repeat split; lia.
  - cbv zeta.
    rewrite (handleSubmit_edit user now autoId _ "r1" _ _ (oneWonRound 2 0 0)
               (eventWith 2 0 0)
               (mkRoundDoc ["Amber"%string] [mkGame "win" true; mkGame "win" false] 7));
      try reflexivity; try discriminate.
Qed.

(** The edit of the example, on counters [2, 0, 0]. *)
Lemma edit_round_adds_count_differences_witness :
  let p := RoundForm.mkProps "e1" (Some "r1"%string) (Some shownRound) in
  let gs := [mkGame "loss" true; mkGame "loss" false; mkGame "draw" true] in
  let after := RoundForm.handleSubmit (Some "u"%string) 9 "r2" p ["Amber"%string] gs
                 (oneWonRound 2 0 0) in
  snd after = Alert "Round updated successfully!" /\
  exists e',
    events (fst after) !! "e1"%string = Some e' /\
    wins e' - 2 = 0 - 2 /\ losses e' - 0 = 2 - 0 /\ draws e' - 0 = 1 - 0.
Proof.
  cbv zeta.
  destruct (edit_round_adds_count_differences "u" 9 "r2"
              (RoundForm.mkProps "e1" (Some "r1"%string) (Some shownRound)) "r1"
              ["Amber"%string]
              [mkGame "loss" true; mkGame "loss" false; mkGame "draw" true]
              (oneWonRound 2 0 0) (eventWith 2 0 0)
              (mkRoundDoc ["Amber"%string] [mkGame "win" true; mkGame "win" false] 7))
    as (Hfb & (e' & He' & Hw & Hl & Hd) & _).
  - reflexivity.
  - discriminate.
  - discriminate.
  - discriminate.
  - reflexivity.
  - reflexivity.
  - split; [exact Hfb|]. exists e'. split; [exact He'|]. split; [exact Hw|].
    split; [exact Hl | exact Hd].
Defined.

(** C3, counterexample.  Editing a round from [win, win] (outcome win) to
    [loss, loss, draw] (outcome loss) on counters [1, 0, 0] goes through
    and gives [-1, 2, 1], not [0, 1, 0]: the wins change by -2 and the
    losses by +2. *)
Lemma edit_round_delta_not_unit :
  let oldGames := [mkGame "win" true; mkGame "win" false] in
  let newGames := [mkGame "loss" true; mkGame "loss" false; mkGame "draw" true] in
  let after := RoundForm.handleSubmit (Some "u"%string) 9 "r2"
                 (RoundForm.mkProps "e1" (Some "r1"%string) (Some shownRound))
                 ["Amber"%string] newGames (oneWonRound 1 0 0) in
  games shownRound = oldGames /\
  majority oldGames = Win /\ majority newGames = Loss /\
  events (oneWonRound 1 0 0) !! "e1"%string = Some (eventWith 1 0 0) /\
  snd after = Alert "Round updated successfully!" /\
  events (fst after) !! "e1"%string = Some (eventWith (-1) 2 1) /\
  eventWith (-1) 2 1 <> eventWith 0 1 0 /\
  ~ (-1 <= wins (eventWith (-1) 2 1) - wins (eventWith 1 0 0) <= 1).
Proof.
  cbv zeta. repeat split; try reflexivity.
  - discriminate.
  - cbn. lia.
Qed.

Lemma increment_back (e : EventDoc) (w l d : Z) :
  increment (increment e w l d) (- w) (- l) (- d) = e.
Proof.
  destruct e. unfold increment. cbn. f_equal; lia.
Qed.

(** C5.  When a new round is submitted and goes through, and the round is
    then deleted with its games, both handlers report success and the
    [events] collection, hence the event's [wins], [losses] and [draws],
    is what it was before the round was added; if the id of the round was
    unused before, so is the whole database. *)
Theorem add_then_delete_restores_counters
  (user : string) (now : Z) (autoId : string) (p : RoundForm.Props)
  (opponentInkColors : list string) (games : list Game) (db : Firestore) (e : EventDoc) :
  truthy (RoundForm.roundId p) = false ->
  opponentInkColors <> [] ->
  games <> [] ->
  events db !! RoundForm.eventId p = Some e ->
  let added := RoundForm.handleSubmit (Some user) now autoId p opponentInkColors games db in
  let deleted := EventList.handleDeleteRound (Some user) true (RoundForm.eventId p) autoId
                   games (fst added) in
  snd added = Alert "Round added successfully!" /\
  snd deleted = Alert "Round deleted successfully!" /\
  events (fst deleted) = events db /\
  events (fst deleted) !! RoundForm.eventId p = Some e /\
  (rounds db !! (RoundForm.eventId p, autoId) = None -> fst deleted = db).
Proof.
  intros Hid Hinks Hgs He added deleted. subst deleted added.
  rewrite (handleSubmit_add user now autoId p opponentInkColors games db e Hid Hinks Hgs He).
  cbn [fst snd].
  rewrite (handleDeleteRound_confirmed user (RoundForm.eventId p) autoId games _
             (increment e (countGames isWin games) (countGames isLoss games)
                          (countGames isDraw games)))
    by (cbn [events]; apply lookup_insert_eq).
  cbn [fst snd events rounds].
  rewrite increment_back, insert_insert_eq, (insert_id _ _ _ He).
  split; [reflexivity|]. split; [reflexivity|]. split; [reflexivity|].
  split; [exact He|].
  intros Hfresh. rewrite (delete_insert_id _ _ _ Hfresh). destruct db; reflexivity.
Qed.

(** A round of a win and a loss added to an event with one round, then
    deleted. *)
Lemma add_then_delete_restores_counters_witness :
  let p := RoundForm.mkProps "e1" None None in
  let gs := [mkGame "win" true; mkGame "loss" false] in
  let db := oneWonRound 2 0 0 in
  let added := RoundForm.handleSubmit (Some "u"%string) 9 "r2" p ["Ruby"%string] gs db in
  let deleted := EventList.handleDeleteRound (Some "u"%string) true "e1" "r2" gs
                   (fst added) in
  events (fst added) !! "e1"%string = Some (eventWith 3 1 0) /\
  events (fst deleted) !! "e1"%string = Some (eventWith 2 0 0).
Proof.
  cbv zeta. split; [reflexivity|].
  refine (proj1 (proj2 (proj2 (proj2
    (add_then_delete_restores_counters "u" 9 "r2" (RoundForm.mkProps "e1" None None)
       ["Ruby"%string] [mkGame "win" true; mkGame "loss" false] (oneWonRound 2 0 0)
       (eventWith 2 0 0) _ _ _ _))))).
  - reflexivity.
  - discriminate.
  - discriminate.
  - reflexivity.
Defined.

(** The [rounds] collection after a submission with a round id set is the
    collection before, or the collection before with the two fields of that
    round replaced. *)
Lemma handleSubmit_edit_rounds currentUser now autoId p rid inks gs db :
  RoundForm.roundId p = Some rid -> rid <> ""%string ->
  let after := RoundForm.handleSubmit currentUser now autoId p inks gs db in
  (rounds (fst after) = rounds db /\ snd after <> Alert "Round updated successfully!") \/
  (exists d,
     rounds db !! (RoundForm.eventId p, rid) = Some d /\
     rounds (fst after) =
       <[(RoundForm.eventId p, rid) := mkRoundDoc inks gs (doc_createdAt d)]> (rounds db)).
Proof.
  intros Hid Hne after. subst after. unfold RoundForm.handleSubmit.
  destruct currentUser as [user|]; [|left; split; [reflexivity | discriminate]].
  destruct inks as [|ink inks]; [left; split; [reflexivity | discriminate]|].
  destruct gs as [|g gs]; [left; split; [reflexivity | discriminate]|].
  cbn [length Nat.eqb]. rewrite Hid.
  assert (truthy (Some rid) = true) as ->.
  { cbn. destruct (String.eqb_spec rid ""); [contradiction | reflexivity]. }
  change (default ""%string (Some rid)) with rid.
  destruct (countResults (g :: gs)) as [[w l] dr].
  unfold RoundForm.submitEdit.
  destruct (RoundForm.previousCounts (RoundForm.roundData p)) as [[pw pl] pd].
  unfold bind, updateRound, incrementCounters, ret.
  destruct (rounds db !! (RoundForm.eventId p, rid)) as [d|] eqn:Hd.
  - right. exists d. split; [reflexivity|].
    cbn [events rounds]. destruct (events db !! RoundForm.eventId p); reflexivity.
  - left. split; [reflexivity | discriminate].
Qed.

(** C10.  A submission that edits a round touches no other round
    document, creates and removes none, and leaves the round under its id
    with its [createdAt]: the round is either unchanged or has exactly its
    [opponentInkColors] and [games] replaced, the latter whenever the edit
    is reported as done. *)
Theorem edit_round_frame
  (currentUser : option string) (now : Z) (autoId : string) (p : RoundForm.Props)
  (roundId : string) (opponentInkColors : list string) (games : list Game)
  (db : Firestore) :
  RoundForm.roundId p = Some roundId -> roundId <> ""%string ->
  let after := RoundForm.handleSubmit currentUser now autoId p opponentInkColors games db in
  let path := (RoundForm.eventId p, roundId) in
  (forall other, other <> path -> rounds (fst after) !! other = rounds db !! other) /\
  dom (rounds (fst after)) = dom (rounds db) /\
  doc_createdAt <$> rounds (fst after) !! path = doc_createdAt <$> rounds db !! path /\
  (rounds (fst after) !! path = rounds db !! path \/
   exists d, rounds db !! path = Some d /\
             rounds (fst after) !! path
               = Some (mkRoundDoc opponentInkColors games (doc_createdAt d))) /\
  (snd after = Alert "Round updated successfully!" ->
   exists d, rounds db !! path = Some d /\
             rounds (fst after) !! path
               = Some (mkRoundDoc opponentInkColors games (doc_createdAt d))).
Proof.
  intros Hid Hne after path.
  destruct (handleSubmit_edit_rounds currentUser now autoId p roundId opponentInkColors
              games db Hid Hne) as [[Hsame Hfb] | (d & Hd & Hnew)].
  - fold after in Hsame, Hfb. rewrite Hsame. repeat split; auto.
    intros H. contradiction.
  - fold after in Hnew. fold path in Hd, Hnew. rewrite Hnew. repeat split.
    + intros other Hother. apply lookup_insert_ne. congruence.
    + apply dom_insert_lookup_L. rewrite Hd. eauto.
    + rewrite lookup_insert_eq, Hd. reflexivity.
    + right. exists d. split; [exact Hd | apply lookup_insert_eq].
    + intros _. exists d. split; [exact Hd | apply lookup_insert_eq].
Qed.

(** The edit of the round ["r1"] of the example. *)
Lemma edit_round_frame_witness :
  let gs := [mkGame "loss" true; mkGame "loss" false; mkGame "draw" true] in
  let after := RoundForm.handleSubmit (Some "u"%string) 9 "r2"
                 (RoundForm.mkProps "e1" (Some "r1"%string) (Some shownRound))
                 ["Ruby"%string] gs (oneWonRound 2 0 0) in
  rounds (oneWonRound 2 0 0) !! ("e1"%string, "r1"%string)
    = Some (mkRoundDoc ["Amber"%string] [mkGame "win" true; mkGame "win" false] 7) /\
  rounds (fst after) !! ("e1"%string, "r1"%string) = Some (mkRoundDoc ["Ruby"%string] gs 7) /\
  dom (rounds (fst after)) = dom (rounds (oneWonRound 2 0 0)).
Proof.
  cbv zeta. split; [reflexivity|]. split; [reflexivity|].
  refine (proj1 (proj2
    (edit_round_frame (Some "u"%string) 9 "r2"
       (RoundForm.mkProps "e1" (Some "r1"%string) (Some shownRound)) "r1"
       ["Ruby"%string] [mkGame "loss" true; mkGame "loss" false; mkGame "draw" true]
       (oneWonRound 2 0 0) _ _))).
  - reflexivity.
  - discriminate.
Defined.

(** ** Further properties of the statistics *)

Lemma countOutcome_total gss :
  countOutcome Win gss + countOutcome Loss gss + countOutcome Draw gss
  = Z.of_nat (length gss).
Proof.
  induction gss as [|gs gss IH]; [reflexivity|].
  rewrite !countOutcome_cons. cbn [length].
  destruct (majority gs); cbn [Outcome_eqb Z.b2z]; lia.
Qed.

Lemma countGames_valid gs :
  countGames isWin gs + countGames isLoss gs + countGames isDraw gs
  = countGames validResult gs.
Proof.
  induction gs as [|g gs IH]; [reflexivity|].
  rewrite !countGames_cons. unfold validResult at 1.
  case_result g; cbn [orb]; lia.
Qed.

Lemma countGames_le_length p gs : countGames p gs <= Z.of_nat (length gs).
Proof.
  induction gs as [|g gs IH]; [reflexivity|].
  rewrite countGames_cons. cbn [length]. destruct (p g); lia.
Qed.

Lemma countGames_split_play p gs :
  countGames (onPlay p) gs + countGames (onDraw p) gs = countGames p gs.
Proof.
  induction gs as [|g gs IH]; [reflexivity|].
  rewrite !countGames_cons. unfold onPlay, onDraw in *.
  destruct (onThePlay g), (p g); cbn [andb negb]; lia.
Qed.

Lemma countGames_play_total gs :
  countGames onThePlay gs + countGames (fun g => negb (onThePlay g)) gs
  = Z.of_nat (length gs).
Proof.
  induction gs as [|g gs IH]; [reflexivity|].
  rewrite !countGames_cons. cbn [length negb]. destruct (onThePlay g); cbn [negb]; lia.
Qed.

(** X1.  In the statistics of the event view every round is counted in
    exactly one of matches won, lost and drawn: the three add up to the
    number of rounds. *)
Theorem match_record_partitions_rounds (rounds : list Round) :
  let s := EventDetail.computeStats rounds in
  Stats.matchesWon s + Stats.matchesLost s + Stats.matchesDrawn s
  = Z.of_nat (length rounds) /\
  0 <= Stats.matchesWon s /\ 0 <= Stats.matchesLost s /\ 0 <= Stats.matchesDrawn s.
Proof.
  cbv zeta. unfold EventDetail.computeStats.
  cbn [Stats.matchesWon Stats.matchesLost Stats.matchesDrawn].
  rewrite totals_expected. unfold expectedTotals.
  cbn [Acc.matchesWon Acc.matchesLost Acc.matchesDrawn].
  pose proof (countOutcome_total (map games rounds)) as H. rewrite length_map in H.
  unfold countOutcome in *. lia.
Qed.

(** X2.  The game record of the event view counts the games whose result
    is win, loss or draw: won + lost + drawn is the number of such games,
    which is at most the number of games counted as played, and the games
    played first and second add up to the games played. *)
Theorem game_record_counts_valid_games (rounds : list Round) :
  let a := EventDetail.totals rounds in
  let s := EventDetail.computeStats rounds in
  Stats.gamesWon s + Stats.gamesLost s + Stats.gamesDrawn s
  = countGames validResult (allGames rounds) /\
  Stats.gamesWon s + Stats.gamesLost s + Stats.gamesDrawn s <= Acc.totalGames a /\
  Acc.totalGames a = Z.of_nat (length (allGames rounds)) /\
  Acc.gamesPlayedOnPlay a + Acc.gamesPlayedOnDraw a = Acc.totalGames a /\
  Acc.gamesWonOnPlay a + Acc.gamesWonOnDraw a = Stats.gamesWon s.
Proof.
  cbv zeta. unfold EventDetail.computeStats.
  cbn [Stats.gamesWon Stats.gamesLost Stats.gamesDrawn].
  rewrite totals_expected. unfold expectedTotals, allGames. cbv zeta.
  cbn [Acc.gamesWon Acc.gamesLost Acc.gamesDrawn Acc.totalGames Acc.gamesPlayedOnPlay
       Acc.gamesPlayedOnDraw Acc.gamesWonOnPlay Acc.gamesWonOnDraw].
  set (all := concat (map games rounds)).
  pose proof (countGames_valid all). pose proof (countGames_le_length validResult all).
  pose proof (countGames_play_total all). pose proof (countGames_split_play isWin all).
  repeat split; lia.
Qed.

Lemma countGames_onPlay_le p gs :
  countGames (onPlay p) gs <= countGames onThePlay gs.
Proof.
  induction gs as [|g gs IH]; [reflexivity|].
  rewrite !countGames_cons. unfold onPlay in *.
  destruct (onThePlay g), (p g); cbn [andb]; lia.
Qed.

Lemma countGames_onDraw_le p gs :
  countGames (onDraw p) gs <= countGames (fun g => negb (onThePlay g)) gs.
Proof.
  induction gs as [|g gs IH]; [reflexivity|].
  rewrite !countGames_cons. unfold onDraw in *.
  destruct (onThePlay g), (p g); cbn [andb negb]; lia.
Qed.

(** X4.  The accumulators of the statistics loop over two lists of rounds
    one after the other are the field-wise sums of the accumulators over
    each list, so statistics can be gathered list by list. *)
Theorem totals_of_concatenation (rounds1 rounds2 : list Round) :
  EventDetail.totals (rounds1 ++ rounds2)
  = Acc.plus (EventDetail.totals rounds1) (EventDetail.totals rounds2).
Proof.
  rewrite !totals_spec, map_app. apply sumAcc_app.
Qed.

(** X5.  On a derived round the wins, losses and draws are each the sum of
    their on-play and on-draw parts, and together they count the games
    whose result is win, loss or draw, at most the number of games. *)
Theorem round_counts_split (roundDoc : string * RoundDoc) :
  let r := EventDetail.deriveRound roundDoc in
  roundWins r = onPlayWins r + onDrawWins r /\
  roundLosses r = onPlayLosses r + onDrawLosses r /\
  roundDraws r = onPlayDraws r + onDrawDraws r /\
  roundWins r + roundLosses r + roundDraws r = countGames validResult (games r) /\
  roundWins r + roundLosses r + roundDraws r <= Z.of_nat (length (games r)).
Proof.
  cbv zeta. unfold EventDetail.deriveRound.
  cbn [roundWins roundLosses roundDraws onPlayWins onPlayLosses onPlayDraws onDrawWins
       onDrawLosses onDrawDraws games].
  set (gs := doc_games (snd roundDoc)).
  pose proof (tallyGames_fields gs) as H. cbv zeta in H.
  destruct H as (-> & -> & -> & -> & -> & -> & -> & -> & ->).
  pose proof (countGames_split_play isWin gs). pose proof (countGames_split_play isLoss gs).
  pose proof (countGames_split_play isDraw gs). pose proof (countGames_valid gs).
  pose proof (countGames_le_length validResult gs).
  repeat split; lia.
Qed.

Lemma countRounds_derived o docs :
  countRounds o (map EventDetail.deriveRound docs)
  = countOutcome o (map (fun d => doc_games (snd d)) docs).
Proof.
  unfold countRounds, countOutcome.
  induction docs as [|d docs IH]; [reflexivity|].
  cbn [map List.filter]. rewrite deriveRound_outcome.
  destruct (Outcome_eqb (majority (doc_games (snd d))) o); cbn [length]; lia.
Qed.

Lemma sum_round_counts (p : Game -> bool) (f : Round -> Z) docs :
  (forall d, f (EventDetail.deriveRound d) = countGames p (doc_games (snd d))) ->
  sumZ (map f (map EventDetail.deriveRound docs))
  = countGames p (concat (map (fun d => doc_games (snd d)) docs)).
Proof.
  intros Hf. induction docs as [|d docs IH]; [reflexivity|].
  cbn [map concat sumZ fold_right]. fold (sumZ (map f (map EventDetail.deriveRound docs))).
  rewrite countGames_app, IH, Hf. reflexivity.
Qed.

(** X6.  The record line of the event view agrees with the round cards
    below it: matches won, lost and drawn are the numbers of derived
    rounds with that outcome, and games won, lost and drawn are the sums
    of the rounds' wins, losses and draws. *)
Theorem record_agrees_with_round_cards (docs : list (string * RoundDoc)) :
  let fetchedRounds := map EventDetail.deriveRound docs in
  let s := EventDetail.computeStats fetchedRounds in
  Stats.matchesWon s = countRounds Win fetchedRounds /\
  Stats.matchesLost s = countRounds Loss fetchedRounds /\
  Stats.matchesDrawn s = countRounds Draw fetchedRounds /\
  Stats.gamesWon s = sumZ (map roundWins fetchedRounds) /\
  Stats.gamesLost s = sumZ (map roundLosses fetchedRounds) /\
  Stats.gamesDrawn s = sumZ (map roundDraws fetchedRounds).
Proof.
  cbv zeta. unfold EventDetail.computeStats.
  cbn [Stats.matchesWon Stats.matchesLost Stats.matchesDrawn Stats.gamesWon Stats.gamesLost
       Stats.gamesDrawn].
  rewrite totals_expected, map_map. cbn [EventDetail.deriveRound games].
  unfold expectedTotals.
  cbn [Acc.matchesWon Acc.matchesLost Acc.matchesDrawn Acc.gamesWon Acc.gamesLost
       Acc.gamesDrawn].
  rewrite !countRounds_derived.
  rewrite (sum_round_counts isWin roundWins), (sum_round_counts isLoss roundLosses),
    (sum_round_counts isDraw roundDraws).
  - repeat split.
  - intros d. pose proof (tallyGames_fields (doc_games (snd d))) as H. apply H.
  - intros d. pose proof (tallyGames_fields (doc_games (snd d))) as H. apply H.
  - intros d. pose proof (tallyGames_fields (doc_games (snd d))) as H. apply H.
Qed.

(** X7.  The statistics fold reads nothing of a round but its games: two
    lists of rounds with the same game sequences, whatever their ids, ink
    colours, dates and stored derived fields, have the same statistics. *)
Theorem computeStats_reads_only_games (rounds rounds' : list Round) :
  map games rounds = map games rounds' ->
  EventDetail.computeStats rounds = EventDetail.computeStats rounds'.
Proof.
  intros H. unfold EventDetail.computeStats.
  rewrite !totals_expected, H. reflexivity.
Qed.

(** A round with a wrong stored outcome counts like the derived one. *)
Lemma computeStats_reads_only_games_witness :
  let r := EventDetail.deriveRound (wonRound "r1") in
  let r' := mkRound "other" [] (games r) 99 Loss 0 5 0 0 0 0 0 0 0 in
  map games [r] = map games [r'] /\
  EventDetail.computeStats [r] = EventDetail.computeStats [r'].
Proof.
  cbv zeta. split; [reflexivity|].
  apply computeStats_reads_only_games. reflexivity.
Defined.

(** ** The round form *)

Lemma insertBy_permutation {A : Type} (leb : A -> A -> bool) x l :
  Permutation (insertBy leb x l) (x :: l).
Proof.
  induction l as [|y l IH]; cbn [insertBy]; [reflexivity|].
  destruct (leb x y); [reflexivity|].
  rewrite IH. apply perm_swap.
Qed.

Lemma sortBy_permutation {A : Type} (leb : A -> A -> bool) l :
  Permutation (sortBy leb l) l.
Proof.
  induction l as [|x l IH]; [reflexivity|].
  cbn [sortBy fold_right]. fold (sortBy leb l).
  rewrite insertBy_permutation, IH. reflexivity.
Qed.

Lemma sortBy_In {A : Type} (leb : A -> A -> bool) l x :
  In x (sortBy leb l) <-> In x l.
Proof.
  split; apply Permutation_in; [|symmetry]; apply sortBy_permutation.
Qed.

(** Inserting into a list in order keeps it in order, for a total and
    transitive [leb]. *)
Lemma insertBy_sorted {A : Type} (leb : A -> A -> bool) x l :
  (forall a b, leb a b = true \/ leb b a = true) ->
  (forall a b c, leb a b = true -> leb b c = true -> leb a c = true) ->
  StronglySorted (fun a b => leb a b = true) l ->
  StronglySorted (fun a b => leb a b = true) (insertBy leb x l).
Proof.
  intros Htotal Htrans Hl. induction Hl as [|y l Hl IH Hy]; cbn [insertBy].
  - repeat constructor.
  - destruct (leb x y) eqn:Hxy.
    + constructor; [constructor; assumption|].
      constructor; [exact Hxy|].
      eapply Forall_impl; [exact Hy|]. intros z Hyz. exact (Htrans x y z Hxy Hyz).
    + constructor; [exact IH|].
      assert (leb y x = true) as Hyx by (destruct (Htotal x y); congruence).
      apply Forall_forall. intros z Hz.
      apply list_elem_of_In, (Permutation_in _ (insertBy_permutation leb x l)) in Hz.
      destruct Hz as [<-|Hz]; [exact Hyx|].
      rewrite Forall_forall in Hy. apply Hy, list_elem_of_In, Hz.
Qed.

Lemma sortBy_sorted {A : Type} (leb : A -> A -> bool) l :
  (forall a b, leb a b = true \/ leb b a = true) ->
  (forall a b c, leb a b = true -> leb b c = true -> leb a c = true) ->
  StronglySorted (fun a b => leb a b = true) (sortBy leb l).
Proof.
  intros Htotal Htrans. induction l as [|x l IH]; [constructor|].
  cbn [sortBy fold_right]. apply insertBy_sorted; assumption.
Qed.

(** Sorting a list that is in order changes nothing. *)
Lemma sortBy_sorted_id {A : Type} (leb : A -> A -> bool) l :
  StronglySorted (fun a b => leb a b = true) l -> sortBy leb l = l.
Proof.
  induction 1 as [|x l Hl IH Hx]; [reflexivity|].
  cbn [sortBy fold_right]. fold (sortBy leb l). rewrite IH.
  destruct l as [|y l]; [reflexivity|].
  cbn [insertBy]. inversion Hx as [|? ? Hxy _]; subst. rewrite Hxy. reflexivity.
Qed.

(** Two lists in order with the same elements are equal, for an
    antisymmetric [leb]. *)
Lemma sorted_unique {A : Type} (leb : A -> A -> bool) :
  (forall a, leb a a = true) ->
  (forall a b, leb a b = true -> leb b a = true -> a = b) ->
  forall l1 l2,
    StronglySorted (fun a b => leb a b = true) l1 ->
    StronglySorted (fun a b => leb a b = true) l2 ->
    Permutation l1 l2 -> l1 = l2.
Proof.
  intros Hrefl Hanti l1. induction l1 as [|a l1 IH]; intros l2 H1 H2 Hp.
  - apply Permutation_nil in Hp. congruence.
  - destruct l2 as [|b l2]; [apply Permutation_sym, Permutation_nil in Hp; discriminate|].
    inversion H1 as [|? ? H1' Ha]; subst. inversion H2 as [|? ? H2' Hb]; subst.
    assert (a = b) as ->.
    { apply Hanti.
      - assert (In b (a :: l1)) as Hin
          by (apply (Permutation_in _ (Permutation_sym Hp)); left; reflexivity).
        destruct Hin as [->|Hin]; [apply Hrefl|].
        rewrite Forall_forall in Ha. apply Ha, list_elem_of_In, Hin.
      - assert (In a (b :: l2)) as Hin by (apply (Permutation_in _ Hp); left; reflexivity).
        destruct Hin as [->|Hin]; [apply Hrefl|].
        rewrite Forall_forall in Hb. apply Hb, list_elem_of_In, Hin. }
    f_equal. apply IH; [assumption | assumption |].
    apply Permutation_cons_inv in Hp. exact Hp.
Qed.

Lemma filter_sorted {A : Type} (R : A -> A -> Prop) (p : A -> bool) l :
  StronglySorted R l -> StronglySorted R (List.filter p l).
Proof.
  induction 1 as [|x l Hl IH Hx]; cbn [List.filter]; [constructor|].
  destruct (p x); [|exact IH].
  constructor; [exact IH|].
  apply Forall_forall. intros y Hy. apply list_elem_of_In, filter_In in Hy.
  rewrite Forall_forall in Hx. apply Hx, list_elem_of_In, Hy.
Qed.

Lemma filter_permutation {A : Type} (p : A -> bool) l1 l2 :
  Permutation l1 l2 -> Permutation (List.filter p l1) (List.filter p l2).
Proof.
  induction 1 as [|x l1 l2 _ IH|x y l|l1 l2 l3 _ IH1 _ IH2]; cbn [List.filter].
  - reflexivity.
  - destruct (p x); [apply perm_skip|]; exact IH.
  - destruct (p x), (p y); try reflexivity. apply perm_swap.
  - etransitivity; eassumption.
Qed.

(** The order of strings by code unit is reflexive and transitive. *)
Lemma ascii_compare_refl c : Ascii.compare c c = Eq.
Proof. unfold Ascii.compare. apply N.compare_refl. Qed.

Lemma string_compare_refl s : String.compare s s = Eq.
Proof.
  induction s as [|c s IH]; [reflexivity|].
  cbn [String.compare]. rewrite ascii_compare_refl. exact IH.
Qed.

Lemma string_leb_refl s : String.leb s s = true.
Proof. unfold String.leb. rewrite string_compare_refl. reflexivity. Qed.

Lemma string_compare_trans s1 : forall s2 s3,
  String.compare s1 s2 <> Gt -> String.compare s2 s3 <> Gt -> String.compare s1 s3 <> Gt.
Proof.
  induction s1 as [|a s1 IH]; intros [|b s2] [|c s3]; cbn [String.compare];
    try congruence.
  destruct (Ascii.compare a b) eqn:Hab; try congruence;
    destruct (Ascii.compare b c) eqn:Hbc; try congruence; intros H12 H23.
  - apply Ascii.compare_eq_iff in Hab, Hbc. subst. rewrite ascii_compare_refl.
    eapply IH; eassumption.
  - apply Ascii.compare_eq_iff in Hab. subst. rewrite Hbc. discriminate.
  - apply Ascii.compare_eq_iff in Hbc. subst. rewrite Hab. discriminate.
  - unfold Ascii.compare in *. rewrite N.compare_lt_iff in Hab, Hbc.
    assert ((Ascii.N_of_ascii a ?= Ascii.N_of_ascii c)%N = Lt) as ->
      by (apply N.compare_lt_iff; lia).
    discriminate.
Qed.

Lemma string_leb_trans a b c :
  String.leb a b = true -> String.leb b c = true -> String.leb a c = true.
Proof.
  unfold String.leb. intros Hab Hbc.
  pose proof (string_compare_trans a b c) as H.
  destruct (String.compare a b); try discriminate;
    destruct (String.compare b c); try discriminate;
    destruct (String.compare a c); try reflexivity;
    exfalso; apply H; congruence.
Qed.

Lemma jsSort_ascending l : ascending (jsSort l).
Proof.
  apply sortBy_sorted; [apply String.leb_total | apply string_leb_trans].
Qed.

Lemma includes_In x l : includes x l = true <-> In x l.
Proof.
  unfold includes. rewrite existsb_exists. split.
  - intros (y & Hy & Heq). apply String.eqb_eq in Heq. congruence.
  - intros H. exists x. split; [exact H | apply String.eqb_refl].
Qed.

Lemma includes_not_In x l : includes x l = false <-> ~ In x l.
Proof.
  rewrite <- includes_In. destruct (includes x l); split; congruence.
Qed.

Lemma filter_other_In (inkName x : string) l :
  In x (List.filter (fun color => negb (String.eqb color inkName)) l)
  <-> In x l /\ x <> inkName.
Proof.
  rewrite filter_In. split; intros [H1 H2]; split; try exact H1.
  - intros ->. rewrite String.eqb_refl in H2. discriminate.
  - destruct (String.eqb_spec x inkName); [contradiction | reflexivity].
Qed.

Lemma filter_other_absent (inkName : string) l :
  ~ In inkName l ->
  List.filter (fun color => negb (String.eqb color inkName)) l = l.
Proof.
  intros H. induction l as [|x l IH]; [reflexivity|].
  cbn [List.filter]. destruct (String.eqb_spec x inkName) as [->|Hne].
  - exfalso. apply H. left. reflexivity.
  - cbn [negb]. rewrite IH; [reflexivity|]. intros Hin. apply H. right. exact Hin.
Qed.

Lemma length_filterWithIndex {A : Type} (keep : A -> nat -> bool) l : forall i,
  (length (filterWithIndex keep i l) <= length l)%nat.
Proof.
  induction l as [|x l IH]; intros i; cbn [filterWithIndex length]; [lia|].
  destruct (keep x i); cbn [length]; specialize (IH (S i)); lia.
Qed.

Lemma filterWithIndex_all {A : Type} (keep : A -> nat -> bool) l : forall i,
  (forall x j, (i <= j)%nat -> keep x j = true) -> filterWithIndex keep i l = l.
Proof.
  induction l as [|x l IH]; intros i H; cbn [filterWithIndex]; [reflexivity|].
  rewrite (H x i) by lia. f_equal. apply IH. intros y j Hj. apply H. lia.
Qed.

(** Filtering out one index removes the element at that index. *)
Lemma filterWithIndex_remove {A : Type} (l : list A) : forall i k,
  filterWithIndex (fun _ j => negb (Nat.eqb j (k + i))) i l = take k l ++ drop (S k) l.
Proof.
  induction l as [|x l IH]; intros i k; cbn [filterWithIndex].
  - destruct k; reflexivity.
  - destruct k as [|k].
    + cbn [Nat.add]. rewrite Nat.eqb_refl. cbn [negb take drop app].
      rewrite drop_0. apply filterWithIndex_all.
      intros y j Hj. destruct (Nat.eqb_spec j i); [lia | reflexivity].
    + destruct (Nat.eqb_spec i (S k + i)) as [E|_]; [lia|].
      cbn [negb take drop app]. f_equal.
      replace (S k + i)%nat with (k + S i)%nat by lia. apply IH.
Qed.

Lemma handleInkColorToggle_limits inkName st :
  (length (Form.st_opponentInkColors st) <= 2)%nat /\ NoDup (Form.st_opponentInkColors st) ->
  (length (Form.st_opponentInkColors (Form.handleInkColorToggle inkName st)) <= 2)%nat /\
  NoDup (Form.st_opponentInkColors (Form.handleInkColorToggle inkName st)).
Proof.
  intros [Hlen Hnd]. unfold Form.handleInkColorToggle. cbv zeta.
  set (inks := Form.st_opponentInkColors st) in *.
  destruct (includes inkName inks) eqn:Hinc; cbn [Form.st_opponentInkColors].
  - unfold jsSort. split.
    + rewrite (Permutation_length (sortBy_permutation _ _)).
      pose proof (List.filter_length_le
                    (fun color => negb (String.eqb color inkName)) inks). lia.
    + apply NoDup_ListNoDup.
      apply (Permutation_NoDup (Permutation_sym (sortBy_permutation _ _))).
      apply List.NoDup_filter, NoDup_ListNoDup, Hnd.
  - destruct (Nat.ltb_spec (length inks) 2) as [Hlt|Hge]; cbn [Form.st_opponentInkColors].
    + unfold jsSort. split.
      * rewrite (Permutation_length (sortBy_permutation _ _)), length_app. cbn. lia.
      * apply NoDup_ListNoDup.
        apply (Permutation_NoDup (Permutation_sym (sortBy_permutation _ _))).
        apply NoDup_ListNoDup. apply NoDup_app. split; [exact Hnd|].
        split; [|apply NoDup_singleton].
        intros x Hx Hx'. apply list_elem_of_In in Hx.
        apply list_elem_of_singleton in Hx'. subst x.
        apply includes_not_In in Hinc. contradiction.
    + split; assumption.
Qed.

Lemma act_limits eventType a st st' :
  Form.act eventType a st = Some st' ->
  withinLimits eventType st -> withinLimits eventType st'.
Proof.
  intros Hact (Hgames & Hinks & Hnd).
  destruct a as [|index f|index|inkName]; cbn [Form.act] in Hact.
  - injection Hact as <-. unfold Form.handleAddGame. cbv zeta.
    destruct (String.eqb_spec eventType "Tournament") as [Het|Het].
    + destruct (Nat.ltb_spec (length (Form.st_games st)) 3) as [Hlt|Hge];
        (split; [|split; assumption]); intros _;
        cbn [Form.st_games]; rewrite ?length_app; cbn [length]; auto; lia.
    + split; [|split; assumption]. intros E. contradiction.
  - unfold Form.handleGameChange in Hact.
    destruct (Form.st_games st !! index); [|discriminate].
    injection Hact as <-. split; [|split; assumption].
    intros E. cbn [Form.st_games]. rewrite length_insert. auto.
  - injection Hact as <-. split; [|split; assumption].
    intros E. cbn [Form.handleRemoveGame Form.st_games].
    pose proof (length_filterWithIndex (fun (_ : Game) i => negb (Nat.eqb i index))
                  (Form.st_games st) 0).
    specialize (Hgames E). lia.
  - injection Hact as <-.
    destruct (handleInkColorToggle_limits inkName st (conj Hinks Hnd)) as [H1 H2].
    split; [|split; assumption].
    unfold Form.handleInkColorToggle. cbv zeta.
    destruct (includes inkName _); [exact Hgames|].
    destruct (_ <? _)%nat; exact Hgames.
Qed.

(** X8.  Whatever the user does on the round form (adding, changing and
    removing games, toggling ink colours), a tournament round never gets
    more than three games and the opponent never more than two ink
    colours, none of them twice, provided the form started within these
    limits, as the empty form does. *)
Theorem form_keeps_limits (eventType : string) (actions : list Form.Action)
  (st st' : Form.t) :
  Form.run eventType actions st = Some st' ->
  withinLimits eventType st ->
  withinLimits eventType st'.
Proof.
  revert st. induction actions as [|a actions IH]; intros st Hrun Hinv;
    cbn [Form.run] in Hrun.
  - injection Hrun as <-. exact Hinv.
  - destruct (Form.act eventType a st) as [st1|] eqn:Hact; [|discriminate].
    apply (IH st1 Hrun). apply (act_limits eventType a st st1 Hact Hinv).
Qed.

(** Four attempts to add a game and three to pick a colour in a
    tournament. *)
Lemma form_keeps_limits_witness :
  let actions := [Form.AddGame; Form.AddGame; Form.ToggleInk "Ruby"; Form.AddGame;
                  Form.AddGame; Form.ToggleInk "Amber"; Form.ToggleInk "Steel";
                  Form.ChangeGame 1 (FieldResult "loss"); Form.RemoveGame 0] in
  let final := Form.mk ["Amber"; "Ruby"]%string
                 [mkGame "loss" true; mkGame "win" true] None in
  Form.run "Tournament" actions Form.empty = Some final /\
  withinLimits "Tournament" Form.empty /\
  withinLimits "Tournament" final.
Proof.
  cbv zeta.
  assert (withinLimits "Tournament" Form.empty) as H0.
  { split; [intros _; cbn; lia|]. split; [cbn; lia | constructor]. }
  split; [reflexivity|]. split; [exact H0|].
  apply (form_keeps_limits "Tournament"
           [Form.AddGame; Form.AddGame; Form.ToggleInk "Ruby"; Form.AddGame;
            Form.AddGame; Form.ToggleInk "Amber"; Form.ToggleInk "Steel";
            Form.ChangeGame 1 (FieldResult "loss"); Form.RemoveGame 0] Form.empty);
    [reflexivity | exact H0].
Defined.

(** X9.  Removing a game from the form removes exactly the game of that
    row: the games before and after it stay in order, the ink colours are
    kept, and an index that is no row removes nothing. *)
Theorem handleRemoveGame_removes_row (index : nat) (st : Form.t) :
  let st' := Form.handleRemoveGame index st in
  Form.st_games st' = take index (Form.st_games st) ++ drop (S index) (Form.st_games st) /\
  Form.st_opponentInkColors st' = Form.st_opponentInkColors st /\
  (forall j, (j < index)%nat -> Form.st_games st' !! j = Form.st_games st !! j) /\
  (forall j, (index <= j)%nat -> Form.st_games st' !! j = Form.st_games st !! S j) /\
  ((length (Form.st_games st) <= index)%nat -> Form.st_games st' = Form.st_games st).
Proof.
  cbv zeta. cbn [Form.handleRemoveGame Form.st_games Form.st_opponentInkColors].
  pose proof (filterWithIndex_remove (Form.st_games st) 0 index) as H.
  rewrite Nat.add_0_r in H. rewrite H. rewrite <- delete_take_drop.
  split; [reflexivity|]. split; [reflexivity|]. split; [|split].
  - intros j Hj. apply list_lookup_delete_lt. exact Hj.
  - intros j Hj. apply list_lookup_delete_ge. exact Hj.
  - intros Hlen. rewrite delete_take_drop, take_ge, drop_ge by lia.
    apply app_nil_r.
Qed.

(** X10.  Adding a game and removing the new last row gives back the
    games the form had, whenever the form accepts another game. *)
Theorem add_then_remove_last (eventType : string) (st : Form.t) :
  (eventType = "Tournament"%string -> (length (Form.st_games st) < 3)%nat) ->
  let added := Form.handleAddGame eventType st in
  Form.st_games added = Form.st_games st ++ [mkGame "win" true] /\
  Form.st_games (Form.handleRemoveGame (length (Form.st_games st)) added)
  = Form.st_games st.
Proof.
  intros Hroom. cbv zeta.
  assert (Form.st_games (Form.handleAddGame eventType st)
          = Form.st_games st ++ [mkGame "win" true]) as Hadd.
  { unfold Form.handleAddGame. cbv zeta.
    destruct (String.eqb_spec eventType "Tournament") as [Het|Het]; [|reflexivity].
    destruct (Nat.ltb_spec (length (Form.st_games st)) 3) as [_|Hge]; [reflexivity|].
    specialize (Hroom Het). lia. }
  split; [exact Hadd|].
  destruct (handleRemoveGame_removes_row (length (Form.st_games st))
              (Form.handleAddGame eventType st)) as (-> & _).
  rewrite Hadd. rewrite take_app_length, drop_ge by (rewrite length_app; cbn; lia).
  apply app_nil_r.
Qed.

(** A tournament round with two games. *)
Lemma add_then_remove_last_witness :
  let st := Form.mk ["Ruby"%string] [mkGame "loss" false; mkGame "win" true] None in
  Form.st_games (Form.handleRemoveGame 2 (Form.handleAddGame "Tournament" st))
  = Form.st_games st.
Proof.
  cbv zeta.
  refine (proj2 (add_then_remove_last "Tournament"
                   (Form.mk ["Ruby"%string] [mkGame "loss" false; mkGame "win" true] None)
                   _)).
  intros _. cbn. lia.
Defined.

(** X11.  Changing a field of a game on the form touches that game only:
    the number of games, every other game, the ink colours and the error
    line stay, and of the changed game only the named field is replaced. *)
Theorem handleGameChange_frame (index : nat) (f : GameField) (st st' : Form.t) :
  Form.handleGameChange index f st = Some st' ->
  length (Form.st_games st') = length (Form.st_games st) /\
  Form.st_opponentInkColors st' = Form.st_opponentInkColors st /\
  Form.st_error st' = Form.st_error st /\
  (forall j, j <> index -> Form.st_games st' !! j = Form.st_games st !! j) /\
  (exists game,
     Form.st_games st !! index = Some game /\
     Form.st_games st' !! index = Some (setField game f) /\
     match f with
     | FieldResult value =>
         result (setField game f) = value /\ onThePlay (setField game f) = onThePlay game
     | FieldOnThePlay value =>
         onThePlay (setField game f) = value /\ result (setField game f) = result game
     end).
Proof.
  unfold Form.handleGameChange. intros H.
  destruct (Form.st_games st !! index) as [game|] eqn:Hg; [|discriminate].
  injection H as <-. cbn [Form.st_games Form.st_opponentInkColors Form.st_error].
  split; [apply length_insert|]. split; [reflexivity|]. split; [reflexivity|]. split.
  - intros j Hj. apply list_lookup_insert_ne. congruence.
  - exists game. split; [reflexivity|]. split.
    + apply list_lookup_insert_eq. apply lookup_lt_Some in Hg. exact Hg.
    + destruct f; split; reflexivity.
Qed.

(** The second of three games set to a loss. *)
Lemma handleGameChange_frame_witness :
  let st := Form.mk ["Ruby"%string]
              [mkGame "win" true; mkGame "win" false; mkGame "draw" true] None in
  exists st',
    Form.handleGameChange 1 (FieldResult "loss") st = Some st' /\
    Form.st_games st' = [mkGame "win" true; mkGame "loss" false; mkGame "draw" true] /\
    length (Form.st_games st') = length (Form.st_games st).
Proof.
  cbv zeta. eexists. split; [reflexivity|]. split; [reflexivity|].
  refine (proj1 (handleGameChange_frame 1 (FieldResult "loss")
                   (Form.mk ["Ruby"%string]
                      [mkGame "win" true; mkGame "win" false; mkGame "draw" true] None)
                   _ _)).
  reflexivity.
Defined.

(** X12.  Toggling an ink colour on the round form deselects it when it
    is selected, selects it when it is not and fewer than two are, and
    otherwise changes nothing and shows the two-colour message; the games
    are never touched and a changed selection is in ascending order. *)
Theorem toggle_selects_or_deselects (inkName : string) (st : Form.t) :
  let inks := Form.st_opponentInkColors st in
  let st' := Form.handleInkColorToggle inkName st in
  let inks' := Form.st_opponentInkColors st' in
  Form.st_games st' = Form.st_games st /\
  (In inkName inks ->
   (forall x, In x inks' <-> In x inks /\ x <> inkName) /\
   ascending inks' /\ Form.st_error st' = None) /\
  (~ In inkName inks -> (length inks < 2)%nat ->
   (forall x, In x inks' <-> x = inkName \/ In x inks) /\
   ascending inks' /\ Form.st_error st' = None) /\
  (~ In inkName inks -> (2 <= length inks)%nat ->
   inks' = inks /\
   Form.st_error st' = Some "You can select a maximum of two ink colors."%string).
Proof.
  cbv zeta. unfold Form.handleInkColorToggle. cbv zeta.
  set (inks := Form.st_opponentInkColors st).
  destruct (includes inkName inks) eqn:Hinc.
  - apply includes_In in Hinc. cbn [Form.st_games Form.st_opponentInkColors Form.st_error].
    split; [reflexivity|]. split; [|split; intros Hn; contradiction].
    intros _. split; [|split; [apply jsSort_ascending | reflexivity]].
    intros x. unfold jsSort. rewrite sortBy_In. apply filter_other_In.
  - apply includes_not_In in Hinc.
    destruct (Nat.ltb_spec (length inks) 2) as [Hlt|Hge];
      cbn [Form.st_games Form.st_opponentInkColors Form.st_error].
    + split; [reflexivity|]. split; [intros Hin; contradiction|].
      split; [|intros _ Hge; lia].
      intros _ _. split; [|split; [apply jsSort_ascending | reflexivity]].
      intros x. unfold jsSort. rewrite sortBy_In, in_app_iff. cbn [In].
      split; [intros [H|[H|[]]] | intros [H|H]]; auto.
    + split; [reflexivity|]. split; [intros Hin; contradiction|].
      split; [intros _ Hlt; lia|]. intros _ _. split; reflexivity.
Qed.

(** X13.  Selecting an ink colour and toggling it again gives back the
    selection the form had, when that selection was in ascending order. *)
Theorem toggle_twice_restores (inkName : string) (st : Form.t) :
  ~ In inkName (Form.st_opponentInkColors st) ->
  (length (Form.st_opponentInkColors st) < 2)%nat ->
  ascending (Form.st_opponentInkColors st) ->
  Form.st_opponentInkColors
    (Form.handleInkColorToggle inkName (Form.handleInkColorToggle inkName st))
  = Form.st_opponentInkColors st.
Proof.
  intros Hnot Hlen Hasc.
  set (inks := Form.st_opponentInkColors st) in *.
  assert (Form.st_opponentInkColors (Form.handleInkColorToggle inkName st)
          = jsSort (inks ++ [inkName])) as Hfirst.
  { unfold Form.handleInkColorToggle. cbv zeta. fold inks.
    apply includes_not_In in Hnot. rewrite Hnot.
    destruct (Nat.ltb_spec (length inks) 2); [reflexivity | lia]. }
  unfold Form.handleInkColorToggle at 1. cbv zeta. rewrite Hfirst.
  assert (includes inkName (jsSort (inks ++ [inkName])) = true) as ->.
  { apply includes_In. unfold jsSort. rewrite sortBy_In, in_app_iff. right. left.
    reflexivity. }
  cbn [Form.st_opponentInkColors].
  set (kept := List.filter (fun color => negb (String.eqb color inkName))
                           (jsSort (inks ++ [inkName]))).
  assert (ascending kept) as Hkept by (apply filter_sorted, jsSort_ascending).
  unfold jsSort at 1. rewrite (sortBy_sorted_id _ _ Hkept).
  apply (sorted_unique String.leb string_leb_refl String.leb_antisym); try assumption.
  subst kept. unfold jsSort.
  assert (Permutation
            (List.filter (fun color => negb (String.eqb color inkName))
                         (sortBy String.leb (inks ++ [inkName])))
            (List.filter (fun color => negb (String.eqb color inkName))
                         (inks ++ [inkName]))) as Hp.
  { apply filter_permutation, sortBy_permutation. }
  rewrite Hp. rewrite List.filter_app, (filter_other_absent inkName inks Hnot).
  cbn [List.filter]. rewrite String.eqb_refl. cbn [negb]. rewrite app_nil_r. reflexivity.
Qed.

(** A colour picked and dropped again beside a selected one. *)
Lemma toggle_twice_restores_witness :
  let st := Form.mk ["Ruby"%string] [mkGame "win" true] None in
  Form.st_opponentInkColors
    (Form.handleInkColorToggle "Amber" (Form.handleInkColorToggle "Amber" st))
  = ["Ruby"%string].
Proof.
  cbv zeta.
  apply (toggle_twice_restores "Amber" (Form.mk ["Ruby"%string] [mkGame "win" true] None)).
  - cbn. intros [H|[]]. discriminate H.
  - cbn. lia.
  - repeat constructor.
Defined.

(** ** The deck form *)

Lemma deck_toggleAll_empty inkNames err :
  DeckForm.toggleAll inkNames ([], err)
  = ([], match inkNames with
         | [] => err
         | _ :: _ => Some "You can select a maximum of two ink colors."%string
         end).
Proof.
  unfold DeckForm.toggleAll. revert err.
  induction inkNames as [|inkName rest IH]; intros err; [reflexivity|].
  cbn [fold_left]. unfold DeckForm.handleInkColorToggle at 2.
  cbn [fst includes existsb length Nat.ltb Nat.leb]. rewrite IH.
  destruct rest; reflexivity.
Qed.

(** X14.  On the deck form no ink colour can ever be selected: the
    selection starts empty, every toggle of an unselected colour while
    fewer than two are selected is refused with the two-colour message,
    so the selection stays empty, and a submission with it writes no deck
    whatever the other fields are. *)
Theorem deck_form_never_selects (inkNames : list string) (err : option string) :
  let st := DeckForm.toggleAll inkNames ([], err) in
  fst st = [] /\
  (forall (blank : string -> bool) (currentUser : option string) (now : Z)
          (autoId deckName : string) (archetypes : list string) (deckFormat : string)
          (decks : gmap string DeckForm.DeckData),
     let submitted := DeckForm.handleSubmit blank currentUser now autoId deckName (fst st)
                        archetypes deckFormat decks in
     fst submitted = decks /\ exists message, snd submitted = SetError message).
Proof.
  cbv zeta. rewrite deck_toggleAll_empty. cbn [fst]. split; [reflexivity|].
  intros blank currentUser now autoId deckName archetypes deckFormat decks.
  unfold DeckForm.handleSubmit.
  destruct currentUser as [user|]; [|split; eauto].
  destruct (blank deckName); cbn [length Nat.eqb]; split; eauto.
Qed.

(** ** Further properties of the write paths *)

(** Every way a submission can end: nothing written and an error shown,
    or the round document written, with the counters of the event
    incremented or not. *)
Lemma handleSubmit_cases currentUser now autoId p inks gs db :
  let after := RoundForm.handleSubmit currentUser now autoId p inks gs db in
  (fst after = db /\ exists message, snd after = SetError message) \/
  (inks <> [] /\ gs <> [] /\
   exists path created evs,
     fst after = mkFirestore evs (<[path := mkRoundDoc inks gs created]> (rounds db)) /\
     fst path = RoundForm.eventId p /\
     (evs = events db \/
      exists e w l d, events db !! RoundForm.eventId p = Some e /\
                      evs = <[RoundForm.eventId p := increment e w l d]> (events db))).
Proof.
  cbv zeta. unfold RoundForm.handleSubmit.
  destruct currentUser as [user|]; [|left; split; eauto].
  destruct inks as [|ink inks]; [left; split; eauto|].
  destruct gs as [|g gs]; [left; split; eauto|].
  cbn [length Nat.eqb].
  destruct (countResults (g :: gs)) as [[w l] dr].
  destruct (truthy (RoundForm.roundId p)).
  - unfold RoundForm.submitEdit.
    destruct (RoundForm.previousCounts (RoundForm.roundData p)) as [[pw pl] pd].
    unfold bind, updateRound, incrementCounters, ret.
    destruct (rounds db !! _) as [d0|] eqn:Hd; [|left; split; eauto].
    right. split; [discriminate|]. split; [discriminate|].
    cbn [events rounds].
    destruct (events db !! RoundForm.eventId p) as [e|] eqn:He; cbn [fst];
      eexists _, _, _; (split; [reflexivity|]); (split; [reflexivity|]).
    + right. eexists _, _, _, _. split; reflexivity.
    + left. reflexivity.
  - unfold RoundForm.submitNew, bind, addRound, incrementCounters, ret.
    right. split; [discriminate|]. split; [discriminate|].
    cbn [events rounds].
    destruct (events db !! RoundForm.eventId p) as [e|] eqn:He; cbn [fst];
      eexists _, _, _; (split; [reflexivity|]); (split; [reflexivity|]).
    + right. eexists _, _, _, _. split; reflexivity.
    + left. reflexivity.
Qed.

(** X15.  A submission without a signed-in user, without an opponent ink
    colour or without a game writes nothing and shows the error of the
    first of these checks that fails. *)
Theorem rejected_submission_writes_nothing
  (currentUser : option string) (now : Z) (autoId : string) (p : RoundForm.Props)
  (opponentInkColors : list string) (games : list Game) (db : Firestore) :
  currentUser = None \/ opponentInkColors = [] \/ games = [] ->
  RoundForm.handleSubmit currentUser now autoId p opponentInkColors games db
  = (db, SetError
           (match currentUser, opponentInkColors with
            | None, _ => "No user logged in."
            | Some _, [] => "Please select at least one opponent ink color."
            | Some _, _ :: _ => "Please add at least one game result."
            end)).
Proof.
  intros H. unfold RoundForm.handleSubmit.
  destruct currentUser as [user|]; [|reflexivity].
  destruct opponentInkColors as [|ink inks]; [reflexivity|].
  destruct games as [|g gs]; [reflexivity|].
  destruct H as [H|[H|H]]; discriminate H.
Qed.

(** A submission with an ink colour but no game. *)
Lemma rejected_submission_writes_nothing_witness :
  RoundForm.handleSubmit (Some "u"%string) 7 "r1" (RoundForm.mkProps "e1" None None)
    ["Amber"%string] [] freshEvent
  = (freshEvent, SetError "Please add at least one game result.").
Proof.
  apply (rejected_submission_writes_nothing (Some "u"%string) 7 "r1"
           (RoundForm.mkProps "e1" None None) ["Amber"%string] [] freshEvent).
  right. right. reflexivity.
Defined.

Lemma fold_delete_lookup (eventId : string) (l : list (string * RoundDoc)) :
  forall (R : gmap (string * string) RoundDoc) (path : string * string),
    fold_left (fun R roundDoc => delete (eventId, fst roundDoc) R) l R !! path
    = if decide (path ∈ map (fun roundDoc => (eventId, fst roundDoc)) l)
      then None else R !! path.
Proof.
  induction l as [|x l IH]; intros R path; cbn [fold_left map].
  - rewrite decide_False by apply not_elem_of_nil. reflexivity.
  - rewrite IH, lookup_delete.
    destruct (decide (path ∈ map (fun roundDoc => (eventId, fst roundDoc)) l)) as [Hin|Hin].
    + rewrite decide_True by (apply elem_of_cons; right; exact Hin). reflexivity.
    + destruct (decide ((eventId, fst x) = path)) as [E|E].
      * rewrite decide_True by (apply elem_of_cons; left; congruence). reflexivity.
      * rewrite decide_False; [reflexivity|].
        intros H. apply elem_of_cons in H. destruct H; congruence.
Qed.

Lemma elem_of_getRoundDocs (db : Firestore) (eventId roundId : string) (d : RoundDoc) :
  (roundId, d) ∈ getRoundDocs db eventId <-> rounds db !! (eventId, roundId) = Some d.
Proof.
  unfold getRoundDocs, roundsOf. rewrite list_elem_of_fmap. split.
  - intros ([[e r] d'] & Heq & Hin). cbn in Heq. injection Heq as -> ->.
    apply elem_of_map_to_list, map_lookup_filter_Some in Hin.
    destruct Hin as [Hl He]. cbn in He. subst e. exact Hl.
  - intros H. exists ((eventId, roundId), d). split; [reflexivity|].
    apply elem_of_map_to_list, map_lookup_filter_Some. split; [exact H | reflexivity].
Qed.

(** The rounds left by the batch of [deleteEvent]: none under the event,
    all those of the other events. *)
Lemma deleteEvent_rounds (db : Firestore) (eventId : string) (path : string * string) :
  fold_left (fun R roundDoc => delete (eventId, fst roundDoc) R)
            (getRoundDocs db eventId) (rounds db) !! path
  = if decide (fst path = eventId) then None else rounds db !! path.
Proof.
  rewrite fold_delete_lookup. destruct path as [e r]. cbn [fst].
  destruct (decide (e = eventId)) as [->|Hne].
  - destruct (rounds db !! (eventId, r)) as [d|] eqn:Hd.
    + rewrite decide_True; [reflexivity|].
      apply list_elem_of_In, in_map_iff. exists (r, d). split; [reflexivity|].
      apply list_elem_of_In, elem_of_getRoundDocs, Hd.
    + destruct (decide _); reflexivity.
  - rewrite decide_False; [reflexivity|].
    intros H. apply list_elem_of_In, in_map_iff in H.
    destruct H as (x & Hx & _). congruence.
Qed.

(** X16.  Every round in the database keeps at least one game and one
    opponent ink colour: if all stored rounds do, they still do after a
    submission of the round form, a round deletion, an event update and an
    event deletion, whatever the arguments and however the call ends. *)
Theorem stored_rounds_stay_complete (db : Firestore) :
  roundsComplete db ->
  (forall currentUser now autoId p opponentInkColors games,
     roundsComplete
       (fst (RoundForm.handleSubmit currentUser now autoId p opponentInkColors games db))) /\
  (forall currentUser confirmed eventId roundId games,
     roundsComplete
       (fst (EventList.handleDeleteRound currentUser confirmed eventId roundId games db))) /\
  (forall currentUser eventId eventData,
     roundsComplete (fst (Firebase.updateEvent currentUser eventId eventData db))) /\
  (forall currentUser eventId,
     roundsComplete (fst (Firebase.deleteEvent currentUser eventId db))).
Proof.
  intros Hdb. split; [|split; [|split]].
  - intros currentUser now autoId p inks gs.
    destruct (handleSubmit_cases currentUser now autoId p inks gs db)
      as [[-> _] | (Hinks & Hgs & path & created & evs & -> & _)]; [exact Hdb|].
    intros k d. cbn [fst rounds]. rewrite lookup_insert.
    destruct (decide (path = k)); [|apply Hdb].
    intros H. injection H as <-. split; assumption.
  - intros currentUser confirmed eventId roundId gs.
    unfold EventList.handleDeleteRound.
    destruct currentUser as [user|]; [|exact Hdb].
    destruct confirmed; cbn [negb]; [|exact Hdb].
    unfold bind, deleteRound. destruct (countResults gs) as [[w l] dr].
    unfold incrementCounters, ret. cbn [events rounds].
    destruct (events db !! eventId); cbn [fst]; intros k d; cbn [rounds];
      rewrite lookup_delete; destruct (decide _); try discriminate; apply Hdb.
  - intros currentUser eventId eventData. unfold Firebase.updateEvent.
    destruct currentUser as [user|]; [|exact Hdb].
    destruct (events db !! eventId); exact Hdb.
  - intros currentUser eventId. unfold Firebase.deleteEvent.
    destruct currentUser as [user|]; [|exact Hdb].
    cbn [fst]. intros k d. cbn [rounds]. rewrite deleteEvent_rounds.
    destruct (decide _); [discriminate | apply Hdb].
Qed.

(** The database with one round of two games. *)
Lemma stored_rounds_stay_complete_witness :
  roundsComplete (oneWonRound 2 0 0) /\
  roundsComplete
    (fst (RoundForm.handleSubmit (Some "u"%string) 9 "r2" (RoundForm.mkProps "e1" None None)
            ["Ruby"%string] [mkGame "loss" true] (oneWonRound 2 0 0))).
Proof.
  assert (roundsComplete (oneWonRound 2 0 0)) as H.
  { intros k d. unfold oneWonRound. cbn [rounds]. rewrite lookup_singleton.
    destruct (decide _); [|discriminate].
    intros E. injection E as <-. split; discriminate. }
  split; [exact H|].
  apply (proj1 (stored_rounds_stay_complete (oneWonRound 2 0 0) H)).
Defined.

(** X17.  The two writes of a submission are not one unit.  A new round
    submitted for an event whose document does not exist is stored
    although the submission ends with an error; an edit of a round whose
    event document does not exist replaces the round's fields and changes
    no counter. *)
Theorem submission_on_missing_event
  (user : string) (now : Z) (autoId : string) (p : RoundForm.Props)
  (opponentInkColors : list string) (games : list Game) (db : Firestore) :
  opponentInkColors <> [] -> games <> [] ->
  events db !! RoundForm.eventId p = None ->
  let after := RoundForm.handleSubmit (Some user) now autoId p opponentInkColors games db in
  snd after = SetError notFound /\
  events (fst after) = events db /\
  (truthy (RoundForm.roundId p) = false ->
   rounds (fst after)
   = <[(RoundForm.eventId p, autoId) := mkRoundDoc opponentInkColors games now]>
       (rounds db)) /\
  (forall roundId d,
     RoundForm.roundId p = Some roundId -> roundId <> ""%string ->
     rounds db !! (RoundForm.eventId p, roundId) = Some d ->
     rounds (fst after)
     = <[(RoundForm.eventId p, roundId) :=
           mkRoundDoc opponentInkColors games (doc_createdAt d)]> (rounds db)).
Proof.
  intros Hinks Hgs He. cbv zeta. unfold RoundForm.handleSubmit.
  rewrite (length_eqb_nil _ Hinks), (length_eqb_nil _ Hgs).
  destruct (countResults games) as [[w l] dr].
  destruct (RoundForm.roundId p) as [rid|] eqn:Hid.
  - destruct (truthy (Some rid)) eqn:Ht.
    + change (default ""%string (Some rid)) with rid.
      unfold RoundForm.submitEdit.
      destruct (RoundForm.previousCounts (RoundForm.roundData p)) as [[pw pl] pd].
      unfold bind, updateRound, incrementCounters, ret.
      destruct (rounds db !! (RoundForm.eventId p, rid)) as [d0|] eqn:Hd.
      * cbn [events rounds]. rewrite He. cbn [fst snd events rounds].
        split; [reflexivity|]. split; [reflexivity|]. split; [discriminate|].
        intros roundId d E _ Hd'. injection E as <-.
        assert (d = d0) as -> by congruence. reflexivity.
      * cbn [fst snd]. split; [reflexivity|]. split; [reflexivity|].
        split; [discriminate|].
        intros roundId d E _ Hd'. injection E as <-. congruence.
    + unfold RoundForm.submitNew, bind, addRound, incrementCounters, ret.
      cbn [events rounds]. rewrite He. cbn [fst snd events rounds].
      split; [reflexivity|]. split; [reflexivity|]. split; [reflexivity|].
      intros roundId d E Hne _. injection E as <-.
      cbn in Ht. destruct (String.eqb_spec rid ""); [contradiction | discriminate].
  - cbn [truthy].
    unfold RoundForm.submitNew, bind, addRound, incrementCounters, ret.
    cbn [events rounds]. rewrite He. cbn [fst snd events rounds].
    split; [reflexivity|]. split; [reflexivity|]. split; [reflexivity|].
    intros roundId d E. discriminate E.
Qed.

(** A round submitted for the event ["e9"], which does not exist. *)
Lemma submission_on_missing_event_witness :
  let after := RoundForm.handleSubmit (Some "u"%string) 7 "r1"
                 (RoundForm.mkProps "e9" None None) ["Amber"%string] [mkGame "win" true]
                 freshEvent in
  snd after = SetError notFound /\
  rounds (fst after) !! ("e9"%string, "r1"%string)
  = Some (mkRoundDoc ["Amber"%string] [mkGame "win" true] 7).
Proof.
  cbv zeta. split.
  - refine (proj1 (submission_on_missing_event "u" 7 "r1" (RoundForm.mkProps "e9" None None)
                     ["Amber"%string] [mkGame "win" true] freshEvent _ _ _));
      [discriminate | discriminate | reflexivity].
  - reflexivity.
Defined.

(** X18.  An edit of a round that is not in the database writes nothing,
    not even to the counters, and shows the error of the failed update. *)
Theorem edit_of_missing_round_writes_nothing
  (user : string) (now : Z) (autoId : string) (p : RoundForm.Props) (roundId : string)
  (opponentInkColors : list string) (games : list Game) (db : Firestore) :
  RoundForm.roundId p = Some roundId -> roundId <> ""%string ->
  opponentInkColors <> [] -> games <> [] ->
  rounds db !! (RoundForm.eventId p, roundId) = None ->
  RoundForm.handleSubmit (Some user) now autoId p opponentInkColors games db
  = (db, SetError notFound).
Proof.
  intros Hid Hne Hinks Hgs Hd. unfold RoundForm.handleSubmit.
  rewrite (length_eqb_nil _ Hinks), (length_eqb_nil _ Hgs), Hid.
  assert (truthy (Some roundId) = true) as ->.
  { cbn. destruct (String.eqb_spec roundId ""); [contradiction | reflexivity]. }
  change (default ""%string (Some roundId)) with roundId.
  destruct (countResults games) as [[w l] dr].
  unfold RoundForm.submitEdit.
  destruct (RoundForm.previousCounts (RoundForm.roundData p)) as [[pw pl] pd].
  unfold bind, updateRound. rewrite Hd. reflexivity.
Qed.

(** An edit of the round ["r7"], which was deleted meanwhile. *)
Lemma edit_of_missing_round_writes_nothing_witness :
  RoundForm.handleSubmit (Some "u"%string) 9 "r2"
    (RoundForm.mkProps "e1" (Some "r7"%string) (Some shownRound)) ["Amber"%string]
    [mkGame "loss" true] (oneWonRound 2 0 0)
  = (oneWonRound 2 0 0, SetError notFound).
Proof.
  apply (edit_of_missing_round_writes_nothing "u" 9 "r2"
           (RoundForm.mkProps "e1" (Some "r7"%string) (Some shownRound)) "r7");
    try discriminate; reflexivity.
Defined.

Lemma increment_zero (e : EventDoc) : increment e 0 0 0 = e.
Proof.
  destruct e. unfold increment. cbn. f_equal; lia.
Qed.

(** X19.  Saving a round from the edit form with the games it was loaded
    with changes no event document: the counters get the difference
    zero. *)
Theorem unchanged_edit_keeps_counters
  (currentUser : option string) (now : Z) (autoId : string) (p : RoundForm.Props)
  (roundId : string) (r : Round) (opponentInkColors : list string) (db : Firestore) :
  RoundForm.roundId p = Some roundId -> roundId <> ""%string ->
  RoundForm.roundData p = Some r ->
  events (fst (RoundForm.handleSubmit currentUser now autoId p opponentInkColors (games r) db))
  = events db.
Proof.
  intros Hid Hne Hdata. unfold RoundForm.handleSubmit.
  destruct currentUser as [user|]; [|reflexivity].
  destruct opponentInkColors as [|ink inks]; [reflexivity|].
  destruct (games r) as [|g gs] eqn:Hg; [reflexivity|].
  cbn [length Nat.eqb]. rewrite Hid.
  assert (truthy (Some roundId) = true) as ->.
  { cbn. destruct (String.eqb_spec roundId ""); [contradiction | reflexivity]. }
  change (default ""%string (Some roundId)) with roundId.
  unfold RoundForm.submitEdit. rewrite Hdata. cbn [RoundForm.previousCounts]. rewrite Hg.
  destruct (countResults (g :: gs)) as [[w l] dr].
  unfold bind, updateRound, incrementCounters, ret.
  destruct (rounds db !! _); [|reflexivity].
  cbn [events rounds].
  destruct (events db !! RoundForm.eventId p) as [e|] eqn:He; [|reflexivity].
  cbn [fst events]. rewrite !Z.sub_diag, increment_zero. apply insert_id, He.
Qed.

(** The round of the example saved with new ink colours only. *)
Lemma unchanged_edit_keeps_counters_witness :
  events (fst (RoundForm.handleSubmit (Some "u"%string) 9 "r2"
                 (RoundForm.mkProps "e1" (Some "r1"%string) (Some shownRound))
                 ["Ruby"%string] (games shownRound) (oneWonRound 2 0 0)))
  = events (oneWonRound 2 0 0).
Proof.
  apply (unchanged_edit_keeps_counters (Some "u"%string) 9 "r2"
           (RoundForm.mkProps "e1" (Some "r1"%string) (Some shownRound)) "r1" shownRound);
    try discriminate; reflexivity.
Defined.

Lemma increment_there_and_back (e : EventDoc) (w l d w' l' d' : Z) :
  increment (increment e (w' - w) (l' - l) (d' - d)) (w - w') (l - l') (d - d') = e.
Proof.
  destruct e. unfold increment. cbn. f_equal; lia.
Qed.

(** X20.  Editing a round to other games and then back, each time from
    the round data that shows the stored games, restores the events
    collection; when the ink colours are restored too, the whole database
    is as before. *)
Theorem edit_and_edit_back_restores
  (user : string) (now now' : Z) (autoId autoId' roundId eventId : string)
  (shown shown' : Round) (inks' : list string) (games' : list Game)
  (db : Firestore) (e : EventDoc) (d : RoundDoc) :
  roundId <> ""%string ->
  events db !! eventId = Some e ->
  rounds db !! (eventId, roundId) = Some d ->
  doc_opponentInkColors d <> [] -> doc_games d <> [] ->
  inks' <> [] -> games' <> [] ->
  games shown = doc_games d ->
  games shown' = games' ->
  let there := RoundForm.handleSubmit (Some user) now autoId
                 (RoundForm.mkProps eventId (Some roundId) (Some shown)) inks' games' db in
  let back := RoundForm.handleSubmit (Some user) now' autoId'
                (RoundForm.mkProps eventId (Some roundId) (Some shown'))
                (doc_opponentInkColors d) (doc_games d) (fst there) in
  snd there = Alert "Round updated successfully!" /\
  snd back = Alert "Round updated successfully!" /\
  fst back = db.
Proof.
  intros Hne He Hd Hinks Hgs Hinks' Hgs' Hshown Hshown'. cbv zeta.
  rewrite (handleSubmit_edit user now autoId _ roundId inks' games' db e d)
    by (try reflexivity; assumption).
  cbn [fst snd RoundForm.eventId RoundForm.roundData loadedGames].
  split; [reflexivity|].
  erewrite (handleSubmit_edit user now' autoId' _ roundId);
    [ | reflexivity | exact Hne | exact Hinks | exact Hgs
      | cbn [events RoundForm.eventId]; apply lookup_insert_eq
      | cbn [rounds RoundForm.eventId]; apply lookup_insert_eq ].
  cbn [fst snd RoundForm.eventId RoundForm.roundData loadedGames events rounds doc_createdAt].
  split; [reflexivity|].
  rewrite Hshown, Hshown', increment_there_and_back, !insert_insert_eq.
  rewrite (insert_id _ _ _ He).
  replace (mkRoundDoc (doc_opponentInkColors d) (doc_games d) (doc_createdAt d)) with d
    by (destruct d; reflexivity).
  rewrite (insert_id _ _ _ Hd). destruct db; reflexivity.
Qed.

(** The round of the example edited to a loss and back. *)
Lemma edit_and_edit_back_restores_witness :
  let db := oneWonRound 2 0 0 in
  let lost := EventDetail.deriveRound
                ("r1"%string, mkRoundDoc ["Ruby"%string] [mkGame "loss" true] 7) in
  let there := RoundForm.handleSubmit (Some "u"%string) 9 "a"
                 (RoundForm.mkProps "e1" (Some "r1"%string) (Some shownRound))
                 ["Ruby"%string] [mkGame "loss" true] db in
  let back := RoundForm.handleSubmit (Some "u"%string) 10 "b"
                (RoundForm.mkProps "e1" (Some "r1"%string) (Some lost))
                ["Amber"%string] [mkGame "win" true; mkGame "win" false] (fst there) in
  events (fst there) !! "e1"%string = Some (eventWith 0 1 0) /\ fst back = db.
Proof.
  cbv zeta. split; [reflexivity|].
  refine (proj2 (proj2
    (edit_and_edit_back_restores "u" 9 10 "a" "b" "r1" "e1" shownRound
       (EventDetail.deriveRound
          ("r1"%string, mkRoundDoc ["Ruby"%string] [mkGame "loss" true] 7))
       ["Ruby"%string] [mkGame "loss" true] (oneWonRound 2 0 0) (eventWith 2 0 0)
       (mkRoundDoc ["Amber"%string] [mkGame "win" true; mkGame "win" false] 7)
       _ _ _ _ _ _ _ _ _))); try discriminate; reflexivity.
Defined.

(** X21.  A submission of the round form, however it ends, changes at
    most the counters of the event of the form: every other event
    document is untouched, no event document is created or removed, the
    event keeps its name, type, deck and format, and no round document is
    removed. *)
Theorem submission_frame
  (currentUser : option string) (now : Z) (autoId : string) (p : RoundForm.Props)
  (opponentInkColors : list string) (games : list Game) (db : Firestore) :
  let after := fst (RoundForm.handleSubmit currentUser now autoId p opponentInkColors
                      games db) in
  (forall other, other <> RoundForm.eventId p ->
                 events after !! other = events db !! other) /\
  dom (events after) = dom (events db) /\
  (forall e, events db !! RoundForm.eventId p = Some e ->
             exists e', events after !! RoundForm.eventId p = Some e' /\
                        name e' = name e /\ type e' = type e /\
                        userDeckId e' = userDeckId e /\ format e' = format e) /\
  (forall path, is_Some (rounds db !! path) -> is_Some (rounds after !! path)).
Proof.
  cbv zeta.
  destruct (handleSubmit_cases currentUser now autoId p opponentInkColors games db)
    as [[-> _] | (_ & _ & path & created & evs & -> & _ & Hevs)].
  - split; [reflexivity|]. split; [reflexivity|]. split; [|auto].
    intros e He. exists e. repeat split. exact He.
  - cbn [fst events rounds].
    assert (forall k, is_Some (rounds db !! k)
                      -> is_Some (<[path := mkRoundDoc opponentInkColors games created]>
                                    (rounds db) !! k)) as Hrounds.
    { intros k Hk. rewrite lookup_insert. destruct (decide (path = k)); eauto. }
    destruct Hevs as [-> | (e0 & w & l & d & He0 & ->)].
    + split; [reflexivity|]. split; [reflexivity|]. split; [|exact Hrounds].
      intros e He. exists e. repeat split. exact He.
    + split; [|split; [|split]].
      * intros other Hother. apply lookup_insert_ne. congruence.
      * apply dom_insert_lookup_L. rewrite He0. eauto.
      * intros e He. assert (e0 = e) as -> by congruence.
        eexists. split; [apply lookup_insert_eq|]. repeat split.
      * exact Hrounds.
Qed.

(** X22.  A round deletion that is not confirmed, or without a signed-in
    user, writes nothing.  A confirmed one removes the round document
    whether or not the event document exists, touches no other round and
    no other event, and creates or removes no event document. *)
Theorem round_deletion_effect
  (currentUser : option string) (confirmed : bool) (eventId roundId : string)
  (games : list Game) (db : Firestore) :
  let after := fst (EventList.handleDeleteRound currentUser confirmed eventId roundId
                      games db) in
  (currentUser = None \/ confirmed = false -> after = db) /\
  (is_Some currentUser -> confirmed = true ->
   rounds after = delete (eventId, roundId) (rounds db)) /\
  (forall path, path <> (eventId, roundId) -> rounds after !! path = rounds db !! path) /\
  (forall other, other <> eventId -> events after !! other = events db !! other) /\
  dom (events after) = dom (events db).
Proof.
  cbv zeta. unfold EventList.handleDeleteRound.
  destruct currentUser as [user|].
  2:{ cbn [fst]. repeat split; auto. intros [? ?]. discriminate. }
  destruct confirmed; cbn [negb].
  2:{ cbn [fst]. repeat split; auto. intros _ H. discriminate H. }
  unfold bind, deleteRound. destruct (countResults games) as [[w l] dr].
  unfold incrementCounters, ret. cbn [events rounds].
  destruct (events db !! eventId) as [e|] eqn:He; cbn [fst events rounds].
  - split; [intros [H|H]; discriminate H|]. split; [reflexivity|]. split; [|split].
    + intros path Hpath. apply lookup_delete_ne. congruence.
    + intros other Hother. apply lookup_insert_ne. congruence.
    + apply dom_insert_lookup_L. rewrite He. eauto.
  - split; [intros [H|H]; discriminate H|]. split; [reflexivity|]. split; [|split].
    + intros path Hpath. apply lookup_delete_ne. congruence.
    + reflexivity.
    + reflexivity.
Qed.

(** X23.  Deleting a round that is not in the database still subtracts
    the games passed with it from the counters: the rounds stay as they
    are, and counters that counted the games of the stored rounds no
    longer do when one of the passed games is a win, a loss or a draw. *)
Theorem deletion_of_missing_round_drifts
  (user eventId roundId : string) (games : list Game) (db : Firestore) (e : EventDoc) :
  rounds db !! (eventId, roundId) = None ->
  events db !! eventId = Some e ->
  let after := EventList.handleDeleteRound (Some user) true eventId roundId games db in
  snd after = Alert "Round deleted successfully!" /\
  rounds (fst after) = rounds db /\
  events (fst after) !! eventId
  = Some (increment e (- countGames isWin games) (- countGames isLoss games)
                      (- countGames isDraw games)) /\
  (countersCountGames db eventId -> 0 < countGames validResult games ->
   ~ countersCountGames (fst after) eventId).
Proof.
  intros Hd He. cbv zeta.
  rewrite (handleDeleteRound_confirmed user eventId roundId games db e He).
  cbn [fst snd events rounds]. rewrite (delete_id _ _ Hd).
  split; [reflexivity|]. split; [reflexivity|]. split; [apply lookup_insert_eq|].
  intros (e0 & He0 & Hw & Hl & Hdr) Hpos (e1 & He1 & Hw1 & Hl1 & Hdr1).
  cbn [events] in He1. rewrite lookup_insert_eq in He1. injection He1 as <-.
  assert (e0 = e) as -> by congruence.
  cbn [increment wins losses draws] in Hw1, Hl1, Hdr1.
  change (gameTotal ?p (mkFirestore _ (rounds db)) eventId)
    with (gameTotal p db eventId) in Hw1, Hl1, Hdr1.
  pose proof (countGames_valid games).
  pose proof (countGames_nonneg isWin games). pose proof (countGames_nonneg isLoss games).
  pose proof (countGames_nonneg isDraw games). lia.
Qed.

(** The round ["r1"] of the example deleted a second time. *)
Lemma deletion_of_missing_round_drifts_witness :
  let gs := [mkGame "win" true; mkGame "win" false] in
  let once := EventList.handleDeleteRound (Some "u"%string) true "e1" "r1" gs
                (oneWonRound 2 0 0) in
  let twice := EventList.handleDeleteRound (Some "u"%string) true "e1" "r1" gs (fst once) in
  events (fst once) !! "e1"%string = Some (eventWith 0 0 0) /\
  events (fst twice) !! "e1"%string = Some (eventWith (-2) 0 0).
Proof.
  cbv zeta. split; [reflexivity|].
  refine (proj1 (proj2 (proj2
    (deletion_of_missing_round_drifts "u" "e1" "r1"
       [mkGame "win" true; mkGame "win" false]
       (fst (EventList.handleDeleteRound (Some "u"%string) true "e1" "r1"
               [mkGame "win" true; mkGame "win" false] (oneWonRound 2 0 0)))
       (eventWith 0 0 0) _ _)))); reflexivity.
Defined.

(** The game totals of an event depend on the rounds under that event
    only. *)
Lemma gameTotal_ext (p : Game -> bool) (db db' : Firestore) (ev : string) :
  (forall roundId, rounds db' !! (ev, roundId) = rounds db !! (ev, roundId)) ->
  gameTotal p db' ev = gameTotal p db ev.
Proof.
  intros H. rewrite !gameTotal_weigh. unfold roundsOf. f_equal.
  apply map_eq. intros [e r]. apply option_eq. intros d.
  rewrite !map_lookup_filter_Some. cbn [fst].
  split; intros [Hl He]; subst e; (split; [|reflexivity]); [rewrite <- H | rewrite H];
    exact Hl.
Qed.

Lemma countersCountGames_ext (db db' : Firestore) (ev : string) :
  (forall roundId, rounds db' !! (ev, roundId) = rounds db !! (ev, roundId)) ->
  (forall e, events db !! ev = Some e ->
             exists e', events db' !! ev = Some e' /\
                        wins e' = wins e /\ losses e' = losses e /\ draws e' = draws e) ->
  countersCountGames db ev -> countersCountGames db' ev.
Proof.
  intros Hr He (e & Hev & Hw & Hl & Hd).
  destruct (He e Hev) as (e' & He' & Ew & El & Ed).
  exists e'. split; [exact He'|].
  rewrite !(gameTotal_ext _ db db' ev Hr). lia.
Qed.

(** X24.  Updating an event replaces its name, type, deck and format and
    nothing else: the stored counters and all rounds stay, so counters
    that count the games of the stored rounds still do, for every event. *)
Theorem updateEvent_keeps_counters
  (currentUser : option string) (eventId : string) (eventData : Firebase.EventData)
  (db : Firestore) :
  let after := fst (Firebase.updateEvent currentUser eventId eventData db) in
  rounds after = rounds db /\
  dom (events after) = dom (events db) /\
  (forall other, other <> eventId -> events after !! other = events db !! other) /\
  (forall e, events db !! eventId = Some e ->
             exists e', events after !! eventId = Some e' /\
                        wins e' = wins e /\ losses e' = losses e /\ draws e' = draws e) /\
  (forall ev, countersCountGames db ev -> countersCountGames after ev).
Proof.
  cbv zeta.
  assert (rounds (fst (Firebase.updateEvent currentUser eventId eventData db)) = rounds db
          /\ dom (events (fst (Firebase.updateEvent currentUser eventId eventData db)))
             = dom (events db)
          /\ (forall other, other <> eventId ->
                events (fst (Firebase.updateEvent currentUser eventId eventData db)) !! other
                = events db !! other)
          /\ (forall e, events db !! eventId = Some e ->
                exists e',
                  events (fst (Firebase.updateEvent currentUser eventId eventData db))
                    !! eventId = Some e' /\
                  wins e' = wins e /\ losses e' = losses e /\ draws e' = draws e))
    as (Hr & Hdom & Hother & Hsame).
  { unfold Firebase.updateEvent.
    destruct currentUser as [user|].
    2:{ cbn [fst]. repeat split; auto. intros e He. exists e. auto. }
    destruct (events db !! eventId) as [e0|] eqn:He0; cbn [fst events rounds].
    - split; [reflexivity|]. split; [apply dom_insert_lookup_L; rewrite He0; eauto|].
      split; [intros other Hother; apply lookup_insert_ne; congruence|].
      intros e He. assert (e0 = e) as -> by congruence.
      eexists. split; [apply lookup_insert_eq|]. repeat split.
    - repeat split; auto. intros e He. congruence. }
  split; [exact Hr|]. split; [exact Hdom|]. split; [exact Hother|]. split; [exact Hsame|].
  intros ev. apply countersCountGames_ext.
  - intros roundId. rewrite Hr. reflexivity.
  - intros e He. destruct (decide (ev = eventId)) as [->|Hne]; [apply Hsame, He|].
    exists e. rewrite (Hother ev Hne). auto.
Qed.

(** X25.  Deleting an event removes the event document and every round
    stored under it, leaves the other events and all their rounds as they
    are, and keeps the counters of every other event equal to the game
    totals they equalled before. *)
Theorem deleteEvent_cascades (user eventId : string) (db : Firestore) :
  let result := Firebase.deleteEvent (Some user) eventId db in
  let after := fst result in
  snd result = Return tt /\
  events after = delete eventId (events db) /\
  (forall roundId, rounds after !! (eventId, roundId) = None) /\
  getRoundDocs after eventId = [] /\
  (forall other roundId, other <> eventId ->
     rounds after !! (other, roundId) = rounds db !! (other, roundId)) /\
  (forall other, other <> eventId ->
     countersCountGames db other -> countersCountGames after other).
Proof.
  cbv zeta. unfold Firebase.deleteEvent. cbn [fst snd events rounds].
  assert (forall roundId,
            fold_left (fun R roundDoc => delete (eventId, fst roundDoc) R)
                      (getRoundDocs db eventId) (rounds db) !! (eventId, roundId) = None)
    as Hgone.
  { intros roundId. rewrite deleteEvent_rounds. cbn [fst].
    rewrite decide_True by reflexivity. reflexivity. }
  assert (forall other roundId, other <> eventId ->
            fold_left (fun R roundDoc => delete (eventId, fst roundDoc) R)
                      (getRoundDocs db eventId) (rounds db) !! (other, roundId)
            = rounds db !! (other, roundId)) as Hkept.
  { intros other roundId Hne. rewrite deleteEvent_rounds. cbn [fst].
    rewrite decide_False by exact Hne. reflexivity. }
  split; [reflexivity|]. split; [reflexivity|]. split; [exact Hgone|]. split; [|split].
  - unfold getRoundDocs, roundsOf. cbn [rounds].
    match goal with
    | |- _ <$> map_to_list ?m = [] => assert (m = ∅) as ->
    end.
    { apply map_empty. intros [e r]. apply map_lookup_filter_None.
      destruct (decide (e = eventId)) as [->|Hne].
      - left. apply Hgone.
      - right. intros d _. cbn. exact Hne. }
    rewrite map_to_list_empty. reflexivity.
  - exact Hkept.
  - intros other Hne. apply countersCountGames_ext.
    + intros roundId. cbn [rounds]. apply Hkept, Hne.
    + intros e He. exists e. cbn [events].
      rewrite lookup_delete_ne by congruence. auto.
Qed.

(** ** The event view *)

Lemma createdBefore_total a b :
  EventView.createdBefore a b = true \/ EventView.createdBefore b a = true.
Proof.
  unfold EventView.createdBefore.
  destruct (Z.ltb_spec (doc_createdAt (snd a)) (doc_createdAt (snd b))); [left; reflexivity|].
  destruct (Z.ltb_spec (doc_createdAt (snd b)) (doc_createdAt (snd a))); [right; reflexivity|].
  assert (doc_createdAt (snd a) = doc_createdAt (snd b)) as E by lia.
  rewrite E, Z.eqb_refl. cbn [orb andb]. apply String.leb_total.
Qed.

Lemma createdBefore_le a b :
  EventView.createdBefore a b = true -> doc_createdAt (snd a) <= doc_createdAt (snd b).
Proof.
  unfold EventView.createdBefore. intros H. apply orb_true_iff in H.
  destruct H as [H|H]; [apply Z.ltb_lt in H; lia|].
  apply andb_true_iff in H. destruct H as [H _]. apply Z.eqb_eq in H. lia.
Qed.

Lemma createdBefore_trans a b c :
  EventView.createdBefore a b = true -> EventView.createdBefore b c = true ->
  EventView.createdBefore a c = true.
Proof.
  unfold EventView.createdBefore. intros Hab Hbc.
  apply orb_true_iff in Hab, Hbc. apply orb_true_iff.
  destruct Hab as [Hab|Hab], Hbc as [Hbc|Hbc];
    rewrite ?andb_true_iff, ?Z.ltb_lt, ?Z.eqb_eq in *.
  - left. lia.
  - left. lia.
  - left. lia.
  - right. destruct Hab as [E1 L1], Hbc as [E2 L2]. split; [lia|].
    exact (string_leb_trans _ _ _ L1 L2).
Qed.

Lemma queryRounds_permutation db eventId :
  Permutation (EventView.queryRounds db eventId) (getRoundDocs db eventId).
Proof. apply sortBy_permutation. Qed.

Lemma queryRounds_sorted db eventId : byCreation (EventView.queryRounds db eventId).
Proof.
  apply sortBy_sorted; [apply createdBefore_total | apply createdBefore_trans].
Qed.


Lemma fetch_event_shape currentUser eventId deckDetails thrown db ev :
  EventView.v_event (EventView.fetchEventDetails currentUser eventId deckDetails thrown db)
    = Some ev ->
  exists eid e,
    eid = default ""%string eventId /\ events db !! eid = Some e /\
    EventView.fe_rounds ev = map EventDetail.deriveRound (EventView.queryRounds db eid) /\
    EventView.fe_stats ev = EventDetail.computeStats (EventView.fe_rounds ev) /\
    EventView.fe_wins ev = wins e /\ EventView.fe_losses ev = losses e /\
    EventView.fe_draws ev = draws e.
Proof.
  unfold EventView.fetchEventDetails. intros H.
  destruct currentUser as [user|]; [|discriminate].
  destruct (truthy eventId); [|discriminate]. cbn [negb] in H.
  destruct (EventView.eventRead thrown); [discriminate|].
  destruct (events db !! default ""%string eventId) as [e|] eqn:He; [|discriminate].
  destruct (deckDetails e) as [[deckName deckInks] deckError].
  destruct (EventView.laterRead thrown); [discriminate|].
  cbn [EventView.v_event] in H. injection H as <-.
  exists (default ""%string eventId), e. repeat split. exact He.
Qed.

(** X27.  The rounds the event view shows are the stored rounds of the
    event, each once, in ascending order of their creation time. *)
Theorem view_rounds_in_creation_order
  (currentUser : option string) (eventId : option string)
  (deckDetails : EventDoc -> string * list string * option string)
  (thrown : EventView.Thrown) (db : Firestore) (ev : EventView.FetchedEvent) :
  EventView.v_event (EventView.fetchEventDetails currentUser eventId deckDetails thrown db)
    = Some ev ->
  Permutation (EventView.fe_rounds ev)
              (map EventDetail.deriveRound (getRoundDocs db (default ""%string eventId))) /\
  StronglySorted (fun a b => createdAt a <= createdAt b) (EventView.fe_rounds ev) /\
  length (EventView.fe_rounds ev)
  = length (getRoundDocs db (default ""%string eventId)).
Proof.
  intros H. apply fetch_event_shape in H as (eid & e & -> & _ & Hr & _).
  rewrite Hr. split; [|split].
  - apply Permutation_map, queryRounds_permutation.
  - pose proof (queryRounds_sorted db (default ""%string eventId)) as Hs.
    unfold byCreation in Hs. clear Hr.
    induction Hs as [|x l Hl IH Hx]; cbn [map]; constructor.
    + exact IH.
    + rewrite Forall_map. eapply Forall_impl; [exact Hx|].
      intros y Hy. cbn [EventDetail.deriveRound createdAt]. apply createdBefore_le, Hy.
  - rewrite length_map. apply Permutation_length, queryRounds_permutation.
Qed.

(** X28.  The statistics the event view shows come from the stored rounds
    alone: two databases with the same rounds show the same rounds and the
    same statistics for an event, whatever counters the event documents
    hold, and the counters shown are copied from the document untouched. *)
Theorem view_ignores_stored_counters
  (currentUser currentUser' : option string) (eventId : option string)
  (deckDetails deckDetails' : EventDoc -> string * list string * option string)
  (thrown thrown' : EventView.Thrown) (db db' : Firestore)
  (ev ev' : EventView.FetchedEvent) :
  EventView.v_event (EventView.fetchEventDetails currentUser eventId deckDetails thrown db)
    = Some ev ->
  EventView.v_event
    (EventView.fetchEventDetails currentUser' eventId deckDetails' thrown' db')
    = Some ev' ->
  rounds db = rounds db' ->
  EventView.fe_rounds ev = EventView.fe_rounds ev' /\
  EventView.fe_stats ev = EventView.fe_stats ev' /\
  EventView.fe_stats ev
  = EventDetail.computeStats
      (map EventDetail.deriveRound (getRoundDocs db (default ""%string eventId))) /\
  events db !! default ""%string eventId
  = Some (mkEventDoc (EventView.fe_name ev) (EventView.fe_type ev)
            (EventView.fe_userDeckId ev) (EventView.fe_format ev)
            (EventView.fe_wins ev) (EventView.fe_losses ev) (EventView.fe_draws ev)).
Proof.
  intros H H' Hrounds.
  assert (events db !! default ""%string eventId
          = Some (mkEventDoc (EventView.fe_name ev) (EventView.fe_type ev)
                    (EventView.fe_userDeckId ev) (EventView.fe_format ev)
                    (EventView.fe_wins ev) (EventView.fe_losses ev)
                    (EventView.fe_draws ev))) as Hdoc.
  { unfold EventView.fetchEventDetails in H.
    destruct currentUser; [|discriminate]. destruct (truthy eventId); [|discriminate].
    cbn [negb] in H. destruct (EventView.eventRead thrown); [discriminate|].
    destruct (events db !! default ""%string eventId) as [e|]; [|discriminate].
    destruct (deckDetails e) as [[? ?] ?].
    destruct (EventView.laterRead thrown); [discriminate|].
    cbn in H. injection H as <-. destruct e; reflexivity. }
  apply fetch_event_shape in H as (eid & e & -> & _ & Hr & Hs & _).
  apply fetch_event_shape in H' as (eid' & e' & -> & _ & Hr' & Hs' & _).
  assert (EventView.fe_rounds ev = EventView.fe_rounds ev') as E.
  { rewrite Hr, Hr'. unfold EventView.queryRounds, getRoundDocs, roundsOf.
    rewrite Hrounds. reflexivity. }
  split; [exact E|]. split; [rewrite Hs, Hs', E; reflexivity|]. split; [|exact Hdoc].
  rewrite Hs, Hr. unfold EventDetail.computeStats.
  rewrite (totals_permutation _ _
             (Permutation_map EventDetail.deriveRound
                (queryRounds_permutation db (default ""%string eventId)))).
  reflexivity.
Qed.

(** The round of the example, viewed. *)
Lemma view_rounds_in_creation_order_witness :
  exists ev,
    EventView.v_event
      (EventView.fetchEventDetails (Some "u"%string) (Some "e1"%string)
         (fun _ => ("Deck"%string, [], None)) (EventView.mkThrown None None)
         (oneWonRound 2 0 0)) = Some ev /\
    length (EventView.fe_rounds ev) = 1%nat.
Proof.
  eexists. split; [reflexivity|].
  refine (eq_trans (proj2 (proj2
    (view_rounds_in_creation_order (Some "u"%string) (Some "e1"%string)
       (fun _ => ("Deck"%string, [], None)) (EventView.mkThrown None None)
       (oneWonRound 2 0 0) _ _))) _);
    reflexivity.
Defined.

(** The same round under an event with other counters. *)
Lemma view_ignores_stored_counters_witness :
  exists ev ev',
    EventView.v_event
      (EventView.fetchEventDetails (Some "u"%string) (Some "e1"%string)
         (fun _ => ("Deck"%string, [], None)) (EventView.mkThrown None None)
         (oneWonRound 2 0 0)) = Some ev /\
    EventView.v_event
      (EventView.fetchEventDetails (Some "u"%string) (Some "e1"%string)
         (fun _ => ("Deck"%string, [], None)) (EventView.mkThrown None None)
         (oneWonRound 40 5 1)) = Some ev' /\
    EventView.fe_wins ev = 2 /\ EventView.fe_wins ev' = 40 /\
    EventView.fe_stats ev = EventView.fe_stats ev'.
Proof.
  eexists _, _. split; [reflexivity|]. split; [reflexivity|].
  split; [reflexivity|]. split; [reflexivity|].
  refine (proj1 (proj2
    (view_ignores_stored_counters (Some "u"%string) (Some "u"%string) (Some "e1"%string)
       (fun _ => ("Deck"%string, [], None)) (fun _ => ("Deck"%string, [], None))
       (EventView.mkThrown None None) (EventView.mkThrown None None)
       (oneWonRound 2 0 0) (oneWonRound 40 5 1) _ _ _ _ _))); reflexivity.
Defined.

Lemma getRoundDocs_add (E E' : gmap string EventDoc) (R : gmap (string * string) RoundDoc)
  (eventId roundId : string) (d : RoundDoc) :
  R !! (eventId, roundId) = None ->
  Permutation (getRoundDocs (mkFirestore E (<[(eventId, roundId) := d]> R)) eventId)
              ((roundId, d) :: getRoundDocs (mkFirestore E' R) eventId).
Proof.
  intros H. unfold getRoundDocs, roundsOf. cbn [rounds].
  rewrite map_filter_insert_True by reflexivity.
  rewrite map_to_list_insert by (apply map_lookup_filter_None; left; exact H).
  reflexivity.
Qed.

(** X29.  After a new round went through, the statistics the event view
    computes from the stored rounds count one match more, in the bucket
    of the round's majority outcome, and the round's games by result. *)
Theorem view_after_added_round
  (user : string) (now : Z) (autoId : string) (p : RoundForm.Props)
  (opponentInkColors : list string) (newGames : list Game) (db : Firestore) (e : EventDoc) :
  truthy (RoundForm.roundId p) = false ->
  opponentInkColors <> [] -> newGames <> [] ->
  events db !! RoundForm.eventId p = Some e ->
  rounds db !! (RoundForm.eventId p, autoId) = None ->
  let after := fst (RoundForm.handleSubmit (Some user) now autoId p opponentInkColors
                      newGames db) in
  let stats := fun db => EventDetail.computeStats
                           (map EventDetail.deriveRound
                                (EventView.queryRounds db (RoundForm.eventId p))) in
  Stats.matchesWon (stats after)
  = Stats.matchesWon (stats db) + Z.b2z (Outcome_eqb (majority newGames) Win) /\
  Stats.matchesLost (stats after)
  = Stats.matchesLost (stats db) + Z.b2z (Outcome_eqb (majority newGames) Loss) /\
  Stats.matchesDrawn (stats after)
  = Stats.matchesDrawn (stats db) + Z.b2z (Outcome_eqb (majority newGames) Draw) /\
  Stats.gamesWon (stats after) = Stats.gamesWon (stats db) + countGames isWin newGames /\
  Stats.gamesLost (stats after) = Stats.gamesLost (stats db) + countGames isLoss newGames /\
  Stats.gamesDrawn (stats after) = Stats.gamesDrawn (stats db) + countGames isDraw newGames.
Proof.
  intros Hid Hinks Hgs He Hfresh. cbv zeta.
  rewrite (handleSubmit_add user now autoId p opponentInkColors newGames db e Hid Hinks Hgs He).
  cbn [fst]. unfold EventDetail.computeStats.
  cbn [Stats.matchesWon Stats.matchesLost Stats.matchesDrawn Stats.gamesWon Stats.gamesLost
       Stats.gamesDrawn].
  set (eid := RoundForm.eventId p) in *.
  set (doc := mkRoundDoc opponentInkColors newGames now).
  assert (EventDetail.totals
            (map EventDetail.deriveRound
                 (EventView.queryRounds
                    (mkFirestore
                       (<[eid := increment e (countGames isWin newGames)
                                   (countGames isLoss newGames) (countGames isDraw newGames)]>
                          (events db))
                       (<[(eid, autoId) := doc]> (rounds db))) eid))
          = Acc.plus (roundTotals newGames)
              (EventDetail.totals
                 (map EventDetail.deriveRound (EventView.queryRounds db eid)))) as ->.
  { rewrite (totals_permutation _ _
               (Permutation_map EventDetail.deriveRound (queryRounds_permutation _ eid))).
    rewrite (totals_permutation _ _
               (Permutation_map EventDetail.deriveRound
                  (getRoundDocs_add _ (events db) (rounds db) eid autoId doc Hfresh))).
    rewrite (totals_permutation
               (map EventDetail.deriveRound (EventView.queryRounds db eid)) _
               (Permutation_map EventDetail.deriveRound (queryRounds_permutation db eid))).
    rewrite !totals_spec. cbn [map sumAcc fold_right EventDetail.deriveRound games snd
                                 doc_games doc].
    destruct db; reflexivity. }
  unfold roundTotals, gamesTotals. cbn. repeat split; lia.
Qed.

(** A lost round added to the event of the example. *)
Lemma view_after_added_round_witness :
  let stats := fun db => EventDetail.computeStats
                           (map EventDetail.deriveRound (EventView.queryRounds db "e1")) in
  let after := fst (RoundForm.handleSubmit (Some "u"%string) 9 "r2"
                      (RoundForm.mkProps "e1" None None) ["Ruby"%string]
                      [mkGame "loss" true] (oneWonRound 2 0 0)) in
  Stats.matchesLost (stats (oneWonRound 2 0 0)) = 0 /\
  Stats.matchesLost (stats after)
  = Stats.matchesLost (stats (oneWonRound 2 0 0))
    + Z.b2z (Outcome_eqb (majority [mkGame "loss" true]) Loss).
Proof.
  cbv zeta. split; [reflexivity|].
  refine (proj1 (proj2
    (view_after_added_round "u" 9 "r2" (RoundForm.mkProps "e1" None None) ["Ruby"%string]
       [mkGame "loss" true] (oneWonRound 2 0 0) (eventWith 2 0 0) _ _ _ _ _)));
    try discriminate; reflexivity.
Defined.

(** ** The deck list *)

(** X30.  The statistics of a deck depend on nothing but the rounds of
    its own events taken together: events of other decks and events
    without a deck id contribute nothing, and neither the order of the
    events and rounds nor the way the rounds are spread over the deck's
    events matters. *)
Theorem deck_stats_depend_on_own_rounds
  (deckId : string) (eventsSnapshot eventsSnapshot' : list (string * EventDoc))
  (roundsSnapshot roundsSnapshot' : string -> list (string * RoundDoc)) :
  Permutation (deckRounds deckId eventsSnapshot roundsSnapshot)
              (deckRounds deckId eventsSnapshot' roundsSnapshot') ->
  DeckList.deckStats deckId eventsSnapshot roundsSnapshot
  = DeckList.deckStats deckId eventsSnapshot' roundsSnapshot'.
Proof.
  intros H. unfold DeckList.deckStats. rewrite !deck_totals_spec.
  rewrite (totals_permutation _ _ (Permutation_map EventDetail.deriveRound H)).
  reflexivity.
Qed.

(** The rounds of the example held by one event, in another order, with
    an event without deck id beside it. *)
Lemma deck_stats_depend_on_own_rounds_witness :
  let events' := [ ("e7"%string, mkEventDoc "Legacy" "Playtest" None "Core" 0 0 0);
                   ("e8"%string, mkEventDoc "All" "Playtest" (Some "d1"%string) "Core" 0 0 0) ] in
  let rounds' := fun eventId : string =>
                   if String.eqb eventId "e8"
                   then [lostRound "r3"; wonRound "r1"; lostRound "r5"; wonRound "r2";
                         wonRound "r4"]
                   else [wonRound "r9"] in
  DeckList.deckStats "d1" exampleEvents exampleRounds
  = DeckList.deckStats "d1" events' rounds'.
Proof.
  cbv zeta. apply deck_stats_depend_on_own_rounds.
  vm_compute.
  apply (Permutation_trans (l' :=
           [wonRound "r1"; lostRound "r3"; wonRound "r2"; wonRound "r4"; lostRound "r5"]));
    vm_compute.
  - apply perm_skip. apply perm_swap.
  - apply (Permutation_trans (l' :=
             [lostRound "r3"; wonRound "r1"; wonRound "r2"; wonRound "r4"; lostRound "r5"]));
      vm_compute.
    + apply perm_swap.
    + apply perm_skip, perm_skip.
      apply (Permutation_trans (l' := [wonRound "r2"; lostRound "r5"; wonRound "r4"]));
        vm_compute.
      * apply perm_skip, perm_swap.
      * apply perm_swap.
Defined.
